(** * go-rl, package [mdp]: a shallow embedding and its properties

    The package keeps a finite Markov decision process in memory: states,
    actions, a rewards table, a transition table and a discount rate, with
    operations that edit them.  This file embeds the last revision of every
    source file of the package (state.go, action.go, transition.go,
    rewards_table.go, transition_table.go, mdp.go), and [Uniform] of the
    package [utils], and proves properties of the embedded operations.

    Conventions of the embedding.

    - A Go interface value ([State], [Action], [Transition],
      [TransitionTableEntry]) is an [option]: [None] is the nil interface,
      [Some x] a pointer to the struct [x].  Calling a method on nil panics,
      so every method returns an [outcome].
    - [state] and [action] structs are never written after their
      constructor returns, and both are used as map keys, where Go compares
      the pointers.  A pointer to such a struct is therefore the address
      handed out by the allocator together with the contents found there;
      two calls of [NewState] with the same arguments give different keys.
    - A [transition] struct is immutable and its pointer is never compared
      inside the package: it is a plain value.
    - A [transitionTableEntry] is mutated in place through the pointer the
      table holds, and holds a Go map, which is nil or a reference.  The
      file is embedded twice.  The aggregate allocates one entry per
      registered state, with [NewTransitionTableEntry(nil)], so over a map
      of its own made by [make]; it stores the entry under that one key and
      never hands it out.  For the aggregate the table is therefore
      modelled as owning its entries: an entry is the contents of its map
      and an in-place update is an update of the value stored under the
      key.  The module [Ptr] embeds the file with a store of entry structs
      and maps, for tables a caller builds, where a map can be nil or
      shared; [owned_Update], [owned_Get] and [owned_Remove] show that the
      two agree on tables whose entries hold made maps of their own.
    - Go [int] is 64 bits wide; the only arithmetic that can leave the range
      is the doubling of an index, which is wrapped.  [float32] values are
      IEEE 754 binary32 numbers, only stored and compared.
    - [for ... range] over a Go map visits the keys in an unspecified order;
      the embedding visits them in the order of [map_to_list].  The lemmas
      about these loops are stated for an arbitrary list of pairs, so what is
      proved of [SetState] and [NewMDP] does not depend on that order.
    - [make] of a slice panics when the length is negative or the slots
      take more than the largest allocation of the runtime (2^48 bytes on
      linux/amd64) and is taken to succeed otherwise: running out of memory
      below that limit is a fatal error of the runtime, not a panic, and is
      not modelled.
    - Of the [String] renderers those of [state] and [action] are
      embedded.  The others print floats or visit a map in an unspecified
      order, and are left out.
    - [Uniform] returns an [option]: [None] is the panic of an integer
      division by zero. *)

From Stdlib Require Import ZArith Floats.SpecFloat.
From stdpp Require Import base option list gmap strings pretty.

Local Open Scope Z_scope.

(** ** Run-time values *)

(** Go [int] on a 64-bit platform: two's complement wrap-around. *)
Definition wrap_int (z : Z) : Z := (z + 2 ^ 63) mod 2 ^ 64 - 2 ^ 63.

Abbreviation float32 := spec_float.

(** The zero value of [float32], and the constant [1.0]. *)
Definition f32_zero : float32 := S754_zero false.
Definition f32_one : float32 := SFone 24 128.

(** [a <= b] and [a > b] on floats; both are false when a NaN is involved. *)
Definition f32_le (a b : float32) : bool := SFleb a b.
Definition f32_gt (a b : float32) : bool := SFltb b a.

(** The run-time panics the package can raise. *)
Inductive panic : Type :=
  | NilDereference      (* method call on a nil interface value *)
  | IndexOutOfRange     (* slice index outside [0, len) *)
  | MakeSliceLen        (* make([]T, n) with n out of range *)
  | AssignToNilMap.     (* m[k] = v on a nil map *)

(** Result of running a piece of Go code: a value, or a panic. *)
Inductive outcome (A : Type) : Type :=
  | Normal (a : A)
  | Panics (p : panic).
Arguments Normal {A} a.
Arguments Panics {A} p.

Global Instance outcome_ret : MRet outcome := λ A a, Normal a.

Global Instance outcome_bind : MBind outcome := λ A B k x,
  match x with
  | Normal a => k a
  | Panics p => Panics p
  end.

(** The [error] interface: nil, or the value built by [errors.New]. *)
Abbreviation error := (option string).
Definition errors_New (msg : string) : error := Some msg.

(** Control flow of a loop body: go on with the next element, or leave the
    enclosing function with a result. *)
Inductive flow (S R : Type) : Type :=
  | Continue (s : S)
  | Return (r : R).
Arguments Continue {S R} s.
Arguments Return {S R} r.

(** [for _, x := range l { body }] with [s] the variables the body writes. *)
Fixpoint for_range {A S R} (l : list A) (body : A → S → outcome (flow S R))
    (s : S) : outcome (flow S R) :=
  match l with
  | [] => Normal (Continue s)
  | x :: l' =>
      c ← body x s;
      match c with
      | Continue s' => for_range l' body s'
      | Return r => Normal (Return r)
      end
  end.

(** Addresses handed out by the allocator; the next free one is threaded
    through every function that allocates a [state] or an [action]. *)
Abbreviation addr := nat.

(** ** state.go *)

Record state : Type := mkState {
  state_addr : addr;
  state_name : string;
  state_index : Z;
  state_terminal : bool;
}.

Abbreviation State := (option state).

Global Instance state_eq_dec : EqDecision state.
Proof. solve_decision. Defined.

Global Instance state_countable : Countable state.
Proof.
  apply (inj_countable'
           (λ s, (state_addr s, state_name s, state_index s, state_terminal s))
           (λ t, let '(a, n, i, b) := t in mkState a n i b)).
  by intros [].
Defined.

Definition state_Name (s : State) : outcome string :=
  match s with
  | Some st => Normal (state_name st)
  | None => Panics NilDereference
  end.

Definition state_Index (s : State) : outcome Z :=
  match s with
  | Some st => Normal (state_index st)
  | None => Panics NilDereference
  end.

Definition state_Terminal (s : State) : outcome bool :=
  match s with
  | Some st => Normal (state_terminal st)
  | None => Panics NilDereference
  end.

Definition state_Equals (s other : State) : outcome bool :=
  match s with
  | Some st => i ← state_Index other; Normal (state_index st =? i)
  | None => Panics NilDereference
  end.

Definition NewState (name : string) (index : Z) (terminal : bool) (h : addr)
    : State * addr :=
  (Some (mkState h name index terminal), S h).

(** ** action.go *)

Record action : Type := mkAction {
  action_addr : addr;
  action_name : string;
}.

Abbreviation Action := (option action).

Global Instance action_eq_dec : EqDecision action.
Proof. solve_decision. Defined.

Global Instance action_countable : Countable action.
Proof.
  apply (inj_countable'
           (λ a, (action_addr a, action_name a))
           (λ t, let '(p, n) := t in mkAction p n)).
  by intros [].
Defined.

Definition action_Name (a : Action) : outcome string :=
  match a with
  | Some ac => Normal (action_name ac)
  | None => Panics NilDereference
  end.

Definition action_Equals (a other : Action) : outcome bool :=
  match a with
  | Some ac => n ← action_Name other; Normal (String.eqb (action_name ac) n)
  | None => Panics NilDereference
  end.

Definition NewAction (name : string) (h : addr) : Action * addr :=
  (Some (mkAction h name), S h).

(** ** transition.go *)

Record transition : Type := mkTransition {
  transition_probability : float32;
  transition_nextState : State;
}.

Abbreviation Transition := (option transition).

Definition NewTransition (probability : float32) (nextState : State)
    : Transition :=
  Some (mkTransition probability nextState).

Definition transition_Probability (t : Transition) : outcome float32 :=
  match t with
  | Some tr => Normal (transition_probability tr)
  | None => Panics NilDereference
  end.

Definition transition_NextState (t : Transition) : outcome State :=
  match t with
  | Some tr => Normal (transition_nextState tr)
  | None => Panics NilDereference
  end.

(** ** rewards_table.go *)

Record rewardsTable : Type := mkRewardsTable {
  rewardsTable_table : gmap Z float32;
  rewardsTable_stateMap : gmap Z State;
}.

(** [r.table[state.Index()]]: a missing key reads as the zero value. *)
Definition rewardsTable_Get (r : rewardsTable) (s : State) : outcome float32 :=
  i ← state_Index s;
  Normal (default f32_zero (rewardsTable_table r !! i)).

Definition rewardsTable_Set (r : rewardsTable) (s : State) (reward : float32)
    : outcome rewardsTable :=
  i ← state_Index s;
  Normal (mkRewardsTable (<[i := reward]> (rewardsTable_table r))
                         (<[i := s]> (rewardsTable_stateMap r))).

Definition rewardsTable_Remove (r : rewardsTable) (s : State)
    : outcome rewardsTable :=
  i ← state_Index s;
  Normal (mkRewardsTable (delete i (rewardsTable_table r))
                         (delete i (rewardsTable_stateMap r))).

Definition NewRewards (table : option (gmap State float32))
    : outcome rewardsTable :=
  let t := mkRewardsTable ∅ ∅ in
  match table with
  | None => Normal t
  | Some tbl =>
      c ← for_range (R := unit) (map_to_list tbl)
            (λ '(s, reward) t, t' ← rewardsTable_Set t s reward;
                               Normal (Continue t')) t;
      match c with
      | Continue t' => Normal t'
      | Return _ => Normal t
      end
  end.

(** ** transition_table.go *)

(** The view of the aggregate: an entry is the contents of a made map that
    no other entry shares.  [Ptr], below, has the pointers. *)

Record transitionTableEntry : Type := mkEntry {
  transitionTableEntry_entry : gmap Action Transition;
}.

Abbreviation TransitionTableEntry := (option transitionTableEntry).

Definition transitionTableEntry_Get (t : TransitionTableEntry) (a : Action)
    : outcome Transition :=
  match t with
  | Some e => Normal (default None (transitionTableEntry_entry e !! a))
  | None => Panics NilDereference
  end.

Definition transitionTableEntry_Set (t : TransitionTableEntry) (a : Action)
    (probability : float32) (nextState : State) : outcome transitionTableEntry :=
  match t with
  | Some e =>
      Normal (mkEntry (<[a := NewTransition probability nextState]>
                         (transitionTableEntry_entry e)))
  | None => Panics NilDereference
  end.

Definition transitionTableEntry_Remove (t : TransitionTableEntry) (a : Action)
    : outcome transitionTableEntry :=
  match t with
  | Some e => Normal (mkEntry (delete a (transitionTableEntry_entry e)))
  | None => Panics NilDereference
  end.

(** Removes every transition whose destination [Equals] [nextState]. *)
Definition transitionTableEntry_RemoveTransition (t : TransitionTableEntry)
    (nextState : State) : outcome transitionTableEntry :=
  match t with
  | Some e =>
      c ← for_range (R := unit) (map_to_list (transitionTableEntry_entry e))
            (λ '(a, tr) e',
               ns ← transition_NextState tr;
               b ← state_Equals ns nextState;
               if b : bool
               then e'' ← transitionTableEntry_Remove (Some e') a;
                    Normal (Continue e'')
               else Normal (Continue e')) e;
      match c with
      | Continue e' => Normal e'
      | Return _ => Normal e
      end
  | None => Panics NilDereference
  end.

(** [Some e] is a pointer to a variable holding a made map with the
    contents [e]. *)
Definition NewTransitionTableEntry (entry : option (gmap Action Transition))
    : TransitionTableEntry :=
  match entry with
  | None => Some (mkEntry ∅)
  | Some e => Some (mkEntry e)
  end.

Record transitionTable : Type := mkTable {
  transitionTable_table : gmap State TransitionTableEntry;
}.

Definition transitionTable_Get (t : transitionTable) (s : State)
    : TransitionTableEntry :=
  match transitionTable_table t !! s with
  | Some e => e
  | None => None
  end.

Definition transitionTable_Set (t : transitionTable) (s : State)
    (entry : TransitionTableEntry) : transitionTable :=
  mkTable (<[s := entry]> (transitionTable_table t)).

(** [t.table[state].Set(...)]: the entry found under [state] is updated in
    place; a missing key reads as nil and the call panics. *)
Definition transitionTable_Update (t : transitionTable) (s : State)
    (a : Action) (probability : float32) (nextState : State)
    : outcome transitionTable :=
  e ← transitionTableEntry_Set (default None (transitionTable_table t !! s))
        a probability nextState;
  Normal (mkTable (<[s := Some e]> (transitionTable_table t))).

Definition transitionTable_Remove (t : transitionTable) (s : State)
    : transitionTable :=
  mkTable (delete s (transitionTable_table t)).

Definition NewTransitionTable
    (table : option (gmap State (gmap Action Transition))) : transitionTable :=
  match table with
  | None => mkTable ∅
  | Some tbl => mkTable ((λ e, NewTransitionTableEntry (Some e)) <$> tbl)
  end.

(** ** transition_table.go, with its pointers *)

(** [NewTransitionTableEntry] and [NewTransitionTable] keep the maps they
    are given, which can be nil or shared between entries, and [Set] stores
    the entry pointer it is handed, which can be stored under several
    states.  Here an entry is a pointer to a struct of the store, and the
    struct holds a map value. *)
Module Ptr.

(** A value of type [map[Action]Transition]: nil, or a reference to a map
    of the store. *)
Abbreviation Map := (option addr).

(** A [TransitionTableEntry]: nil, or a pointer to a [transitionTableEntry]
    struct of the store. *)
Abbreviation TransitionTableEntry := (option addr).

(** The maps, by reference, and the field [entry] of the entry structs, by
    address. *)
Record store : Type := mkStore {
  store_maps : gmap addr (gmap Action Transition);
  store_entries : gmap addr Map;
}.

(** The contents of a map value; a nil map reads as an empty one. *)
Definition contents (σ : store) (r : Map) : gmap Action Transition :=
  match r with
  | Some r => default ∅ (store_maps σ !! r)
  | None => ∅
  end.

(** [t.entry] for a non-nil [t]; a struct never written holds the zero
    value, a nil map. *)
Definition entry (σ : store) (p : addr) : Map :=
  default None (store_entries σ !! p).

(** [m[k] = v] panics with "assignment to entry in nil map" on a nil map. *)
Definition map_assign (σ : store) (r : Map) (k : Action) (v : Transition)
    : outcome store :=
  match r with
  | Some r =>
      Normal (mkStore (<[r := <[k := v]> (contents σ (Some r))]> (store_maps σ))
                      (store_entries σ))
  | None => Panics AssignToNilMap
  end.

(** [delete(m, k)] does nothing on a nil map. *)
Definition map_delete (σ : store) (r : Map) (k : Action) : store :=
  match r with
  | Some r =>
      mkStore (<[r := delete k (contents σ (Some r))]> (store_maps σ))
              (store_entries σ)
  | None => σ
  end.

Definition transitionTableEntry_Get (σ : store) (t : TransitionTableEntry)
    (a : Action) : outcome Transition :=
  match t with
  | Some p => Normal (default None (contents σ (entry σ p) !! a))
  | None => Panics NilDereference
  end.

Definition transitionTableEntry_Set (σ : store) (t : TransitionTableEntry)
    (a : Action) (probability : float32) (nextState : State) : outcome store :=
  match t with
  | Some p => map_assign σ (entry σ p) a (NewTransition probability nextState)
  | None => Panics NilDereference
  end.

Definition transitionTableEntry_Remove (σ : store) (t : TransitionTableEntry)
    (a : Action) : outcome store :=
  match t with
  | Some p => Normal (map_delete σ (entry σ p) a)
  | None => Panics NilDereference
  end.

(** The loop visits the keys the map holds when it starts; the only key a
    round deletes is its own. *)
Definition transitionTableEntry_RemoveTransition (σ : store)
    (t : TransitionTableEntry) (nextState : State) : outcome store :=
  match t with
  | Some p =>
      c ← for_range (R := unit) (map_to_list (contents σ (entry σ p)))
            (λ '(a, tr) σ',
               ns ← transition_NextState tr;
               b ← state_Equals ns nextState;
               if b : bool
               then σ'' ← transitionTableEntry_Remove σ' t a;
                    Normal (Continue σ'')
               else Normal (Continue σ')) σ;
      match c with
      | Continue σ' => Normal σ'
      | Return _ => Normal σ
      end
  | None => Panics NilDereference
  end.

(** The argument is a nil pointer, or a pointer to a variable that holds a
    map value.  The struct is allocated first, then, for a nil pointer, the
    map. *)
Definition NewTransitionTableEntry (entry : option Map) (σ : store) (h : addr)
    : TransitionTableEntry * store * addr :=
  match entry with
  | None =>
      (Some h,
       mkStore (<[S h := ∅]> (store_maps σ)) (<[h := Some (S h)]> (store_entries σ)),
       S (S h))
  | Some r => (Some h, mkStore (store_maps σ) (<[h := r]> (store_entries σ)), S h)
  end.

Record transitionTable : Type := mkTable {
  transitionTable_table : gmap State TransitionTableEntry;
}.

Definition transitionTable_Get (t : transitionTable) (s : State)
    : TransitionTableEntry :=
  match transitionTable_table t !! s with
  | Some e => e
  | None => None
  end.

Definition transitionTable_Set (t : transitionTable) (s : State)
    (entry : TransitionTableEntry) : transitionTable :=
  mkTable (<[s := entry]> (transitionTable_table t)).

(** [t.table[state].Set(...)]: the table is read, the store is written. *)
Definition transitionTable_Update (σ : store) (t : transitionTable) (s : State)
    (a : Action) (probability : float32) (nextState : State) : outcome store :=
  transitionTableEntry_Set σ (transitionTable_Get t s) a probability nextState.

Definition transitionTable_Remove (t : transitionTable) (s : State)
    : transitionTable :=
  mkTable (delete s (transitionTable_table t)).

(** The argument is a nil pointer, or a pointer to a map from states to map
    values; every state gets a struct of its own over the map value found
    for it. *)
Definition NewTransitionTable (table : option (gmap State Map)) (σ : store)
    (h : addr) : transitionTable * store * addr :=
  match table with
  | None => (mkTable ∅, σ, h)
  | Some tbl =>
      foldl (λ '(t, σ, h) '(state, entry),
               let '(e, σ, h) := NewTransitionTableEntry (Some entry) σ h in
               (transitionTable_Set t state e, σ, h))
            (mkTable ∅, σ, h) (map_to_list tbl)
  end.

End Ptr.

(** What an entry and a table of the store look like to the aggregate. *)
Definition owned_entry (σ : Ptr.store) (e : Ptr.TransitionTableEntry)
    : TransitionTableEntry :=
  match e with
  | Some p => Some (mkEntry (Ptr.contents σ (Ptr.entry σ p)))
  | None => None
  end.

Definition owned_view (σ : Ptr.store) (t : Ptr.transitionTable)
    : transitionTable :=
  mkTable (owned_entry σ <$> Ptr.transitionTable_table t).

(** Every entry of the table holds a made map, and no two states share
    one. *)
Definition owned (σ : Ptr.store) (t : Ptr.transitionTable) : Prop :=
  ∀ s p, Ptr.transitionTable_table t !! s = Some (Some p) →
    ∃ r, Ptr.entry σ p = Some r ∧
         ∀ s' p', Ptr.transitionTable_table t !! s' = Some (Some p') →
                  Ptr.entry σ p' = Some r → s' = s.

(** ** mdp.go *)

(** Starting number of available states. *)
Definition defaultStatesCapacity : Z := 128.

Record mdp : Type := mkMdp {
  mdp_initialState : State;
  mdp_states : list State;
  mdp_statesCapacity : Z;
  mdp_statesSize : Z;
  mdp_actions : gmap string Action;
  mdp_rewards : rewardsTable;
  mdp_transitions : transitionTable;
  mdp_discountRate : float32;
  mdp_stateMap : gmap string State;
  mdp_stateIndexMap : gmap Z State;
}.

(** Field assignments [m.f = v]. *)
Definition set_initialState (v : State) (m : mdp) : mdp :=
  mkMdp v (mdp_states m) (mdp_statesCapacity m) (mdp_statesSize m)
        (mdp_actions m) (mdp_rewards m) (mdp_transitions m)
        (mdp_discountRate m) (mdp_stateMap m) (mdp_stateIndexMap m).

Definition set_states (v : list State) (m : mdp) : mdp :=
  mkMdp (mdp_initialState m) v (mdp_statesCapacity m) (mdp_statesSize m)
        (mdp_actions m) (mdp_rewards m) (mdp_transitions m)
        (mdp_discountRate m) (mdp_stateMap m) (mdp_stateIndexMap m).

Definition set_statesCapacity (v : Z) (m : mdp) : mdp :=
  mkMdp (mdp_initialState m) (mdp_states m) v (mdp_statesSize m)
        (mdp_actions m) (mdp_rewards m) (mdp_transitions m)
        (mdp_discountRate m) (mdp_stateMap m) (mdp_stateIndexMap m).

Definition set_actions (v : gmap string Action) (m : mdp) : mdp :=
  mkMdp (mdp_initialState m) (mdp_states m) (mdp_statesCapacity m)
        (mdp_statesSize m) v (mdp_rewards m) (mdp_transitions m)
        (mdp_discountRate m) (mdp_stateMap m) (mdp_stateIndexMap m).

Definition set_rewards (v : rewardsTable) (m : mdp) : mdp :=
  mkMdp (mdp_initialState m) (mdp_states m) (mdp_statesCapacity m)
        (mdp_statesSize m) (mdp_actions m) v (mdp_transitions m)
        (mdp_discountRate m) (mdp_stateMap m) (mdp_stateIndexMap m).

Definition set_transitions (v : transitionTable) (m : mdp) : mdp :=
  mkMdp (mdp_initialState m) (mdp_states m) (mdp_statesCapacity m)
        (mdp_statesSize m) (mdp_actions m) (mdp_rewards m) v
        (mdp_discountRate m) (mdp_stateMap m) (mdp_stateIndexMap m).

Definition set_discountRate (v : float32) (m : mdp) : mdp :=
  mkMdp (mdp_initialState m) (mdp_states m) (mdp_statesCapacity m)
        (mdp_statesSize m) (mdp_actions m) (mdp_rewards m) (mdp_transitions m)
        v (mdp_stateMap m) (mdp_stateIndexMap m).

Definition set_stateMap (v : gmap string State) (m : mdp) : mdp :=
  mkMdp (mdp_initialState m) (mdp_states m) (mdp_statesCapacity m)
        (mdp_statesSize m) (mdp_actions m) (mdp_rewards m) (mdp_transitions m)
        (mdp_discountRate m) v (mdp_stateIndexMap m).

Definition set_stateIndexMap (v : gmap Z State) (m : mdp) : mdp :=
  mkMdp (mdp_initialState m) (mdp_states m) (mdp_statesCapacity m)
        (mdp_statesSize m) (mdp_actions m) (mdp_rewards m) (mdp_transitions m)
        (mdp_discountRate m) (mdp_stateMap m) v.

(** *** Slices of states *)

(** The largest allocation the Go runtime accepts on a 64-bit platform
    (linux/amd64, 48 address bits), and the size of an interface value. *)
Definition maxAlloc : Z := 2 ^ 48.
Definition sizeof_State : Z := 16.

(** [make([]State, n)]: [n] nil slots.  The runtime panics with "makeslice:
    len out of range" when [n] is negative or [n] slots take more than
    [maxAlloc] bytes. *)
Definition make_states (n : Z) : outcome (list State) :=
  if (n <? 0) || (maxAlloc <? sizeof_State * n) then Panics MakeSliceLen
  else Normal (replicate (Z.to_nat n) None).

(** [l[i] = v], bounds-checked. *)
Definition slice_store (l : list State) (i : Z) (v : State)
    : outcome (list State) :=
  if (0 <=? i) && (i <? Z.of_nat (length l))
  then Normal (<[Z.to_nat i := v]> l)
  else Panics IndexOutOfRange.

(** [for i, state := range src { dst[i] = state }], started at index [i]. *)
Fixpoint copy_states (src : list State) (i : Z) (dst : list State)
    : outcome (list State) :=
  match src with
  | [] => Normal dst
  | s :: src' => dst' ← slice_store dst i s; copy_states src' (i + 1) dst'
  end.

(** The value of [index] after
    [index := 0; for _, state := range l { if state == nil { break }; index++ }]. *)
Fixpoint first_nil_index (l : list State) : Z :=
  match l with
  | Some _ :: l' => 1 + first_nil_index l'
  | _ => 0
  end.

(** *** Lookups *)

Definition getStateByName (m : mdp) (state : string) : State :=
  match mdp_stateMap m !! state with
  | Some s => s
  | None => None
  end.

Definition getStateByIndex (m : mdp) (index : Z) : State :=
  match mdp_stateIndexMap m !! index with
  | Some s => s
  | None => None
  end.

Definition getAction (m : mdp) (a : string) : Action :=
  match mdp_actions m !! a with
  | Some x => x
  | None => None
  end.

(** *** Queries *)

Definition R (m : mdp) (state : string) : outcome float32 :=
  rewardsTable_Get (mdp_rewards m) (getStateByName m state).

Definition RByIndex (m : mdp) (stateIndex : Z) : outcome float32 :=
  rewardsTable_Get (mdp_rewards m) (getStateByIndex m stateIndex).

Definition T (m : mdp) (state a : string) : outcome Transition :=
  transitionTableEntry_Get
    (transitionTable_Get (mdp_transitions m) (getStateByName m state))
    (getAction m a).

Definition TByIndex (m : mdp) (stateIndex : Z) (a : string)
    : outcome Transition :=
  transitionTableEntry_Get
    (transitionTable_Get (mdp_transitions m) (getStateByIndex m stateIndex))
    (getAction m a).

(** *** Actions *)

Definition AddAction (m : mdp) (a : string) (h : addr)
    : error * mdp * addr :=
  match getAction m a with
  | Some _ =>
      (errors_New ("action with name " +:+ a +:+ " already exists"), m, h)
  | None =>
      let '(x, h) := NewAction a h in
      (None, set_actions (<[a := x]> (mdp_actions m)) m, h)
  end.

(** [action.String()] is the action's name. *)
Definition AddActionObject (m : mdp) (a : Action) : outcome (error * mdp) :=
  n ← action_Name a;
  match getAction m n with
  | Some _ => Normal (errors_New ("action " +:+ n +:+ " already exists"), m)
  | None => Normal (None, set_actions (<[n := a]> (mdp_actions m)) m)
  end.

(** The entry of each slot of the backing array, nil slots included, is
    asked to drop [a]. *)
Definition RemoveAction (m : mdp) (name : string) : outcome (error * mdp) :=
  match getAction m name with
  | None =>
      Normal (errors_New ("action with name " +:+ name +:+ " doesn't exist"), m)
  | Some _ as a =>
      let m := set_actions (delete name (mdp_actions m)) m in
      c ← for_range (R := unit) (mdp_states m)
            (λ s t,
               e ← transitionTableEntry_Remove (transitionTable_Get t s) a;
               Normal (Continue (transitionTable_Set t s (Some e))))
            (mdp_transitions m);
      match c with
      | Continue t => Normal (None, set_transitions t m)
      | Return _ => Normal (None, m)
      end
  end.

Definition RemoveActionObject (m : mdp) (a : Action) : outcome (error * mdp) :=
  n ← action_Name a; RemoveAction m n.

(** *** States *)

Definition appendStateToList (m : mdp) (s : State) : outcome (error * mdp) :=
  index ← state_Index s;
  if index <? 0 then Normal (errors_New "index must be non-negative", m)
  else
    m ← (if index >=? mdp_statesCapacity m then
           let m := set_statesCapacity (wrap_int (index * 2)) m in
           newStates ← make_states (mdp_statesCapacity m);
           newStates ← copy_states (mdp_states m) 0 newStates;
           Normal (set_states newStates m)
         else Normal m);
    l ← slice_store (mdp_states m) index s;
    Normal (None, set_states l m).

(** The statements of [SetState] and [SetStateObject] up to the loop over
    the transitions: the state found at the index loses its reward and its
    transitions, then [s] is stored in the backing array and in both maps
    and receives its reward. *)
Definition register_state (m : mdp) (s : State) (name : string) (index : Z)
    (reward : float32) : outcome (error * mdp) :=
  m ← (match getStateByIndex m index with
       | Some _ =>
           let sOld := getStateByIndex m index in
           r ← rewardsTable_Remove (mdp_rewards m) sOld;
           Normal (set_transitions
                     (transitionTable_Remove (mdp_transitions m) sOld)
                     (set_rewards r m))
       | None => Normal m
       end);
  '(err, m) ← appendStateToList m s;
  match err with
  | Some _ => Normal (err, m)
  | None =>
      let m := set_stateMap (<[name := s]> (mdp_stateMap m)) m in
      let m := set_stateIndexMap (<[index := s]> (mdp_stateIndexMap m)) m in
      r ← rewardsTable_Set (mdp_rewards m) s reward;
      Normal (None, set_rewards r m)
  end.

(** The last statements of both: the entry is stored and the initial state
    updated when the index is 0. *)
Definition install_entry (m : mdp) (s : State) (index : Z)
    (entry : TransitionTableEntry) : mdp :=
  let m := set_transitions (transitionTable_Set (mdp_transitions m) s entry) m in
  if index =? 0 then set_initialState s m else m.

(** Body of the loop of [SetState] over [transitions]. *)
Definition SetState_body : string * Transition →
    mdp * transitionTableEntry * addr →
    outcome (flow (mdp * transitionTableEntry * addr) (error * mdp * addr)) :=
  λ '(name, tr) '(m, entry, h),
    '(a, m, h, err) ←
      (match getAction m name with
       | Some _ as a => Normal (a, m, h, None)
       | None =>
           let '(a, h) := NewAction name h in
           '(err, m) ← AddActionObject m a;
           Normal (a, m, h, err)
       end);
    match err with
    | Some _ => Normal (Return (err, m, h))
    | None =>
        p ← transition_Probability tr;
        ns ← transition_NextState tr;
        entry ← transitionTableEntry_Set (Some entry) a p ns;
        Normal (Continue (m, entry, h))
    end.

Definition SetState (m : mdp) (state : string) (index : Z) (terminal : bool)
    (reward : float32) (transitions : gmap string Transition) (h : addr)
    : outcome (error * mdp * addr) :=
  if index <? 0 then Normal (errors_New "index must be non-negative", m, h)
  else if String.eqb state "" then
    Normal (errors_New "name must be provided", m, h)
  else
    let '(s, h) := NewState state index terminal h in
    '(err, m) ← register_state m s state index reward;
    match err with
    | Some _ => Normal (err, m, h)
    | None =>
        c ← for_range (map_to_list transitions) SetState_body
              (m, mkEntry ∅, h);
        match c with
        | Return r => Normal r
        | Continue (m, entry, h) =>
            Normal (None, install_entry m s index (Some entry), h)
        end
    end.

(** Body of the loop of [SetStateObject] over [transitions]. *)
Definition SetStateObject_body : Action * Transition →
    mdp * transitionTableEntry →
    outcome (flow (mdp * transitionTableEntry) (error * mdp)) :=
  λ '(a, tr) '(m, entry),
    n ← action_Name a;
    '(err, m) ←
      (match getAction m n with
       | Some _ => Normal (None, m)
       | None => AddActionObject m a
       end);
    match err with
    | Some _ => Normal (Return (err, m))
    | None =>
        p ← transition_Probability tr;
        ns ← transition_NextState tr;
        entry ← transitionTableEntry_Set (Some entry) a p ns;
        Normal (Continue (m, entry))
    end.

Definition SetStateObject (m : mdp) (s : State) (reward : float32)
    (transitions : gmap Action Transition) : outcome (error * mdp) :=
  index ← state_Index s;
  if index <? 0 then Normal (errors_New "index must be non-negative", m)
  else
    name ← state_Name s;
    if String.eqb name "" then Normal (errors_New "name must be provided", m)
    else
      '(err, m) ← register_state m s name index reward;
      match err with
      | Some _ => Normal (err, m)
      | None =>
          c ← for_range (map_to_list transitions) SetStateObject_body
                (m, mkEntry ∅);
          match c with
          | Return r => Normal r
          | Continue (m, entry) =>
              Normal (None, install_entry m s index (Some entry))
          end
      end.

Definition SetInitialState (m : mdp) (state : string) (reward : float32)
    (transitions : gmap string Transition) (h : addr)
    : outcome (error * mdp * addr) :=
  SetState m state 0 false reward transitions h.

Definition SetInitialStateObject (m : mdp) (s : State) (reward : float32)
    (transitions : gmap Action Transition) : outcome (error * mdp) :=
  SetStateObject m s reward transitions.

Definition AddState (m : mdp) (state : string) (terminal : bool)
    (reward : float32) (transitions : gmap string Transition) (h : addr)
    : outcome (error * mdp * addr) :=
  let index := first_nil_index (mdp_states m) in
  SetState m state index terminal reward transitions h.

(** The index found by the scan is not passed on. *)
Definition AddStateObject (m : mdp) (s : State) (reward : float32)
    (transitions : gmap Action Transition) : outcome (error * mdp) :=
  let index := first_nil_index (mdp_states m) in
  SetStateObject m s reward transitions.

Definition RemoveStateByIndex (m : mdp) (index : Z) : outcome (error * mdp) :=
  match getStateByIndex m index with
  | None =>
      Normal (errors_New ("state at index " +:+ pretty index +:+
                          " doesn't exist"), m)
  | Some _ as sOld =>
      l ← slice_store (mdp_states m) index None;
      let m := set_states l m in
      r ← rewardsTable_Remove (mdp_rewards m) sOld;
      let m := set_rewards r m in
      Normal (None,
              set_transitions
                (transitionTable_Remove (mdp_transitions m) sOld) m)
  end.

Definition RemoveStateByName (m : mdp) (state : string)
    : outcome (error * mdp) :=
  match getStateByName m state with
  | None =>
      Normal (errors_New ("state with name " +:+ state +:+ " doesn't exist"), m)
  | Some _ as s => index ← state_Index s; RemoveStateByIndex m index
  end.

(** *** Discount rate and single transitions *)

Definition discount_out_of_range (discountRate : float32) : bool :=
  f32_le discountRate f32_zero || f32_gt discountRate f32_one.

Definition SetDiscountRate (m : mdp) (discountRate : float32) : error * mdp :=
  if discount_out_of_range discountRate
  then (errors_New "discount rate must be in (0, 1.0]", m)
  else (None, set_discountRate discountRate m).

Definition SetTransition (m : mdp) (startState endState a : string)
    (probability : float32) : outcome mdp :=
  t ← transitionTable_Update (mdp_transitions m) (getStateByName m startState)
        (getAction m a) probability (getStateByName m endState);
  Normal (set_transitions t m).

Definition RemoveTransition (m : mdp) (startState endState : string)
    : outcome mdp :=
  let s := getStateByName m startState in
  e ← transitionTableEntry_RemoveTransition
        (transitionTable_Get (mdp_transitions m) s)
        (getStateByName m endState);
  Normal (set_transitions (transitionTable_Set (mdp_transitions m) s (Some e)) m).

Definition RemoveTransitionByAction (m : mdp) (startState a : string)
    : outcome mdp :=
  let s := getStateByName m startState in
  e ← transitionTableEntry_Remove
        (transitionTable_Get (mdp_transitions m) s) (getAction m a);
  Normal (set_transitions (transitionTable_Set (mdp_transitions m) s (Some e)) m).

(** *** Construction *)

(** Body of the loop of [NewMDP] over [transitions[state]]: the guard looks
    the state up in the terminal map. *)
Definition NewMDP_entry_body (m : mdp) (terminalMap : gmap string bool)
    (state : string) : string * Transition → transitionTableEntry →
    outcome (flow transitionTableEntry error) :=
  λ '(a, tr) entry,
    match terminalMap !! state with
    | None =>
        Normal (Return (errors_New ("action with name " +:+ a +:+ " not in MDP")))
    | Some _ =>
        p ← transition_Probability tr;
        ns ← transition_NextState tr;
        entry ← transitionTableEntry_Set (Some entry)
                  (default None (mdp_actions m !! a)) p ns;
        Normal (Continue entry)
    end.

(** Body of the loop of [NewMDP] over [states]; the loop carries the
    aggregate, the counter [i] and the allocator. *)
Definition NewMDP_state_body (initialState : string)
    (terminalMap : gmap string bool) (rewards : gmap string float32)
    (transitions : gmap string (gmap string Transition))
    (state : string) : mdp * Z * addr →
    outcome (flow (mdp * Z * addr) (error * addr)) :=
  λ '(m, i, h),
    let isTerminal :=
      match terminalMap !! state with Some _ => true | None => false end in
    let '(s, h) := NewState state i isTerminal h in
    if negb (String.eqb initialState state) then
      let m := set_states (mdp_states m ++ [s]) m in
      let m := set_stateMap (<[state := s]> (mdp_stateMap m)) m in
      let m := set_stateIndexMap (<[i := s]> (mdp_stateIndexMap m)) m in
      r ← rewardsTable_Set (mdp_rewards m) s (default f32_zero (rewards !! state));
      let m := set_rewards r m in
      c ← for_range (map_to_list (default ∅ (transitions !! state)))
            (NewMDP_entry_body m terminalMap state) (mkEntry ∅);
      match c with
      | Return err => Normal (Return (err, h))
      | Continue entry =>
          let m := set_transitions
                     (transitionTable_Set (mdp_transitions m) s (Some entry)) m in
          Normal (Continue (m, i + 1, h))
      end
    else Normal (Continue (m, i, h)).

Definition NewMDP (initialState : string) (states terminals actions : list string)
    (rewards : gmap string float32)
    (transitions : gmap string (gmap string Transition))
    (discountRate : float32) (h : addr) : outcome (option mdp * error * addr) :=
  if discount_out_of_range discountRate then
    Normal (None, errors_New "discount rate must be in (0, 1.0]", h)
  else
    l ← make_states defaultStatesCapacity;
    r ← NewRewards None;
    let m := mkMdp None l defaultStatesCapacity 0 ∅ r (NewTransitionTable None)
                   f32_zero ∅ ∅ in
    (* Create initial state *)
    let '(m, h) :=
      if negb (String.eqb initialState "") then
        let '(s, h) := NewState initialState 0 false h in
        let m := set_initialState s m in
        let m := set_states (mdp_states m ++ [mdp_initialState m]) m in
        let m := set_stateMap (<[initialState := s]> (mdp_stateMap m)) m in
        (set_stateIndexMap (<[0 := s]> (mdp_stateIndexMap m)) m, h)
      else (set_initialState None m, h) in
    (* Create the map of actions *)
    let '(m, h) :=
      foldl (λ '(m, h) a,
               let '(x, h) := NewAction a h in
               (set_actions (<[a := x]> (mdp_actions m)) m, h))
            (m, h) actions in
    (* Hashify the list of terminal sets *)
    let terminalMap : gmap string bool :=
      foldl (λ tm t, <[t := true]> tm) ∅ terminals in
    (* Construct all other states and transitions from these states *)
    c ← for_range states
          (NewMDP_state_body initialState terminalMap rewards transitions)
          (m, 1, h);
    match c with
    | Return (err, h) => Normal (None, err, h)
    | Continue (m, _, h) => Normal (Some (set_discountRate discountRate m), None, h)
    end.

Definition NewDefaultMDP (h : addr) : outcome (option mdp * error * addr) :=
  NewMDP "" [] [] [] ∅ ∅ f32_one h.

(** ** Aggregates and helpers used in the statements *)

(** The aggregate after the state found at [index], if any, has lost its
    reward and its transitions. *)
Definition without_state_at (m : mdp) (index : Z) : mdp :=
  match getStateByIndex m index with
  | Some sOld =>
      set_transitions (transitionTable_Remove (mdp_transitions m) (Some sOld))
        (set_rewards
           (mkRewardsTable
              (delete (state_index sOld) (rewardsTable_table (mdp_rewards m)))
              (delete (state_index sOld) (rewardsTable_stateMap (mdp_rewards m))))
           m)
  | None => m
  end.

(** The aggregate returned by [NewDefaultMDP]: 128 nil slots, empty maps and
    tables, discount rate 1. *)
Definition default_mdp : mdp :=
  mkMdp None (replicate 128 None) 128 0 ∅ (mkRewardsTable ∅ ∅) (mkTable ∅)
        f32_one ∅ ∅.

(** The default aggregate after [SetState("A", 1, false, 1.0, {})], the
    state object living at address 1. *)
Definition mdp_A : mdp :=
  mkMdp None (<[1%nat := Some (mkState 1 "A" 1 false)]> (replicate 128 None))
        128 0 ∅
        (mkRewardsTable {[1 := f32_one]} {[1 := Some (mkState 1 "A" 1 false)]})
        (mkTable {[Some (mkState 1 "A" 1 false) := Some (mkEntry ∅)]})
        f32_one
        {["A" := Some (mkState 1 "A" 1 false)]}
        {[1 := Some (mkState 1 "A" 1 false)]}.

(** Facts [NewMDP] establishes before its loop over the states and keeps
    through it: the capacity is 128, the first 128 slots are nil, the
    transition table has no entry under the nil state, the initial state,
    if any, is held by both maps under index 0 and its name, and the index
    map is keyed by the indices the states carry. *)
Definition constructed (initialState : string) (m : mdp) : Prop :=
  mdp_statesCapacity m = 128 ∧
  take 128 (mdp_states m) = replicate 128 None ∧
  transitionTable_Get (mdp_transitions m) None = None ∧
  (initialState ≠ "" →
   ∃ s0, mdp_stateIndexMap m !! 0 = Some (Some s0) ∧
         mdp_stateMap m !! initialState = Some (Some s0) ∧
         state_name s0 = initialState ∧ state_index s0 = 0) ∧
  (∀ i st, mdp_stateIndexMap m !! i = Some (Some st) → state_index st = i).

(** A listed state is rejected when it is not the initial state, is not in
    the terminal map and has at least one transition. *)
Definition rejected (initialState : string) (terminalMap : gmap string bool)
    (transitions : gmap string (gmap string Transition)) (state : string)
    : Prop :=
  initialState ≠ state ∧ terminalMap !! state = None ∧
  default ∅ (transitions !! state) ≠ ∅.

Definition no_nil_transition
    (transitions : gmap string (gmap string Transition)) : Prop :=
  ∀ state tm a, transitions !! state = Some tm → tm !! a ≠ Some None.

(** The shape every operation keeps: the capacity never drops below the
    default, the backing array has at least that many slots, and the index
    map is keyed by the indices the states carry. *)
Definition well_formed (m : mdp) : Prop :=
  defaultStatesCapacity ≤ mdp_statesCapacity m ∧
  mdp_statesCapacity m ≤ Z.of_nat (length (mdp_states m)) ∧
  ∀ i st, mdp_stateIndexMap m !! i = Some (Some st) → state_index st = i.

(** ** Further constructors and methods *)

(** [NewActions]: one new action object per name, in the order of the
    names (action.go). *)
Fixpoint NewActions (names : list string) (h : addr) : list Action * addr :=
  match names with
  | [] => ([], h)
  | name :: names' =>
      let '(actions, h') := NewActions names' (S h) in
      (Some (mkAction h name) :: actions, h')
  end.

(** [action.String()] is the name. *)
Definition action_String (a : Action) : outcome string := action_Name a.

(** A byte of a Go string. *)
Definition byte (z : Z) : Ascii.ascii := Ascii.ascii_of_N (Z.to_N z).

(** "�", the replacement character, in UTF-8. *)
Definition RuneError : string :=
  String (byte 239) (String (byte 191) (String (byte 189) EmptyString)).

(** [string(v)] for an [int] [v]: the UTF-8 encoding of the code point [v],
    and the replacement character when [v] is no valid code point (negative,
    a surrogate, or above U+10FFFF). *)
Definition string_of_int (v : Z) : string :=
  if (0 <=? v) && (v <=? 127) then String (byte v) EmptyString
  else if (0 <=? v) && (v <=? 2047) then
    String (byte (Z.lor 192 (Z.shiftr v 6)))
      (String (byte (Z.lor 128 (Z.land v 63))) EmptyString)
  else if (v <? 0) || (1114111 <? v) || ((55296 <=? v) && (v <=? 57343)) then
    RuneError
  else if v <=? 65535 then
    String (byte (Z.lor 224 (Z.shiftr v 12)))
      (String (byte (Z.lor 128 (Z.land (Z.shiftr v 6) 63)))
         (String (byte (Z.lor 128 (Z.land v 63))) EmptyString))
  else
    String (byte (Z.lor 240 (Z.shiftr v 18)))
      (String (byte (Z.lor 128 (Z.land (Z.shiftr v 12) 63)))
         (String (byte (Z.lor 128 (Z.land (Z.shiftr v 6) 63)))
            (String (byte (Z.lor 128 (Z.land v 63))) EmptyString))).

(** [state.String()]: the index goes through [string(s.index)]. *)
Definition state_String (s : State) : outcome string :=
  match s with
  | Some st =>
      Normal ("S_" +:+ string_of_int (state_index st) +:+ ": " +:+ state_name st)
  | None => Panics NilDereference
  end.

(** [RemoveStateByObject]: the object is used for its name only. *)
Definition RemoveStateByObject (m : mdp) (s : State) : outcome (error * mdp) :=
  name ← state_Name s;
  match getStateByName m name with
  | None =>
      str ← state_String s;
      Normal (errors_New ("state " +:+ str +:+ " doesn't exist"), m)
  | Some _ as s' => index ← state_Index s'; RemoveStateByIndex m index
  end.

(** Whether a stored transition leads to a state with the index [i]. *)
Definition leads_to (i : Z) (tr : Transition) : bool :=
  match tr with
  | Some (mkTransition _ (Some d)) => state_index d =? i
  | _ => false
  end.

(** Body of the loop of [RemoveTransition], as written in
    [transitionTableEntry_RemoveTransition]. *)
Definition RemoveTransition_body (nextState : State)
    : Action * Transition → transitionTableEntry →
      outcome (flow transitionTableEntry unit) :=
  λ '(a, tr) e',
    ns ← transition_NextState tr;
    b ← state_Equals ns nextState;
    if b : bool
    then e'' ← transitionTableEntry_Remove (Some e') a; Normal (Continue e'')
    else Normal (Continue e').

(** ** utils *)

(** [float32(n)] for an integer [n]: rounded to the nearest float32. *)
Definition float32_of_int (n : Z) : float32 := binary_normalize 24 128 n 0 false.

(** [Uniform]: the quotient is the integer division of Go, which truncates
    towards zero; [None] stands for the run-time panic of a division by
    zero. *)
Definition Uniform (support : Z) : option float32 :=
  if support =? 0 then None else Some (float32_of_int (Z.quot 1 support)).

(** ** Further aggregates and predicates *)

(** Every action the registry holds carries the name it is registered
    under. *)
Definition registry_named (m : mdp) : Prop :=
  ∀ n a, getAction m n = Some a → action_name a = n.

(** Every state a name resolves to carries that name. *)
Definition states_named (m : mdp) : Prop :=
  ∀ n st, getStateByName m n = Some st → state_name st = n.

(** What every operation keeps besides the shape: names resolve to objects
    that carry them, and the transition table holds no entry under the nil
    state. *)
Definition consistent (m : mdp) : Prop :=
  well_formed m ∧ states_named m ∧ registry_named m ∧
  transitionTable_Get (mdp_transitions m) None = None.

(** 129 pairwise different one-character names. *)
Definition names_129 : list string :=
  (λ i, String (Ascii.ascii_of_nat (65 + i)) EmptyString) <$> seq 0 129.

(** The aggregate [mdp_A] after [SetState("B", 1, false, 0.0, {})], the new
    state object living at address 2: "B" has taken the slot and the index
    of "A", whose name still resolves. *)
Definition mdp_AB : mdp :=
  let A := Some (mkState 1 "A" 1 false) in
  let B := Some (mkState 2 "B" 1 false) in
  mkMdp None (<[1%nat := B]> (replicate 128 None))
        128 0 ∅
        (mkRewardsTable {[1 := f32_zero]} {[1 := B]})
        (mkTable {[B := Some (mkEntry ∅)]})
        f32_one
        {["A" := A; "B" := B]}
        {[1 := B]}.

(** The default aggregate after 128 calls of [AddState], each with one
    transition under the action "U": every slot of the backing array holds
    a state that has an entry in the transition table. *)
Definition full_mdp : mdp :=
  (foldl (λ '(m, h) i,
            match AddState m (String (Ascii.ascii_of_nat (S i)) EmptyString)
                    false f32_one {["U" := NewTransition f32_one None]} h with
            | Normal (_, m', h') => (m', h')
            | Panics _ => (m, h)
            end)
         (default_mdp, 1%nat) (seq 0 128)).1.

(** * Properties *)

(** ** Loops *)

(** A loop whose body panics at one element panics, whatever came before,
    as long as nothing before it returned or repaired the element. *)
Lemma for_range_panics {A S R} (P : S → Prop) (l : list A)
    (body : A → S → outcome (flow S R)) (x : A) (p : panic) :
  x ∈ l →
  (∀ s, P s → body x s = Panics p) →
  (∀ y s c, P s → body y s = Normal c → ∃ s', c = Continue s' ∧ P s') →
  (∀ y s q, P s → body y s = Panics q → q = p) →
  ∀ s, P s → for_range l body s = Panics p.
Proof.
  intros Hin Hx Hstep Hpan. induction l as [|y l IH]; intros s Hs.
  - by apply not_elem_of_nil in Hin.
  - simpl. destruct (body y s) as [c|q] eqn:Hy.
    + destruct (Hstep _ _ _ Hs Hy) as (s' & -> & Hs'). simpl.
      apply elem_of_cons in Hin as [->|Hin].
      * rewrite Hx in Hy; done.
      * by apply IH.
    + simpl. f_equal. by eapply Hpan.
Qed.

(** A property of the loop variables that every round keeps holds when the
    loop is left, whichever way. *)
Lemma for_range_invariant {A S R} (P : S → Prop) (Q : R → Prop) (l : list A)
    (body : A → S → outcome (flow S R)) :
  (∀ x s c, x ∈ l → P s → body x s = Normal c →
     match c with Continue s' => P s' | Return r => Q r end) →
  ∀ s c, P s → for_range l body s = Normal c →
    match c with Continue s' => P s' | Return r => Q r end.
Proof.
  induction l as [|x l IH]; intros Hstep s c Hs; cbn [for_range].
  - by intros [= <-].
  - destruct (body x s) as [c1|] eqn:Hb; [|done].
    pose proof (Hstep x s c1 (list_elem_of_here _ _) Hs Hb) as H1.
    destruct c1 as [s1|r]; cbn [mbind outcome_bind].
    + apply IH; [|done]. intros y s' c' Hy. apply Hstep. by right.
    + by intros [= <-].
Qed.

(** ** Slices *)

(** [make] succeeds exactly for a length from 0 to [maxAlloc / 16]. *)
Lemma make_states_Normal (n : Z) :
  0 ≤ n → sizeof_State * n ≤ maxAlloc →
  make_states n = Normal (replicate (Z.to_nat n) None).
Proof.
  intros H0 H1. unfold make_states.
  apply Z.ltb_ge in H0. apply Z.ltb_ge in H1. by rewrite H0, H1.
Qed.

Lemma make_states_inv (n : Z) (l : list State) :
  make_states n = Normal l →
  l = replicate (Z.to_nat n) None ∧ 0 ≤ n ∧ sizeof_State * n ≤ maxAlloc.
Proof.
  unfold make_states.
  destruct (n <? 0) eqn:H0; [done|]. destruct (maxAlloc <? _) eqn:H1; [done|].
  apply Z.ltb_ge in H0. apply Z.ltb_ge in H1. by intros [= <-].
Qed.

Lemma make_states_panics (n : Z) :
  n < 0 ∨ maxAlloc < sizeof_State * n → make_states n = Panics MakeSliceLen.
Proof.
  intros [H|H]; unfold make_states.
  - apply Z.ltb_lt in H. by rewrite H.
  - apply Z.ltb_lt in H. rewrite H. by destruct (n <? 0).
Qed.

Lemma make_states_default :
  make_states defaultStatesCapacity
  = Normal (replicate (Z.to_nat defaultStatesCapacity) None).
Proof. reflexivity. Qed.

(** A store inside the bounds succeeds, and a store that succeeded was
    inside the bounds. *)
Lemma slice_store_Normal (l : list State) (i : Z) (v : State) :
  0 ≤ i < Z.of_nat (length l) →
  slice_store l i v = Normal (<[Z.to_nat i := v]> l).
Proof.
  intros [H0 H1]. unfold slice_store.
  apply Z.leb_le in H0. apply Z.ltb_lt in H1. by rewrite H0, H1.
Qed.

Lemma slice_store_inv (l l' : list State) (i : Z) (v : State) :
  slice_store l i v = Normal l' →
  0 ≤ i < Z.of_nat (length l) ∧ l' = <[Z.to_nat i := v]> l.
Proof.
  unfold slice_store.
  destruct (0 <=? i) eqn:H0; destruct (i <? Z.of_nat (length l)) eqn:H1;
    simpl; try done.
  intros [= <-]. apply Z.leb_le in H0. apply Z.ltb_lt in H1. done.
Qed.

(** Copying [src] into a slice that is long enough overwrites its first
    [length src] slots and leaves the others. *)
Lemma copy_states_Normal (src dst : list State) (i : nat) :
  (i + length src ≤ length dst)%nat →
  copy_states src (Z.of_nat i) dst =
  Normal (take i dst ++ src ++ drop (i + length src) dst).
Proof.
  revert dst i. induction src as [|s src IH]; intros dst i Hlen; simpl in *.
  - rewrite Nat.add_0_r. by rewrite take_drop.
  - rewrite slice_store_Normal by lia. simpl.
    replace (Z.of_nat i + 1) with (Z.of_nat (S i)) by lia.
    rewrite IH by (rewrite length_insert; lia).
    f_equal. rewrite Nat2Z.id.
    rewrite (take_S_r (<[i:=s]> dst) i s) by (apply list_lookup_insert_eq; lia).
    rewrite take_insert_ge by lia.
    rewrite drop_insert_lt by lia.
    rewrite <- app_assoc. simpl. by rewrite Nat.add_succ_r.
Qed.

(** A copy that did not panic fitted into the destination. *)
Lemma copy_states_inv (src dst l : list State) (i : nat) :
  copy_states src (Z.of_nat i) dst = Normal l →
  (i ≤ length dst)%nat →
  (i + length src ≤ length dst)%nat.
Proof.
  revert dst i. induction src as [|s src IH]; intros dst i; cbn [copy_states].
  - intros _ Hi. simpl. lia.
  - destruct (slice_store dst _ s) as [dst'|] eqn:Hs; [|done].
    cbn [mbind outcome_bind]. intros Hc _.
    apply slice_store_inv in Hs as [Hi ->].
    replace (Z.of_nat i + 1) with (Z.of_nat (S i)) in Hc by lia.
    apply IH in Hc; rewrite length_insert in *; simpl; lia.
Qed.

(** The scan stops at the first nil slot: every slot before it is occupied
    and the slot itself, when inside the slice, is nil. *)
Lemma first_nil_index_bounds (l : list State) :
  0 ≤ first_nil_index l ≤ Z.of_nat (length l).
Proof.
  induction l as [|[s|] l IH]; simpl; lia.
Qed.

Lemma first_nil_index_occupied (l : list State) (i : nat) :
  Z.of_nat i < first_nil_index l → ∃ s, l !! i = Some (Some s).
Proof.
  revert i. induction l as [|[s|] l IH]; intros i Hi; simpl in *; try lia.
  destruct i as [|i]; simpl; [eauto|]. apply IH. lia.
Qed.

Lemma first_nil_index_free (l : list State) :
  first_nil_index l < Z.of_nat (length l) →
  l !! Z.to_nat (first_nil_index l) = Some None.
Proof.
  induction l as [|[s|] l IH]; simpl; intros Hlt; try lia; [|done].
  pose proof (first_nil_index_bounds l).
  replace (Z.to_nat (1 + first_nil_index l))
    with (S (Z.to_nat (first_nil_index l))) by lia.
  simpl. apply IH. lia.
Qed.

(** ** Rewards table *)

(** C10. The rewards table is keyed by the state index alone: two state
    objects with the same index are [Equals], a reward stored through one is
    read back through the other, and removing through the other deletes the
    entry (and the rendering record) written through the first, whatever
    their names, terminal flags and addresses are. *)
Theorem rewardsTable_keyed_by_index (r : rewardsTable) (s1 s2 : state)
    (reward : float32) :
  state_index s1 = state_index s2 →
  state_Equals (Some s1) (Some s2) = Normal true ∧
  ∃ r1 r2,
    rewardsTable_Set r (Some s1) reward = Normal r1 ∧
    rewardsTable_Get r1 (Some s2) = Normal reward ∧
    rewardsTable_Remove r1 (Some s2) = Normal r2 ∧
    rewardsTable_table r2 !! state_index s1 = None ∧
    rewardsTable_stateMap r2 !! state_index s1 = None ∧
    rewardsTable_Get r2 (Some s1) = Normal f32_zero.
Proof.
  intros Hidx. split.
  - simpl. rewrite Hidx. unfold mret, outcome_ret. by rewrite Z.eqb_refl.
  - do 2 eexists. split; [reflexivity|].
    unfold rewardsTable_Get, rewardsTable_Remove; simpl.
    rewrite <- Hidx, lookup_insert_eq.
    split; [done|]. split; [reflexivity|]. simpl.
    by rewrite !lookup_delete_eq.
Qed.

Lemma rewardsTable_keyed_by_index_witness :
  state_index (mkState 1 "A" 4 false) = state_index (mkState 2 "B" 4 true) ∧
  ∃ r1 r2,
    rewardsTable_Set (mkRewardsTable ∅ ∅) (Some (mkState 1 "A" 4 false)) f32_one
      = Normal r1 ∧
    rewardsTable_Get r1 (Some (mkState 2 "B" 4 true)) = Normal f32_one ∧
    rewardsTable_Remove r1 (Some (mkState 2 "B" 4 true)) = Normal r2 ∧
    rewardsTable_Get r2 (Some (mkState 1 "A" 4 false)) = Normal f32_zero.
Proof.
  split; [reflexivity|].
  destruct (rewardsTable_keyed_by_index (mkRewardsTable ∅ ∅)
              (mkState 1 "A" 4 false) (mkState 2 "B" 4 true) f32_one eq_refl)
    as (_ & r1 & r2 & H1 & H2 & H3 & _ & _ & H4).
  exists r1, r2. repeat split; assumption.
Defined.

(** ** Transition table *)

(** [Get] and the direct index [t.table[state]] read the same value. *)
Lemma transitionTable_Get_lookup (t : transitionTable) (s : State) :
  transitionTable_Get t s = default None (transitionTable_table t !! s).
Proof. unfold transitionTable_Get. by destruct (_ !! _). Qed.

(** [NewDefaultMDP] returns [default_mdp] and allocates nothing. *)
Lemma NewDefaultMDP_eq (h : addr) :
  NewDefaultMDP h = Normal (Some default_mdp, None, h).
Proof. reflexivity. Qed.

(** ** Transition tables with shared entries and nil maps *)

(** [Update] on a state without an entry panics. *)
Lemma Ptr_Update_no_entry (σ : Ptr.store) (t : Ptr.transitionTable)
    (s : State) (a : Action) (p : float32) (s2 : State) :
  Ptr.transitionTable_Get t s = None →
  Ptr.transitionTable_Update σ t s a p s2 = Panics NilDereference.
Proof. unfold Ptr.transitionTable_Update. by intros ->. Qed.

(** [Update] on a state whose entry holds a nil map panics. *)
Lemma Ptr_Update_nil_map (σ : Ptr.store) (t : Ptr.transitionTable)
    (s : State) (a : Action) (p : float32) (s2 : State) (ptr : addr) :
  Ptr.transitionTable_Get t s = Some ptr →
  Ptr.entry σ ptr = None →
  Ptr.transitionTable_Update σ t s a p s2 = Panics AssignToNilMap.
Proof.
  unfold Ptr.transitionTable_Update. intros -> Hnil.
  unfold Ptr.transitionTableEntry_Set. by rewrite Hnil.
Qed.

(** [Update] on a state whose entry holds a made map writes the transition
    into that map.  It is read back through the state, and through every
    state whose entry holds the same map; the other actions of the map and
    the entries over other maps read as before. *)
Lemma Ptr_Update_made_map (σ : Ptr.store) (t : Ptr.transitionTable)
    (s : State) (a : Action) (p : float32) (s2 : State) (ptr r : addr) :
  Ptr.transitionTable_Get t s = Some ptr →
  Ptr.entry σ ptr = Some r →
  ∃ σ',
    Ptr.transitionTable_Update σ t s a p s2 = Normal σ' ∧
    Ptr.store_entries σ' = Ptr.store_entries σ ∧
    (∀ e, Ptr.entry σ e = Some r →
       Ptr.transitionTableEntry_Get σ' (Some e) a = Normal (NewTransition p s2) ∧
       ∀ a', a' ≠ a →
         Ptr.transitionTableEntry_Get σ' (Some e) a'
         = Ptr.transitionTableEntry_Get σ (Some e) a') ∧
    (∀ e, Ptr.entry σ e ≠ Some r →
       ∀ a', Ptr.transitionTableEntry_Get σ' (Some e) a'
             = Ptr.transitionTableEntry_Get σ (Some e) a').
Proof.
  unfold Ptr.transitionTable_Update. intros -> Hr.
  unfold Ptr.transitionTableEntry_Set, Ptr.map_assign. rewrite Hr.
  eexists. split; [reflexivity|]. split; [done|].
  unfold Ptr.transitionTableEntry_Get, Ptr.entry, Ptr.contents in *. simpl.
  split.
  - intros e He. rewrite He. rewrite lookup_insert_eq. simpl.
    rewrite lookup_insert_eq. split; [done|].
    intros a' Ha. by rewrite lookup_insert_ne.
  - intros e He a'. destruct (default None (Ptr.store_entries σ !! e)) as [r'|];
      [|done].
    rewrite lookup_insert_ne; [done|]. intros ->. done.
Qed.

(** The two embeddings of the file agree on tables that own their entries.
    Reading an entry through the table gives the same transition. *)
Lemma owned_Get (σ : Ptr.store) (t : Ptr.transitionTable) (s : State)
    (a : Action) :
  transitionTableEntry_Get (transitionTable_Get (owned_view σ t) s) a =
  Ptr.transitionTableEntry_Get σ (Ptr.transitionTable_Get t s) a.
Proof.
  rewrite transitionTable_Get_lookup. unfold Ptr.transitionTable_Get.
  simpl. rewrite lookup_fmap.
  by destruct (Ptr.transitionTable_table t !! s) as [[ptr|]|].
Qed.

(** What a write to the map of one state leaves of the view of an owned
    table. *)
Lemma owned_view_write (σ σ' : Ptr.store) (t : Ptr.transitionTable)
    (s : State) (ptr r : addr) :
  owned σ t →
  Ptr.transitionTable_table t !! s = Some (Some ptr) →
  Ptr.entry σ ptr = Some r →
  Ptr.store_entries σ' = Ptr.store_entries σ →
  (∀ r', r' ≠ r → Ptr.store_maps σ' !! r' = Ptr.store_maps σ !! r') →
  owned σ' t ∧
  owned_view σ' t =
  transitionTable_Set (owned_view σ t) s
    (Some (mkEntry (Ptr.contents σ' (Some r)))).
Proof.
  intros Hown Hs Hr Hent Hmaps.
  assert (Hentry : ∀ e, Ptr.entry σ' e = Ptr.entry σ e).
  { intros e. unfold Ptr.entry. by rewrite Hent. }
  split.
  - intros s1 p1 H1. destruct (Hown s1 p1 H1) as (r1 & Hr1 & Hinj).
    exists r1. rewrite Hentry. split; [done|].
    intros s' p' H' Hp'. rewrite Hentry in Hp'. by eapply Hinj.
  - unfold owned_view, transitionTable_Set. f_equal. apply map_eq. intros s'.
    simpl. rewrite lookup_fmap. destruct (decide (s = s')) as [<-|Hne].
    + rewrite lookup_insert_eq, Hs. simpl. by rewrite Hentry, Hr.
    + rewrite lookup_insert_ne, lookup_fmap by done.
      destruct (Ptr.transitionTable_table t !! s') as [[p'|]|] eqn:Hs';
        simpl; [|done|done].
      rewrite Hentry. destruct (Hown s' p' Hs') as (r' & Hr' & _).
      rewrite Hr'. unfold Ptr.contents. rewrite Hmaps; [done|].
      intros ->. destruct (Hown s ptr Hs) as (r0 & Hr0 & Hinj).
      assert (r0 = r) as -> by congruence.
      apply Hne. symmetry. by eapply Hinj.
Qed.

(** [Update] keeps the table owned and is [Update] on the view, panics
    included. *)
Lemma owned_Update (σ : Ptr.store) (t : Ptr.transitionTable) (s : State)
    (a : Action) (p : float32) (s2 : State) :
  owned σ t →
  match Ptr.transitionTable_Update σ t s a p s2 with
  | Normal σ' =>
      owned σ' t ∧
      transitionTable_Update (owned_view σ t) s a p s2
      = Normal (owned_view σ' t)
  | Panics q => transitionTable_Update (owned_view σ t) s a p s2 = Panics q
  end.
Proof.
  intros Hown. unfold Ptr.transitionTable_Update, Ptr.transitionTable_Get.
  unfold transitionTable_Update. simpl. rewrite lookup_fmap.
  destruct (Ptr.transitionTable_table t !! s) as [[ptr|]|] eqn:Hs;
    simpl; [|done|done].
  destruct (Hown s ptr Hs) as (r & Hr & Hinj). rewrite Hr. simpl.
  edestruct (owned_view_write σ) as [Hown' Hview]; [done..| | |].
  3:{ split; [exact Hown'|]. rewrite Hview. unfold transitionTable_Set.
      simpl. by rewrite lookup_insert_eq. }
  - done.
  - intros r' Hr'. simpl. by rewrite lookup_insert_ne.
Qed.

(** So is [Remove] on the entry of a state, as the aggregate calls it. *)
Lemma owned_Remove (σ : Ptr.store) (t : Ptr.transitionTable) (s : State)
    (a : Action) :
  owned σ t →
  match Ptr.transitionTableEntry_Remove σ (Ptr.transitionTable_Get t s) a with
  | Normal σ' =>
      owned σ' t ∧
      (e ← transitionTableEntry_Remove (transitionTable_Get (owned_view σ t) s) a;
       Normal (transitionTable_Set (owned_view σ t) s (Some e)))
      = Normal (owned_view σ' t)
  | Panics q =>
      transitionTableEntry_Remove (transitionTable_Get (owned_view σ t) s) a
      = Panics q
  end.
Proof.
  intros Hown. rewrite transitionTable_Get_lookup.
  unfold Ptr.transitionTable_Get. simpl. rewrite lookup_fmap.
  destruct (Ptr.transitionTable_table t !! s) as [[ptr|]|] eqn:Hs;
    simpl; [|done|done].
  destruct (Hown s ptr Hs) as (r & Hr & Hinj). rewrite Hr. simpl.
  edestruct (owned_view_write σ) as [Hown' Hview]; [done..| | |].
  3:{ split; [exact Hown'|]. rewrite Hview. unfold transitionTable_Set.
      simpl. by rewrite lookup_insert_eq. }
  - done.
  - intros r' Hr'. simpl. by rewrite lookup_insert_ne.
Qed.

(** One entry stored under two states is one map: what [Update] writes
    through the first state is read through the second. *)
Lemma Ptr_Update_shared_entry :
  let A := Some (mkState 1 "A" 0 false) in
  let B := Some (mkState 2 "B" 1 false) in
  let U := Some (mkAction 3 "U") in
  ∃ e σ1 h1 σ2,
    Ptr.NewTransitionTableEntry None (Ptr.mkStore ∅ ∅) 4 = (e, σ1, h1) ∧
    Ptr.transitionTable_Update σ1
      (Ptr.transitionTable_Set
         (Ptr.transitionTable_Set (Ptr.mkTable ∅) A e) B e) A U f32_one B
    = Normal σ2 ∧
    Ptr.transitionTableEntry_Get σ2
      (Ptr.transitionTable_Get
         (Ptr.transitionTable_Set
            (Ptr.transitionTable_Set (Ptr.mkTable ∅) A e) B e) B) U
    = Normal (NewTransition f32_one B).
Proof.
  intros A B U. do 4 eexists. split; [reflexivity|].
  split; vm_compute; reflexivity.
Qed.

(** C6. An entry is not enough for [Update] to store a transition.
    [NewTransitionTableEntry] makes a map when it is given a nil pointer,
    and [Update] on an entry made that way stores the transition.  Given a
    pointer to a map, it keeps the map without looking at it, and so does
    [NewTransitionTable] for every state of the table it is given: for a
    state listed with a nil map the table has an entry, [Get] on it
    returns nil, and [Update] panics on the assignment to the nil map
    instead of inserting.  Without an entry [Update] panics, and
    [SetTransition] panics in the same way when the start state has no
    entry. *)
Theorem transitionTable_Update_entry_over_nil_map :
  let s := Some (mkState 1 "A" 0 false) in
  let a := Some (mkAction 2 "U") in
  let s2 := Some (mkState 3 "B" 1 false) in
  let σ0 := Ptr.mkStore ∅ ∅ in
  (∃ e σ1 h1 σ2,
     Ptr.NewTransitionTableEntry None σ0 4 = (e, σ1, h1) ∧
     Ptr.transitionTable_Update σ1
       (Ptr.transitionTable_Set (Ptr.mkTable ∅) s e) s a f32_one s2
     = Normal σ2 ∧
     Ptr.transitionTableEntry_Get σ2 e a = Normal (NewTransition f32_one s2)) ∧
  (∃ t σ1 h1 ptr,
     Ptr.NewTransitionTable (Some {[s := None]}) σ0 4 = (t, σ1, h1) ∧
     Ptr.transitionTable_Get t s = Some ptr ∧
     Ptr.transitionTableEntry_Get σ1 (Some ptr) a = Normal None ∧
     Ptr.transitionTable_Update σ1 t s a f32_one s2 = Panics AssignToNilMap) ∧
  (∀ σ t s a p s2,
     Ptr.transitionTable_Get t s = None →
     Ptr.transitionTable_Update σ t s a p s2 = Panics NilDereference) ∧
  (∀ (m : mdp) (startState endState a : string) (p : float32),
     transitionTable_Get (mdp_transitions m) (getStateByName m startState) = None →
     SetTransition m startState endState a p = Panics NilDereference).
Proof.
  intros s a s2 σ0. split; [|split; [|split]].
  - do 4 eexists. split; [reflexivity|]. split; vm_compute; reflexivity.
  - do 4 eexists. split; [vm_compute; reflexivity|].
    split; [vm_compute; reflexivity|]. split; vm_compute; reflexivity.
  - intros. by apply Ptr_Update_no_entry.
  - intros m startState endState b p He.
    rewrite transitionTable_Get_lookup in He.
    unfold SetTransition, transitionTable_Update. by rewrite He.
Qed.

(** ** Queries on unknown states *)

(** A name or an index that resolves to nil makes the query panic inside
    [rewardsTable.Get]. *)
Lemma R_unresolved_panics (m : mdp) (name : string) :
  getStateByName m name = None → R m name = Panics NilDereference.
Proof. unfold R. by intros ->. Qed.

Lemma RByIndex_unresolved_panics (m : mdp) (i : Z) :
  getStateByIndex m i = None → RByIndex m i = Panics NilDereference.
Proof. unfold RByIndex. by intros ->. Qed.

(** A state that was registered and then removed still resolves, and reads
    as the zero reward. *)
Lemma RByIndex_after_remove (m m' : mdp) (i : Z) (st : state) :
  getStateByIndex m i = Some st →
  RemoveStateByIndex m i = Normal (None, m') →
  RByIndex m' i = Normal f32_zero.
Proof.
  unfold RemoveStateByIndex, RByIndex. intros Hst. rewrite Hst.
  destruct (slice_store _ _ _) as [l|]; simpl; [|done].
  intros [= <-]. unfold getStateByIndex in *. simpl. simpl in Hst.
  destruct (mdp_stateIndexMap m !! i) as [s|]; [|done]. subst s.
  unfold rewardsTable_Get. simpl. by rewrite lookup_delete_eq.
Qed.

(** C5. On the aggregate built by [NewDefaultMDP], [R] of a name and
    [RByIndex] of an index that resolve to no state panic with a nil
    dereference inside [rewardsTable.Get]; no zero reward is returned. *)
Theorem R_unknown_state_panics :
  ∃ m h,
    NewDefaultMDP 1 = Normal (Some m, None, h) ∧
    getStateByName m "ghost" = None ∧
    R m "ghost" = Panics NilDereference ∧
    getStateByIndex m 7 = None ∧
    RByIndex m 7 = Panics NilDereference.
Proof.
  exists default_mdp, 1%nat. repeat split.
Qed.

(** ** Registering a state *)

(** Writing back the registry that is already there changes nothing. *)
Lemma set_actions_id (m : mdp) : set_actions (mdp_actions m) m = m.
Proof. by destruct m. Qed.

(** One round of the loop of [SetState]: the action is looked up, created
    and registered when unknown, and the transition stored in the entry. *)
Lemma SetState_body_inv (n : string) (tr : Transition) (m : mdp)
    (e : transitionTableEntry) (h : addr)
    (c : flow (mdp * transitionTableEntry * addr) (error * mdp * addr)) :
  SetState_body (n, tr) (m, e, h) = Normal c →
  ∃ acts e' h', c = Continue (set_actions acts m, e', h').
Proof.
  unfold SetState_body.
  destruct (getAction m n) as [a|] eqn:Ha; simpl.
  - destruct tr as [tr|]; simpl; [|done]. intros [= <-].
    exists (mdp_actions m). rewrite set_actions_id. eauto.
  - unfold AddActionObject. simpl. rewrite Ha. simpl.
    destruct tr as [tr|]; simpl; [|done]. intros [= <-]. eauto.
Qed.

Lemma SetState_body_total (n : string) (tr : Transition) (m : mdp)
    (e : transitionTableEntry) (h : addr) :
  tr ≠ None → ∃ c, SetState_body (n, tr) (m, e, h) = Normal c.
Proof.
  intros Htr. destruct tr as [tr|]; [|done]. unfold SetState_body.
  destruct (getAction m n) as [a|] eqn:Ha; simpl.
  - eauto.
  - unfold AddActionObject. simpl. rewrite Ha. simpl. eauto.
Qed.

(** The loop of [SetState] never leaves the function early and writes no
    field of the aggregate but the action registry. *)
Lemma SetState_loop_frame (l : list (string * Transition)) :
  ∀ m e h c,
    for_range l SetState_body (m, e, h) = Normal c →
    ∃ acts e' h', c = Continue (set_actions acts m, e', h').
Proof.
  induction l as [|[n tr] l IH]; intros m e h c; cbn [for_range].
  - intros [= <-]. exists (mdp_actions m). rewrite set_actions_id. eauto.
  - destruct (SetState_body (n, tr) (m, e, h)) as [c1|] eqn:Hb; [|done].
    apply SetState_body_inv in Hb as (acts1 & e1 & h1 & ->).
    intros Hl. apply IH in Hl as (acts & e' & h' & ->). eauto.
Qed.

(** It runs to its end when no transition handed in is nil. *)
Lemma SetState_loop_total (l : list (string * Transition)) :
  Forall (λ x, x.2 ≠ None) l →
  ∀ m e h, ∃ acts e' h',
    for_range l SetState_body (m, e, h)
    = Normal (Continue (set_actions acts m, e', h')).
Proof.
  induction 1 as [|[n tr] l Htr _ IH]; intros m e h; cbn [for_range].
  - exists (mdp_actions m). rewrite set_actions_id. eauto.
  - destruct (SetState_body_total n tr m e h Htr) as [c Hc].
    rewrite Hc.
    apply SetState_body_inv in Hc as (acts1 & e1 & h1 & ->).
    cbn [mbind outcome_bind].
    destruct (IH (set_actions acts1 m) e1 h1) as (acts & e' & h' & ->). eauto.
Qed.

Lemma map_Forall_to_list_snd (ts : gmap string Transition) :
  map_Forall (λ _ tr, tr ≠ None) ts →
  Forall (λ x, x.2 ≠ None) (map_to_list ts).
Proof.
  intros Hts. apply Forall_forall. intros [n tr] Hin.
  apply elem_of_map_to_list in Hin. by eapply Hts.
Qed.

(** Storing below the capacity writes the slot in place. *)
Lemma appendStateToList_in_place (m : mdp) (st : state) :
  0 ≤ state_index st < mdp_statesCapacity m →
  state_index st < Z.of_nat (length (mdp_states m)) →
  appendStateToList m (Some st) =
  Normal (None, set_states (<[Z.to_nat (state_index st) := Some st]> (mdp_states m)) m).
Proof.
  intros [H0 Hc] Hl. unfold appendStateToList. simpl.
  destruct (state_index st <? 0) eqn:Hn; [apply Z.ltb_lt in Hn; lia|].
  destruct (state_index st >=? mdp_statesCapacity m) eqn:Hg;
    [apply Z.geb_le in Hg; lia|].
  simpl. rewrite slice_store_Normal by lia. done.
Qed.

(** An [int] in range is not changed by the wrap-around. *)
Lemma wrap_int_small (z : Z) : - 2 ^ 63 ≤ z < 2 ^ 63 → wrap_int z = z.
Proof.
  intros Hz. unfold wrap_int. rewrite Z.mod_small; lia.
Qed.

(** Storing at or beyond the capacity allocates [index * 2] slots, copies
    the old slots over and writes the slot. *)
Lemma appendStateToList_grow (m : mdp) (st : state) :
  0 < state_index st ∧ sizeof_State * (state_index st * 2) ≤ maxAlloc →
  mdp_statesCapacity m ≤ state_index st →
  Z.of_nat (length (mdp_states m)) ≤ state_index st * 2 →
  appendStateToList m (Some st) =
  Normal (None,
          set_states
            (<[Z.to_nat (state_index st) := Some st]>
               (mdp_states m ++
                replicate (Z.to_nat (state_index st * 2) - length (mdp_states m))
                          None))
            (set_statesCapacity (state_index st * 2) m)).
Proof.
  intros [H0 Hmax] Hc Hl. unfold appendStateToList. simpl.
  destruct (state_index st <? 0) eqn:Hn; [apply Z.ltb_lt in Hn; lia|].
  destruct (state_index st >=? mdp_statesCapacity m) eqn:Hg;
    [|rewrite Z.geb_leb in Hg; apply Z.leb_gt in Hg; lia].
  unfold maxAlloc, sizeof_State in Hmax.
  simpl. rewrite wrap_int_small by lia.
  rewrite make_states_Normal by (unfold maxAlloc, sizeof_State; lia).
  simpl.
  rewrite (copy_states_Normal (mdp_states m) _ 0)
    by (rewrite length_replicate; lia).
  simpl. rewrite drop_replicate.
  rewrite slice_store_Normal
    by (rewrite length_app, length_replicate; lia).
  done.
Qed.

(** Dropping the reward and the transitions of the state found at an index
    touches neither the backing array, nor the capacity, nor the maps. *)
Lemma without_state_at_states (m : mdp) (index : Z) :
  mdp_states (without_state_at m index) = mdp_states m.
Proof. unfold without_state_at. by destruct (getStateByIndex m index). Qed.

Lemma without_state_at_statesCapacity (m : mdp) (index : Z) :
  mdp_statesCapacity (without_state_at m index) = mdp_statesCapacity m.
Proof. unfold without_state_at. by destruct (getStateByIndex m index). Qed.

(** [register_state] on a non-nil state, with the removal of the old state
    folded into [without_state_at]. *)
Lemma register_state_unfold (m : mdp) (st : state) (name : string)
    (index : Z) (reward : float32) :
  register_state m (Some st) name index reward =
  '(err, m1) ← appendStateToList (without_state_at m index) (Some st);
  match err with
  | Some _ => Normal (err, m1)
  | None =>
      Normal (None,
              set_rewards
                (mkRewardsTable
                   (<[state_index st := reward]>
                      (rewardsTable_table (mdp_rewards m1)))
                   (<[state_index st := Some st]>
                      (rewardsTable_stateMap (mdp_rewards m1))))
                (set_stateIndexMap (<[index := Some st]> (mdp_stateIndexMap m1))
                   (set_stateMap (<[name := Some st]> (mdp_stateMap m1)) m1)))
  end.
Proof.
  unfold register_state, without_state_at.
  destruct (getStateByIndex m index) as [sOld|]; simpl;
    destruct (appendStateToList _ _) as [[[e|] m1]|]; done.
Qed.

(** What [appendStateToList] leaves behind when it reports no error: the
    state sits in its slot, and only the backing array and its capacity were
    written. *)
Lemma appendStateToList_inv (m m1 : mdp) (st : state) :
  appendStateToList m (Some st) = Normal (None, m1) →
  mdp_states m1 !! Z.to_nat (state_index st) = Some (Some st) ∧
  m1 = set_states (mdp_states m1) (set_statesCapacity (mdp_statesCapacity m1) m).
Proof.
  unfold appendStateToList. simpl.
  destruct (state_index st <? 0); [done|].
  destruct (state_index st >=? mdp_statesCapacity m).
  - destruct (make_states _) as [l0|]; simpl; [|done].
    destruct (copy_states _ _ _) as [l1|]; simpl; [|done].
    destruct (slice_store _ _ _) as [l2|] eqn:Hl; simpl; [|done].
    intros [= <-]. simpl. apply slice_store_inv in Hl as [Hi ->]. split; [|done].
    apply list_lookup_insert_eq. lia.
  - simpl. destruct (slice_store _ _ _) as [l2|] eqn:Hl; simpl; [|done].
    intros [= <-]. simpl. apply slice_store_inv in Hl as [Hi ->].
    split; [|by destruct m].
    apply list_lookup_insert_eq. lia.
Qed.

(** The slots [appendStateToList] does not target keep their contents. *)
Lemma appendStateToList_other_slots (m m1 : mdp) (st : state) (j : nat) :
  appendStateToList m (Some st) = Normal (None, m1) →
  (j < length (mdp_states m))%nat →
  j ≠ Z.to_nat (state_index st) →
  mdp_states m1 !! j = mdp_states m !! j.
Proof.
  unfold appendStateToList. cbn [state_Index mbind outcome_bind].
  destruct (state_index st <? 0); [done|].
  destruct (state_index st >=? mdp_statesCapacity m).
  - destruct (make_states _) as [l0|] eqn:Hmk; [|done].
    apply make_states_inv in Hmk as (-> & _). cbn [mbind outcome_bind].
    destruct (copy_states _ _ _) as [l1|] eqn:Hc; [|done].
    cbn [mbind outcome_bind].
    destruct (slice_store _ _ _) as [l2|] eqn:Hl; [|done].
    cbn [mbind outcome_bind]. intros [= <-] Hj Hne. simpl in *.
    apply slice_store_inv in Hl as [_ ->].
    rewrite list_lookup_insert_ne by done.
    pose proof (copy_states_inv _ _ _ 0 Hc ltac:(lia)) as Hlen.
    rewrite (copy_states_Normal _ _ 0) in Hc by done.
    injection Hc as <-. simpl. by rewrite lookup_app_l.
  - cbn [mbind outcome_bind].
    destruct (slice_store _ _ _) as [l2|] eqn:Hl; [|done].
    cbn [mbind outcome_bind]. intros [= <-] Hj Hne. simpl.
    apply slice_store_inv in Hl as [_ ->].
    by rewrite list_lookup_insert_ne.
Qed.

(** Every successful [SetState] leaves the new state object, made of the
    arguments, in the slot of its index and in both maps. *)
Lemma SetState_installs (m m' : mdp) (name : string) (index : Z)
    (terminal : bool) (reward : float32) (ts : gmap string Transition)
    (h h' : addr) :
  SetState m name index terminal reward ts h = Normal (None, m', h') →
  0 ≤ index ∧
  getStateByIndex m' index = Some (mkState h name index terminal) ∧
  getStateByName m' name = Some (mkState h name index terminal) ∧
  mdp_states m' !! Z.to_nat index = Some (Some (mkState h name index terminal)) ∧
  (index = 0 → mdp_initialState m' = Some (mkState h name index terminal)) ∧
  (∀ j : nat, (j < length (mdp_states m))%nat → j ≠ Z.to_nat index →
     mdp_states m' !! j = mdp_states m !! j).
Proof.
  unfold SetState.
  destruct (index <? 0) eqn:Hneg; [done|]. apply Z.ltb_ge in Hneg.
  destruct (String.eqb name ""); [done|]. cbn [NewState].
  rewrite (register_state_unfold m (mkState h name index terminal)).
  destruct (appendStateToList _ _) as [[[err|] m1]|] eqn:Happ;
    cbn [mbind outcome_bind]; try done.
  pose proof (λ j, appendStateToList_other_slots _ _ _ j Happ) as Hother.
  apply appendStateToList_inv in Happ as [Hslot _]. cbn [state_index] in *.
  destruct (for_range _ _ _) as [c|] eqn:Hloop; [|done].
  apply SetState_loop_frame in Hloop as (acts & e' & h1 & ->).
  cbn [mbind outcome_bind]. intros [= <- <-]. split; [done|].
  unfold install_entry, getStateByIndex, getStateByName.
  rewrite without_state_at_states in Hother.
  destruct (index =? 0) eqn:H0; simpl; rewrite !lookup_insert_eq;
    repeat split; try done.
  intros ->. done.
Qed.

(** The loop of [SetStateObject] behaves like the one of [SetState]: it
    never leaves early and writes only the action registry. *)
Lemma SetStateObject_body_inv (a : Action) (tr : Transition) (m : mdp)
    (e : transitionTableEntry)
    (c : flow (mdp * transitionTableEntry) (error * mdp)) :
  SetStateObject_body (a, tr) (m, e) = Normal c →
  ∃ acts e', c = Continue (set_actions acts m, e').
Proof.
  unfold SetStateObject_body. destruct a as [ac|]; [|done].
  cbn [action_Name mbind outcome_bind].
  destruct (getAction m (action_name ac)) as [x|] eqn:Ha.
  - cbn [mbind outcome_bind]. destruct tr as [tr|]; [|done].
    cbn. intros [= <-]. exists (mdp_actions m). rewrite set_actions_id. eauto.
  - unfold AddActionObject. cbn [action_Name mbind outcome_bind]. rewrite Ha.
    cbn [mbind outcome_bind]. destruct tr as [tr|]; [|done].
    cbn. intros [= <-]. eauto.
Qed.

Lemma SetStateObject_loop_frame (l : list (Action * Transition)) :
  ∀ m e c,
    for_range l SetStateObject_body (m, e) = Normal c →
    ∃ acts e', c = Continue (set_actions acts m, e').
Proof.
  induction l as [|[a tr] l IH]; intros m e c; cbn [for_range].
  - intros [= <-]. exists (mdp_actions m). rewrite set_actions_id. eauto.
  - destruct (SetStateObject_body (a, tr) (m, e)) as [c1|] eqn:Hb; [|done].
    apply SetStateObject_body_inv in Hb as (acts1 & e1 & ->).
    intros Hl. apply IH in Hl as (acts & e' & ->). eauto.
Qed.

(** Every successful [SetStateObject] leaves the state object in the slot
    of the index it carries and in both maps. *)
Lemma SetStateObject_installs (m m' : mdp) (st : state) (reward : float32)
    (ts : gmap Action Transition) :
  SetStateObject m (Some st) reward ts = Normal (None, m') →
  getStateByIndex m' (state_index st) = Some st ∧
  getStateByName m' (state_name st) = Some st ∧
  mdp_states m' !! Z.to_nat (state_index st) = Some (Some st) ∧
  (∀ j : nat, (j < length (mdp_states m))%nat →
     j ≠ Z.to_nat (state_index st) →
     mdp_states m' !! j = mdp_states m !! j).
Proof.
  unfold SetStateObject. cbn [state_Index state_Name mbind outcome_bind].
  destruct (state_index st <? 0); [done|].
  destruct (String.eqb (state_name st) ""); [done|].
  rewrite register_state_unfold.
  destruct (appendStateToList _ _) as [[[err|] m1]|] eqn:Happ;
    cbn [mbind outcome_bind]; try done.
  pose proof (λ j, appendStateToList_other_slots _ _ _ j Happ) as Hother.
  apply appendStateToList_inv in Happ as [Hslot _].
  destruct (for_range _ _ _) as [c|] eqn:Hloop; [|done].
  apply SetStateObject_loop_frame in Hloop as (acts & e' & ->).
  cbn [mbind outcome_bind]. intros [= <-].
  unfold install_entry, getStateByIndex, getStateByName.
  rewrite without_state_at_states in Hother.
  destruct (state_index st =? 0); simpl; rewrite !lookup_insert_eq; done.
Qed.

(** ** The initial state *)

(** C9. [SetInitialState] runs to its end without an error whenever the
    name is non-empty, no transition handed in is nil and slot 0 exists;
    and every time it returns without an error, the state it installed at
    index 0 -- in the index map, the name map, slot 0 of the backing array
    and the initial-state field -- carries the given name, index 0 and a
    terminal flag that is false. *)
Theorem SetInitialState_installs_non_terminal (m : mdp) (name : string)
    (reward : float32) (ts : gmap string Transition) (h : addr) :
  (name ≠ "" →
   map_Forall (λ _ tr, tr ≠ None) ts →
   0 < mdp_statesCapacity m →
   (0 < length (mdp_states m))%nat →
   ∃ m' h', SetInitialState m name reward ts h = Normal (None, m', h')) ∧
  (∀ m' h',
     SetInitialState m name reward ts h = Normal (None, m', h') →
     ∃ s, getStateByIndex m' 0 = Some s ∧
          getStateByName m' name = Some s ∧
          mdp_states m' !! 0%nat = Some (Some s) ∧
          mdp_initialState m' = Some s ∧
          state_name s = name ∧
          state_index s = 0 ∧
          state_terminal s = false).
Proof.
  unfold SetInitialState, SetState. simpl.
  destruct (String.eqb name "") eqn:Hname.
  { split; [|done]. intros Hne. apply String.eqb_eq in Hname. done. }
  rewrite (register_state_unfold m (mkState h name 0 false)). split.
  - intros _ Hts Hcap Hlen.
    rewrite appendStateToList_in_place; simpl.
    2:{ rewrite without_state_at_statesCapacity. lia. }
    2:{ rewrite without_state_at_states. lia. }
    edestruct (SetState_loop_total (map_to_list ts)) as (acts & e' & h' & ->);
      [by apply map_Forall_to_list_snd|].
    simpl. eauto.
  - intros m' h'.
    destruct (appendStateToList _ _) as [[[err|] m1]|] eqn:Happ; simpl; try done.
    apply appendStateToList_inv in Happ as [Hslot _]. simpl in Hslot.
    destruct (for_range _ _ _) as [c|] eqn:Hloop; simpl; [|done].
    apply SetState_loop_frame in Hloop as (acts & e' & h1 & ->).
    intros [= <- <-]. eexists. unfold getStateByIndex, getStateByName. simpl.
    rewrite !lookup_insert_eq. done.
Qed.

Lemma SetInitialState_installs_non_terminal_witness :
  ∃ m' h' s,
    SetInitialState default_mdp "start" f32_one
      {["go" := NewTransition f32_one (Some (mkState 0 "next" 1 true))]} 1
    = Normal (None, m', h') ∧
    getStateByIndex m' 0 = Some s ∧
    mdp_initialState m' = Some s ∧
    state_terminal s = false.
Proof.
  destruct (SetInitialState_installs_non_terminal default_mdp "start" f32_one
              {["go" := NewTransition f32_one (Some (mkState 0 "next" 1 true))]} 1%nat)
    as [Hrun Hinst].
  destruct Hrun as (m' & h' & Hrun).
  - discriminate.
  - apply map_Forall_singleton. discriminate.
  - reflexivity.
  - simpl. lia.
  - destruct (Hinst m' h' Hrun) as (s & Hi & _ & _ & Hinit & _ & _ & Hterm).
    exists m', h', s. repeat split; assumption.
Defined.

(** ** Adding states *)

(** [AddState] registers at the index found by the scan: on success the
    slot at [first_nil_index] holds the new state, which is non-nil and
    carries that index and the given name. *)
Lemma AddState_is_SetState_at_first_nil (m : mdp) (name : string)
    (terminal : bool) (reward : float32) (ts : gmap string Transition)
    (h : addr) :
  AddState m name terminal reward ts h =
  SetState m name (first_nil_index (mdp_states m)) terminal reward ts h.
Proof. reflexivity. Qed.

(** [AddState] puts the new state into the slot the scan found; every slot
    before it was occupied. *)
Lemma AddState_registers_at_first_nil (m m' : mdp) (name : string)
    (terminal : bool) (reward : float32) (ts : gmap string Transition)
    (h h' : addr) :
  AddState m name terminal reward ts h = Normal (None, m', h') →
  mdp_states m' !! Z.to_nat (first_nil_index (mdp_states m))
  = Some (Some (mkState h name (first_nil_index (mdp_states m)) terminal)) ∧
  getStateByIndex m' (first_nil_index (mdp_states m))
  = Some (mkState h name (first_nil_index (mdp_states m)) terminal) ∧
  (∀ j : nat, Z.of_nat j < first_nil_index (mdp_states m) →
     ∃ s, mdp_states m !! j = Some (Some s)).
Proof.
  unfold AddState. intros Hset.
  apply SetState_installs in Hset as (_ & Hi & _ & Hslot & _).
  repeat split; try done. apply first_nil_index_occupied.
Qed.

(** [AddStateObject] registers the object at the index it carries; when
    that is not the slot the scan found, the scanned slot stays nil. *)
Lemma AddStateObject_registers_at_own_index (m m' : mdp) (st : state)
    (reward : float32) (ts : gmap Action Transition) :
  AddStateObject m (Some st) reward ts = Normal (None, m') →
  getStateByIndex m' (state_index st) = Some st ∧
  mdp_states m' !! Z.to_nat (state_index st) = Some (Some st) ∧
  (first_nil_index (mdp_states m) ≠ state_index st →
   first_nil_index (mdp_states m) < Z.of_nat (length (mdp_states m)) →
   mdp_states m' !! Z.to_nat (first_nil_index (mdp_states m)) = Some None).
Proof.
  unfold AddStateObject. intros Hset.
  assert (0 ≤ state_index st) as Hpos.
  { revert Hset. unfold SetStateObject.
    cbn [state_Index mbind outcome_bind].
    destruct (state_index st <? 0) eqn:Hneg; [done|]. intros _.
    by apply Z.ltb_ge in Hneg. }
  apply SetStateObject_installs in Hset as (Hi & _ & Hslot & Hother).
  repeat split; try done. intros Hne Hlt.
  pose proof (first_nil_index_bounds (mdp_states m)).
  rewrite Hother by lia. by apply first_nil_index_free.
Qed.

(** C8. In a default aggregate every slot is free, so the scan finds index
    0; [AddStateObject] of a state object carrying index 8 nevertheless
    registers it at index 8 and leaves slot 0 nil, while [AddState]
    registers at index 0. *)
Theorem AddStateObject_ignores_first_free_index :
  first_nil_index (mdp_states default_mdp) = 0 ∧
  (∃ m,
     AddStateObject default_mdp (Some (mkState 0 "BR" 8 true)) f32_one ∅
     = Normal (None, m) ∧
     mdp_states m !! 0%nat = Some None ∧
     mdp_states m !! 8%nat = Some (Some (mkState 0 "BR" 8 true)) ∧
     getStateByIndex m 0 = None ∧
     getStateByIndex m 8 = Some (mkState 0 "BR" 8 true)) ∧
  (∃ m h,
     AddState default_mdp "BR" true f32_one ∅ 1 = Normal (None, m, h) ∧
     mdp_states m !! 0%nat = Some (Some (mkState 1 "BR" 0 true)) ∧
     getStateByIndex m 0 = Some (mkState 1 "BR" 0 true)).
Proof.
  split; [reflexivity|]. split.
  - eexists. split; [vm_compute; reflexivity|].
    repeat split; vm_compute; reflexivity.
  - do 2 eexists. split; [vm_compute; reflexivity|].
    repeat split; vm_compute; reflexivity.
Qed.

(** ** Capacity growth *)

(** Growth when the new array has room for the old one.  [SetState] at an
    index at or beyond the capacity, with a non-empty name, no nil
    transition, [index * 2] slots within what [make] accepts, a backing
    array of at most [index * 2] slots and an index map keyed by the
    states' own indices at [index], succeeds.  The capacity becomes
    [max capacity (index * 2) = index * 2], the backing array has that many
    slots and the old slots are copied across.  Every state registered at a
    lower index still resolves by index to its original object, with the
    reward and the transition entry it had; it still resolves by name to
    its original object unless its name is the one just registered. *)
Lemma SetState_growth_with_room (m : mdp) (name : string) (index : Z)
    (terminal : bool) (reward : float32) (ts : gmap string Transition)
    (h : addr) :
  name ≠ "" →
  map_Forall (λ _ tr, tr ≠ None) ts →
  0 < index ∧ sizeof_State * (index * 2) ≤ maxAlloc →
  mdp_statesCapacity m ≤ index →
  Z.of_nat (length (mdp_states m)) ≤ index * 2 →
  (∀ sOld, getStateByIndex m index = Some sOld → state_index sOld = index) →
  ∃ m' h',
    SetState m name index terminal reward ts h = Normal (None, m', h') ∧
    mdp_statesCapacity m' = Z.max (mdp_statesCapacity m) (index * 2) ∧
    Z.of_nat (length (mdp_states m')) = index * 2 ∧
    getStateByIndex m' index = Some (mkState h name index terminal) ∧
    getStateByName m' name = Some (mkState h name index terminal) ∧
    (∀ i : nat,
       (i < length (mdp_states m))%nat → Z.of_nat i ≠ index →
       mdp_states m' !! i = mdp_states m !! i) ∧
    (∀ s : state,
       state_index s < index →
       getStateByIndex m (state_index s) = Some s →
       getStateByIndex m' (state_index s) = Some s ∧
       RByIndex m' (state_index s) = RByIndex m (state_index s) ∧
       transitionTable_Get (mdp_transitions m') (Some s)
         = transitionTable_Get (mdp_transitions m) (Some s) ∧
       (state_name s ≠ name →
        getStateByName m (state_name s) = Some s →
        getStateByName m' (state_name s) = Some s ∧
        R m' (state_name s) = R m (state_name s))).
Proof.
  intros Hname Hts Hidx Hcap Hlen Hold.
  pose proof Hidx as [Hpos _].
  unfold SetState.
  destruct (index <? 0) eqn:Hneg; [apply Z.ltb_lt in Hneg; lia|].
  destruct (String.eqb name "") eqn:Hn; [by apply String.eqb_eq in Hn|].
  cbn [NewState].
  rewrite (register_state_unfold m (mkState h name index terminal)).
  rewrite appendStateToList_grow; cbn [state_index].
  2:{ done. }
  2:{ rewrite without_state_at_statesCapacity. lia. }
  2:{ rewrite without_state_at_states. lia. }
  cbn [mbind outcome_bind].
  edestruct (SetState_loop_total (map_to_list ts)) as (acts & e' & h' & ->);
    [by apply map_Forall_to_list_snd|].
  cbn [mbind outcome_bind]. do 2 eexists. split; [reflexivity|].
  assert (Hz : (index =? 0) = false) by (apply Z.eqb_neq; lia).
  unfold install_entry. rewrite Hz.
  unfold getStateByIndex, getStateByName, RByIndex, R, rewardsTable_Get.
  unfold getStateByIndex, getStateByName. simpl.
  rewrite !without_state_at_states.
  split; [lia|]. split.
  { rewrite length_insert, length_app, length_replicate. lia. }
  rewrite !lookup_insert_eq. do 2 (split; [done|]). split.
  { intros i Hi Hne. rewrite list_lookup_insert_ne by lia.
    by rewrite lookup_app_l. }
  intros s Hlt Hs.
  rewrite !lookup_insert_ne by lia.
  assert (Hrw : ∀ k, k ≠ index →
    rewardsTable_table (mdp_rewards (without_state_at m index)) !! k
    = rewardsTable_table (mdp_rewards m) !! k).
  { intros k Hk. unfold without_state_at.
    destruct (getStateByIndex m index) as [sOld|] eqn:HsOld; [|done].
    simpl. rewrite (Hold _ eq_refl). by rewrite lookup_delete_ne. }
  assert (Htt :
    transitionTable_table (mdp_transitions (without_state_at m index)) !! Some s
    = transitionTable_table (mdp_transitions m) !! Some s).
  { unfold without_state_at.
    destruct (getStateByIndex m index) as [sOld|] eqn:HsOld; [|done].
    simpl. rewrite lookup_delete_ne; [done|].
    intros [= ->]. rewrite (Hold _ eq_refl) in Hlt. lia. }
  assert (Hmaps : mdp_stateIndexMap (without_state_at m index) = mdp_stateIndexMap m
                  ∧ mdp_stateMap (without_state_at m index) = mdp_stateMap m).
  { unfold without_state_at. by destruct (getStateByIndex m index). }
  destruct Hmaps as [-> ->].
  unfold getStateByIndex in Hs.
  destruct (mdp_stateIndexMap m !! state_index s) as [s'|] eqn:Hlk; [|done].
  subst s'. simpl.
  rewrite lookup_insert_ne by lia. rewrite Hrw by lia.
  split; [done|]. split; [done|]. split.
  { rewrite !transitionTable_Get_lookup. simpl.
    rewrite lookup_insert_ne; [by rewrite Htt|].
    intros [= <-]. simpl in Hlt. lia. }
  intros Hne Hbyname.
  rewrite lookup_insert_ne by done.
  unfold getStateByName in Hbyname.
  destruct (mdp_stateMap m !! state_name s) as [s'|] eqn:Hlk'; [|done].
  subst s'. simpl.
  rewrite lookup_insert_ne by lia. rewrite Hrw by lia. done.
Qed.

(** [mdp_A] is what [SetState] makes of the default aggregate. *)
Lemma mdp_A_reached :
  SetState default_mdp "A" 1 false f32_one ∅ 1 = Normal (None, mdp_A, 2%nat).
Proof. vm_compute. reflexivity. Qed.

Lemma SetState_growth_with_room_witness :
  ∃ m' h',
    SetState mdp_A "B" 500 true f32_zero
      {["U" := NewTransition f32_one (Some (mkState 1 "A" 1 false))]} 2
    = Normal (None, m', h') ∧
    mdp_statesCapacity m' = 1000 ∧
    getStateByIndex m' 1 = Some (mkState 1 "A" 1 false) ∧
    getStateByName m' "A" = Some (mkState 1 "A" 1 false) ∧
    RByIndex m' 1 = Normal f32_one ∧
    transitionTable_Get (mdp_transitions m') (Some (mkState 1 "A" 1 false))
    = Some (mkEntry ∅).
Proof.
  destruct (SetState_growth_with_room mdp_A "B" 500 true f32_zero
              {["U" := NewTransition f32_one (Some (mkState 1 "A" 1 false))]} 2%nat)
    as (m' & h' & Hrun & Hcap & _ & _ & _ & _ & Hlow).
  - discriminate.
  - apply map_Forall_singleton. discriminate.
  - unfold sizeof_State, maxAlloc. lia.
  - simpl. lia.
  - simpl. lia.
  - intros sOld Hs. vm_compute in Hs. discriminate.
  - destruct (Hlow (mkState 1 "A" 1 false)) as (Hi & Hr & Ht & Hn).
    + simpl. lia.
    + vm_compute. reflexivity.
    + destruct Hn as [Hn _].
      * discriminate.
      * vm_compute. reflexivity.
      * exists m', h'.
        split; [exact Hrun|].
        split; [rewrite Hcap; reflexivity|].
        split; [exact Hi|].
        split; [exact Hn|].
        split.
        -- simpl in Hr. rewrite Hr. vm_compute. reflexivity.
        -- rewrite Ht. vm_compute. reflexivity.
Defined.

(** Reusing a name redirects it, growth or not.  State "A" is registered
    at index 1 of a default aggregate (capacity 128) and resolves by name
    and by index to the object at address 1.  [SetState] of the same name at
    index 500 succeeds and grows the array, after which the name "A"
    resolves to the new object at index 500, no longer to the original. *)
Lemma SetState_growth_name_reuse :
  ∃ m' h',
    mdp_statesCapacity mdp_A ≤ 500 ∧
    getStateByIndex mdp_A 1 = Some (mkState 1 "A" 1 false) ∧
    getStateByName mdp_A "A" = Some (mkState 1 "A" 1 false) ∧
    SetState mdp_A "A" 500 false f32_zero ∅ 2 = Normal (None, m', h') ∧
    getStateByIndex m' 1 = Some (mkState 1 "A" 1 false) ∧
    getStateByName m' "A" = Some (mkState 2 "A" 500 false) ∧
    getStateByName m' "A" ≠ Some (mkState 1 "A" 1 false).
Proof.
  do 2 eexists.
  split; [simpl; lia|].
  split; [vm_compute; reflexivity|].
  split; [vm_compute; reflexivity|].
  split; [vm_compute; reflexivity|].
  split; [vm_compute; reflexivity|].
  split; [vm_compute; reflexivity|].
  vm_compute. discriminate.
Qed.

(** A store outside the bounds panics, and so does a copy into a
    destination that is too short. *)
Lemma slice_store_panics (l : list State) (i : Z) (v : State) :
  ¬ 0 ≤ i < Z.of_nat (length l) → slice_store l i v = Panics IndexOutOfRange.
Proof.
  intros Hi. unfold slice_store.
  destruct (0 <=? i) eqn:H0; destruct (i <? _) eqn:H1; simpl; try done.
  apply Z.leb_le in H0. apply Z.ltb_lt in H1. lia.
Qed.

Lemma copy_states_panics (src dst : list State) (i : nat) :
  (length dst < i + length src)%nat → src ≠ [] →
  copy_states src (Z.of_nat i) dst = Panics IndexOutOfRange.
Proof.
  revert dst i. induction src as [|s src IH]; intros dst i Hlen Hne; [done|].
  cbn [copy_states]. destruct (decide (i < length dst)%nat) as [Hi|Hi].
  - rewrite slice_store_Normal by lia. cbn [mbind outcome_bind].
    replace (Z.of_nat i + 1) with (Z.of_nat (S i)) by lia.
    apply IH.
    + rewrite length_insert. simpl in Hlen. lia.
    + intros ->. simpl in Hlen. lia.
  - by rewrite slice_store_panics by lia.
Qed.

(** The growth allocates [index * 2] slots whatever the length of the old
    array is.  When the old array is longer, the copy runs past the end of
    the new one: [SetState] panics. *)
Lemma SetState_growth_out_of_range (m : mdp) (name : string) (index : Z)
    (terminal : bool) (reward : float32) (ts : gmap string Transition)
    (h : addr) :
  name ≠ "" →
  0 < index ∧ sizeof_State * (index * 2) ≤ maxAlloc →
  mdp_statesCapacity m ≤ index →
  index * 2 < Z.of_nat (length (mdp_states m)) →
  SetState m name index terminal reward ts h = Panics IndexOutOfRange.
Proof.
  intros Hname [Hpos Hmax] Hcap Hlen. unfold SetState.
  destruct (index <? 0) eqn:Hneg; [apply Z.ltb_lt in Hneg; lia|].
  destruct (String.eqb name "") eqn:Hn; [by apply String.eqb_eq in Hn|].
  cbn [NewState].
  rewrite (register_state_unfold m (mkState h name index terminal)).
  unfold appendStateToList. cbn [state_Index state_index mbind outcome_bind].
  rewrite Hneg, without_state_at_statesCapacity.
  destruct (index >=? mdp_statesCapacity m) eqn:Hg;
    [|rewrite Z.geb_leb in Hg; apply Z.leb_gt in Hg; lia].
  cbn [mdp_statesCapacity set_statesCapacity mdp_states].
  rewrite without_state_at_states.
  unfold maxAlloc, sizeof_State in Hmax.
  rewrite wrap_int_small by lia.
  rewrite make_states_Normal by (unfold maxAlloc, sizeof_State; lia).
  cbn [mbind outcome_bind].
  rewrite (copy_states_panics _ _ 0); [done| |].
  - rewrite length_replicate. lia.
  - intros Hnil. rewrite Hnil in Hlen. simpl in Hlen. lia.
Qed.

(** A length beyond what [make] accepts makes the growth panic as well. *)
Lemma SetState_growth_makeslice (m : mdp) (name : string) (index : Z)
    (terminal : bool) (reward : float32) (ts : gmap string Transition)
    (h : addr) :
  name ≠ "" →
  mdp_statesCapacity m ≤ index →
  maxAlloc < sizeof_State * (index * 2) → index < 2 ^ 62 →
  SetState m name index terminal reward ts h = Panics MakeSliceLen.
Proof.
  intros Hname Hcap Hmax Hint. unfold maxAlloc, sizeof_State in Hmax.
  unfold SetState.
  destruct (index <? 0) eqn:Hneg; [apply Z.ltb_lt in Hneg; lia|].
  destruct (String.eqb name "") eqn:Hn; [by apply String.eqb_eq in Hn|].
  cbn [NewState].
  rewrite (register_state_unfold m (mkState h name index terminal)).
  unfold appendStateToList. cbn [state_Index state_index mbind outcome_bind].
  rewrite Hneg, without_state_at_statesCapacity.
  destruct (index >=? mdp_statesCapacity m) eqn:Hg;
    [|rewrite Z.geb_leb in Hg; apply Z.leb_gt in Hg; lia].
  cbn [mdp_statesCapacity set_statesCapacity].
  rewrite wrap_int_small by lia.
  by rewrite make_states_panics by (right; unfold maxAlloc, sizeof_State; lia).
Qed.

(** ** Removing states *)

(** A removal that succeeded succeeds again: the index map is not touched,
    so the state is found again. *)
Lemma RemoveStateByIndex_repeats (m m' : mdp) (i : Z) :
  RemoveStateByIndex m i = Normal (None, m') →
  ∃ m'', RemoveStateByIndex m' i = Normal (None, m'').
Proof.
  unfold RemoveStateByIndex.
  destruct (getStateByIndex m i) as [st|] eqn:Hst; [|done].
  destruct (slice_store _ _ _) as [l|] eqn:Hl; simpl; [|done].
  intros [= <-]. unfold getStateByIndex in *. simpl.
  destruct (mdp_stateIndexMap m !! i) as [s|]; [|done]. subst s.
  apply slice_store_inv in Hl as [Hi ->].
  rewrite slice_store_Normal by (by rewrite length_insert).
  simpl. eauto.
Qed.

(** C2. A state is registered at index 3 of a default aggregate and removed
    by index; the second and the third removal of index 3 succeed like the
    first instead of reporting that the state doesn't exist. *)
Theorem RemoveStateByIndex_succeeds_twice :
  ∃ m0 h0 m1 h1 m2 m3 m4,
    NewDefaultMDP 1 = Normal (Some m0, None, h0) ∧
    SetState m0 "A" 3 false f32_one ∅ h0 = Normal (None, m1, h1) ∧
    RemoveStateByIndex m1 3 = Normal (None, m2) ∧
    RemoveStateByIndex m2 3 = Normal (None, m3) ∧
    RemoveStateByIndex m3 3 = Normal (None, m4).
Proof.
  do 7 eexists.
  split; [apply NewDefaultMDP_eq|].
  split; [vm_compute; reflexivity|].
  split; [vm_compute; reflexivity|].
  split; vm_compute; reflexivity.
Qed.

(** ** Construction *)

(** One round of the loop of [NewMDP] over the states keeps the facts of
    [constructed] and a counter of at least 1. *)
Lemma NewMDP_state_body_constructed (initialState : string)
    (terminalMap : gmap string bool) (rewards : gmap string float32)
    (transitions : gmap string (gmap string Transition)) (state : string)
    (m : mdp) (i : Z) (h : addr) c :
  constructed initialState m ∧ 1 ≤ i →
  NewMDP_state_body initialState terminalMap rewards transitions state (m, i, h)
  = Normal c →
  match c with
  | Continue (m', i', _) => constructed initialState m' ∧ 1 ≤ i'
  | Return _ => True
  end.
Proof.
  intros [(Hcap & Hnil & Htt & Hinit & Hkey) Hi]. unfold NewMDP_state_body.
  cbn [NewState].
  destruct (String.eqb initialState state) eqn:Heq; cbn [negb].
  { intros [= <-]. done. }
  cbn [rewardsTable_Set state_Index mbind outcome_bind mret outcome_ret].
  destruct (for_range _ _ _) as [[entry|err]|]; cbn [mbind outcome_bind];
    [|by intros [= <-]|done].
  intros [= <-]. split; [|lia]. repeat split; simpl.
  - done.
  - rewrite take_app_le; [done|].
    apply (f_equal length) in Hnil.
    rewrite length_take, length_replicate in Hnil. lia.
  - rewrite transitionTable_Get_lookup in *. simpl.
    by rewrite lookup_insert_ne.
  - intros Hne. destruct (Hinit Hne) as (s0 & H0 & Hn & Hname & Hidx).
    exists s0. rewrite lookup_insert_ne by lia.
    rewrite lookup_insert_ne; [done|].
    apply String.eqb_neq in Heq. congruence.
  - intros j st. destruct (decide (i = j)) as [<-|Hne].
    + rewrite lookup_insert_eq. by intros [= <-].
    + rewrite lookup_insert_ne by done. apply Hkey.
Qed.

(** Every aggregate [NewMDP] returns satisfies [constructed]. *)
Lemma NewMDP_constructed (initialState : string)
    (states terminals actions : list string) (rewards : gmap string float32)
    (transitions : gmap string (gmap string Transition))
    (discountRate : float32) (h h' : addr) (m : mdp) :
  NewMDP initialState states terminals actions rewards transitions
    discountRate h = Normal (Some m, None, h') →
  constructed initialState m.
Proof.
  unfold NewMDP.
  destruct (discount_out_of_range discountRate); [done|].
  rewrite make_states_default. cbn [NewRewards mbind outcome_bind].
  set (m0 := mkMdp _ _ _ _ _ _ _ _ _ _).
  set (p1 := if negb (String.eqb initialState "") then _ else _).
  assert (H1 : constructed initialState p1.1).
  { subst p1. destruct (String.eqb initialState "") eqn:He; cbn [negb].
    - repeat split; try done. intros Hne. by apply String.eqb_eq in He.
    - cbn [NewState]. repeat split; try done.
      + intros _. eexists. simpl. rewrite !lookup_insert_eq. done.
      + intros i st. simpl. destruct (decide (0 = i)) as [<-|Hne].
        * rewrite lookup_insert_eq. by intros [= <-].
        * by rewrite lookup_insert_ne. }
  destruct p1 as [m1 h1]. simpl in H1.
  set (p2 := foldl _ _ _).
  assert (H2 : constructed initialState p2.1).
  { subst p2. clear -H1. revert m1 h1 H1.
    induction actions as [|a actions IH]; intros m1 h1 H1; [done|].
    simpl. apply IH. destruct H1 as (? & ? & ? & ? & ?). done. }
  destruct p2 as [m2 h2]. simpl in H2.
  destruct (for_range _ _ _) as [c|] eqn:Hloop; [|done].
  apply (for_range_invariant
           (λ '(m, i, _), constructed initialState m ∧ 1 ≤ i) (λ _, True))
    in Hloop.
  - cbn [mbind outcome_bind]. destruct c as [[[m3 i3] h3]|[err h3]]; [|done].
    intros [= <- <-]. destruct Hloop as [(? & ? & ? & ? & ?) _]. done.
  - intros x [[mx ix] hx] c' _ HP Hb.
    pose proof (NewMDP_state_body_constructed _ _ _ _ _ _ _ _ _ HP Hb) as H.
    destruct c' as [[[? ?] ?]|]; done.
  - split; [done|lia].
Qed.

(** Whatever the arguments, an initial state given to [NewMDP] is held by
    both maps while slot 0 of the backing array is nil. *)
Lemma NewMDP_initial_state_not_in_slot (initialState : string)
    (states terminals actions : list string) (rewards : gmap string float32)
    (transitions : gmap string (gmap string Transition))
    (discountRate : float32) (h h' : addr) (m : mdp) :
  initialState ≠ "" →
  NewMDP initialState states terminals actions rewards transitions
    discountRate h = Normal (Some m, None, h') →
  mdp_states m !! 0%nat = Some None ∧
  ∃ s0, getStateByIndex m 0 = Some s0 ∧ getStateByName m initialState = Some s0.
Proof.
  intros Hne Hnew. apply NewMDP_constructed in Hnew as (_ & Hnil & _ & Hinit & _).
  split.
  - rewrite <- (lookup_take_lt _ 128) by lia. by rewrite Hnil.
  - destruct (Hinit Hne) as (s0 & H0 & Hn & _). exists s0.
    unfold getStateByIndex, getStateByName. by rewrite H0, Hn.
Qed.

(** The terminal map holds exactly the names listed as terminal. *)
Lemma terminalMap_lookup (terminals : list string) (acc : gmap string bool)
    (s : string) :
  foldl (λ tm t, <[t := true]> tm) acc terminals !! s = None ↔
  acc !! s = None ∧ s ∉ terminals.
Proof.
  revert acc. induction terminals as [|t l IH]; intros acc; simpl.
  - rewrite elem_of_nil. tauto.
  - rewrite IH, elem_of_cons. destruct (decide (t = s)) as [->|Hne].
    + rewrite lookup_insert_eq. split; [by intros [? _]|]. intros [_ Hn].
      exfalso. apply Hn. by left.
    + rewrite lookup_insert_ne by done. split.
      * intros [? Hn]. split; [done|]. intros [->|?]; done.
      * intros [? Hn]. split; [done|]. intros ?. apply Hn. by right.
Qed.

(** The loop over the transitions of a listed state: for a state in the
    terminal map it stores every transition; for any other state it
    returns the error at the first transition, whatever the action is. *)
Lemma NewMDP_entry_body_terminal (m : mdp) (terminalMap : gmap string bool)
    (state a : string) (tr : transition) (e : transitionTableEntry) (b : bool) :
  terminalMap !! state = Some b →
  NewMDP_entry_body m terminalMap state (a, Some tr) e =
  Normal (Continue
            (mkEntry (<[default None (mdp_actions m !! a) :=
                        NewTransition (transition_probability tr)
                                      (transition_nextState tr)]>
                        (transitionTableEntry_entry e)))).
Proof. intros Ht. unfold NewMDP_entry_body. by rewrite Ht. Qed.

Lemma NewMDP_entry_body_non_terminal (m : mdp)
    (terminalMap : gmap string bool) (state a : string) (tr : Transition)
    (e : transitionTableEntry) :
  terminalMap !! state = None →
  NewMDP_entry_body m terminalMap state (a, tr) e =
  Normal (Return (errors_New ("action with name " +:+ a +:+ " not in MDP"))).
Proof. intros Ht. unfold NewMDP_entry_body. by rewrite Ht. Qed.

Lemma NewMDP_entry_loop_terminal (m : mdp) (terminalMap : gmap string bool)
    (state : string) (l : list (string * Transition)) (b : bool) :
  terminalMap !! state = Some b →
  Forall (λ x, x.2 ≠ None) l →
  ∀ e, ∃ e', for_range l (NewMDP_entry_body m terminalMap state) e
             = Normal (Continue e').
Proof.
  intros Ht. induction 1 as [|[a tr] l Htr _ IH]; intros e; cbn [for_range].
  - eauto.
  - destruct tr as [tr|]; [|done].
    rewrite (NewMDP_entry_body_terminal _ _ _ _ _ _ b) by done.
    cbn [mbind outcome_bind]. apply IH.
Qed.

Lemma NewMDP_entry_loop_non_terminal (m : mdp)
    (terminalMap : gmap string bool) (state : string)
    (a : string) (tr : Transition) (l : list (string * Transition))
    (e : transitionTableEntry) :
  terminalMap !! state = None →
  for_range ((a, tr) :: l) (NewMDP_entry_body m terminalMap state) e
  = Normal (Return (errors_New ("action with name " +:+ a +:+ " not in MDP"))).
Proof.
  intros Ht. cbn [for_range].
  by rewrite NewMDP_entry_body_non_terminal.
Qed.

Lemma no_nil_transition_list
    (transitions : gmap string (gmap string Transition)) (state : string) :
  no_nil_transition transitions →
  Forall (λ x, x.2 ≠ None) (map_to_list (default ∅ (transitions !! state))).
Proof.
  intros Hnn. apply Forall_forall. intros [a tr] Hin.
  apply elem_of_map_to_list in Hin.
  destruct (transitions !! state) as [tm|] eqn:Htm; simpl in *; [|done].
  intros ->. by eapply Hnn.
Qed.

Lemma NewMDP_state_body_cases (initialState : string)
    (terminalMap : gmap string bool) (rewards : gmap string float32)
    (transitions : gmap string (gmap string Transition)) (state : string)
    (m : mdp) (i : Z) (h : addr) :
  no_nil_transition transitions →
  (rejected initialState terminalMap transitions state ∧
   ∃ a tr,
     default ∅ (transitions !! state) !! a = Some tr ∧
     NewMDP_state_body initialState terminalMap rewards transitions state
       (m, i, h)
     = Normal (Return (errors_New ("action with name " +:+ a +:+ " not in MDP"),
                       S h))) ∨
  (¬ rejected initialState terminalMap transitions state ∧
   ∃ s', NewMDP_state_body initialState terminalMap rewards transitions state
           (m, i, h) = Normal (Continue s')).
Proof.
  intros Hnn. unfold NewMDP_state_body, rejected. cbn [NewState].
  destruct (String.eqb initialState state) eqn:Heq; cbn [negb].
  { apply String.eqb_eq in Heq. right. split; [tauto|eauto]. }
  apply String.eqb_neq in Heq.
  cbn [rewardsTable_Set state_Index mbind outcome_bind mret outcome_ret].
  destruct (terminalMap !! state) as [b|] eqn:Ht.
  - right. split; [by intros (_ & ? & _)|].
    edestruct (NewMDP_entry_loop_terminal) as [e' ->];
      [done|by apply no_nil_transition_list|].
    cbn. eauto.
  - destruct (map_to_list (default ∅ (transitions !! state)))
      as [|[a tr] l] eqn:Hl.
    + right. apply map_to_list_empty_iff in Hl. split; [tauto|].
      cbn. eauto.
    + left. split.
      * repeat split; try done. intros Hemp. rewrite Hemp in Hl.
        by rewrite map_to_list_empty in Hl.
      * exists a, tr. split.
        -- apply elem_of_map_to_list. rewrite Hl. by left.
        -- by rewrite NewMDP_entry_loop_non_terminal.
Qed.

Lemma NewMDP_state_loop_cases (initialState : string)
    (terminalMap : gmap string bool) (rewards : gmap string float32)
    (transitions : gmap string (gmap string Transition))
    (l : list string) :
  no_nil_transition transitions →
  ∀ m i h,
    (Exists (rejected initialState terminalMap transitions) l ∧
     ∃ a h',
       for_range l
         (NewMDP_state_body initialState terminalMap rewards transitions)
         (m, i, h)
       = Normal (Return (errors_New ("action with name " +:+ a +:+ " not in MDP"),
                         h'))) ∨
    (Forall (λ s, ¬ rejected initialState terminalMap transitions s) l ∧
     ∃ s',
       for_range l
         (NewMDP_state_body initialState terminalMap rewards transitions)
         (m, i, h)
       = Normal (Continue s')).
Proof.
  intros Hnn. induction l as [|state l IH]; intros m i h; cbn [for_range].
  - right. split; [constructor|eauto].
  - destruct (NewMDP_state_body_cases initialState terminalMap rewards
                transitions state m i h Hnn)
      as [(Hrej & a & tr & _ & ->)|(Hok & [[m1 i1] h1] & ->)];
      cbn [mbind outcome_bind].
    + left. split; [by left|eauto].
    + destruct (IH m1 i1 h1) as [(Hex & a & h' & ->)|(Hall & s' & ->)].
      * left. split; [by right|eauto].
      * right. split; [by constructor|eauto].
Qed.

(** The outcome of [NewMDP] for a discount rate in range and transition
    maps without nil: it reports some action as not being in the MDP exactly
    when a listed state other than the initial one is not terminal and has a
    transition -- whether or not the actions it references are registered
    -- and it returns an aggregate otherwise. *)
Lemma NewMDP_outcome (initialState : string)
    (states terminals actions : list string) (rewards : gmap string float32)
    (transitions : gmap string (gmap string Transition))
    (discountRate : float32) (h : addr) :
  discount_out_of_range discountRate = false →
  no_nil_transition transitions →
  ((∃ state, state ∈ states ∧ initialState ≠ state ∧ (state ∉ terminals) ∧
             default ∅ (transitions !! state) ≠ ∅) ∧
   ∃ a h',
     NewMDP initialState states terminals actions rewards transitions
       discountRate h
     = Normal (None, errors_New ("action with name " +:+ a +:+ " not in MDP"),
               h')) ∨
  ((∀ state, state ∈ states → initialState ≠ state → state ∉ terminals →
             default ∅ (transitions !! state) = ∅) ∧
   ∃ m h',
     NewMDP initialState states terminals actions rewards transitions
       discountRate h = Normal (Some m, None, h')).
Proof.
  intros Hd Hnn. unfold NewMDP. rewrite Hd.
  rewrite make_states_default. cbn [NewRewards mbind outcome_bind].
  destruct (if negb (String.eqb initialState "") then _ else _) as [m1 h1].
  destruct (foldl _ (m1, h1) actions) as [m2 h2].
  set (tmap := foldl _ ∅ terminals).
  destruct (NewMDP_state_loop_cases initialState tmap rewards transitions
              states Hnn m2 1 h2)
    as [(Hex & a & h' & ->)|(Hall & [[m3 i3] h3] & ->)];
    cbn [mbind outcome_bind].
  - left. split; [|eauto].
    apply Exists_exists in Hex as (state & Hin & Hne & Ht & Htm).
    exists state. repeat split; try done.
    by apply terminalMap_lookup in Ht as [_ ?].
  - right. split; [|eauto]. intros state Hin Hne Hnt.
    rewrite Forall_forall in Hall. specialize (Hall state Hin).
    destruct (map_choose_or_empty
                (default (∅ : gmap string Transition) (transitions !! state)))
      as [(a & tr & Ha)|Hemp]; [|done].
    exfalso. apply Hall. repeat split; try done.
    + apply terminalMap_lookup. by rewrite lookup_empty.
    + intros Hemp. by rewrite Hemp, lookup_empty in Ha.
Qed.

(** In particular a listed non-terminal state with a transition through a
    registered action is enough to make construction fail. *)
Lemma NewMDP_rejects_non_terminal_with_transition (initialState : string)
    (states terminals actions : list string) (rewards : gmap string float32)
    (transitions : gmap string (gmap string Transition))
    (discountRate : float32) (h : addr) (state a : string)
    (tm : gmap string Transition) (tr : Transition) :
  discount_out_of_range discountRate = false →
  no_nil_transition transitions →
  state ∈ states → initialState ≠ state → state ∉ terminals →
  a ∈ actions →
  transitions !! state = Some tm → tm !! a = Some tr →
  ∃ a' h',
    NewMDP initialState states terminals actions rewards transitions
      discountRate h
    = Normal (None, errors_New ("action with name " +:+ a' +:+ " not in MDP"),
              h').
Proof.
  intros Hd Hnn Hin Hne Hnt _ Htm Ha.
  destruct (NewMDP_outcome initialState states terminals actions rewards
              transitions discountRate h Hd Hnn)
    as [(_ & Herr)|(Hall & _)]; [done|].
  specialize (Hall state Hin Hne Hnt). rewrite Htm in Hall. simpl in Hall.
  by rewrite Hall, lookup_empty in Ha.
Qed.

(** C4. With "a" a registered action, a non-terminal state whose transition
    map references only "a" makes [NewMDP] fail with the message that "a" is
    not in the MDP, while a terminal state referencing the unregistered "zz"
    is accepted: the guard tests the state, not the action. *)
Theorem NewMDP_rejects_registered_action :
  (∃ h,
     NewMDP "" ["s"; "t"] [] ["a"] ∅
       {["s" := {["a" := NewTransition f32_one (Some (mkState 0 "t" 2 false))]}]}
       f32_one 1
     = Normal (None, errors_New "action with name a not in MDP", h)) ∧
  (∃ m h,
     NewMDP "" ["s"; "t"] ["s"] ["a"] ∅
       {["s" := {["zz" := NewTransition f32_one (Some (mkState 0 "t" 2 false))]}]}
       f32_one 1
     = Normal (Some m, None, h)).
Proof.
  split.
  - eexists. vm_compute. reflexivity.
  - do 2 eexists. vm_compute. reflexivity.
Qed.

(** ** Growth after construction *)

(** The loop of [NewMDP] over the states appends one slot for every listed
    name other than the initial one. *)
Lemma NewMDP_state_loop_length (initialState : string)
    (terminalMap : gmap string bool) (rewards : gmap string float32)
    (transitions : gmap string (gmap string Transition)) (l : list string) :
  ∀ m i h m' i' h',
    for_range l
      (NewMDP_state_body initialState terminalMap rewards transitions)
      (m, i, h) = Normal (Continue (m', i', h')) →
    length (mdp_states m') =
    (length (mdp_states m) + length (filter (λ y, y ≠ initialState) l))%nat.
Proof.
  induction l as [|x l IH]; intros m i h m' i' h'; cbn [for_range].
  - intros [= <- <- <-]. simpl. lia.
  - destruct (NewMDP_state_body _ _ _ _ x (m, i, h)) as [[[[m1 i1] h1]|r]|]
      eqn:Hb; cbn [mbind outcome_bind]; [|done|done].
    intros Hloop. apply IH in Hloop. rewrite Hloop. clear Hloop IH.
    revert Hb. unfold NewMDP_state_body. cbn [NewState].
    destruct (String.eqb initialState x) eqn:Heq; cbn [negb].
    + apply String.eqb_eq in Heq. intros [= <- <- <-].
      rewrite filter_cons_False; [done|]. intros Hx. by apply Hx.
    + apply String.eqb_neq in Heq.
      cbn [rewardsTable_Set state_Index mbind outcome_bind mret outcome_ret].
      destruct (for_range _ _ _) as [[entry|err]|]; cbn [mbind outcome_bind];
        [|done|done].
      intros [= <- <- <-]. simpl. rewrite length_app. simpl.
      rewrite filter_cons_True by done. simpl. lia.
Qed.

(** The backing array of an aggregate [NewMDP] returns: the 128 slots made
    first, then the initial state, if any, and the listed states. *)
Lemma NewMDP_states_length (initialState : string)
    (states terminals actions : list string) (rewards : gmap string float32)
    (transitions : gmap string (gmap string Transition))
    (discountRate : float32) (h h' : addr) (m : mdp) :
  NewMDP initialState states terminals actions rewards transitions
    discountRate h = Normal (Some m, None, h') →
  length (mdp_states m) =
  (128 + (if String.eqb initialState "" then 0 else 1) +
   length (filter (λ y, y ≠ initialState) states))%nat.
Proof.
  unfold NewMDP.
  destruct (discount_out_of_range discountRate); [done|].
  rewrite make_states_default. cbn [NewRewards mbind outcome_bind].
  set (m0 := mkMdp _ _ _ _ _ _ _ _ _ _).
  set (p1 := if negb (String.eqb initialState "") then _ else _).
  assert (H1 : length (mdp_states p1.1) =
               (128 + (if String.eqb initialState "" then 0 else 1))%nat).
  { subst p1. destruct (String.eqb initialState ""); cbn [negb NewState].
    - done.
    - vm_compute. reflexivity. }
  destruct p1 as [m1 h1]. simpl in H1.
  set (p2 := foldl _ _ _).
  assert (H2 : mdp_states p2.1 = mdp_states m1).
  { subst p2. clear. revert m1 h1.
    induction actions as [|a actions IH]; intros m1 h1; [done|].
    simpl. by rewrite IH. }
  destruct p2 as [m2 h2]. simpl in H2.
  destruct (for_range _ _ _) as [[[[m3 i3] h3]|[err h3]]|] eqn:Hloop;
    cbn [mbind outcome_bind]; [|done|done].
  intros [= <- <-]. apply NewMDP_state_loop_length in Hloop.
  simpl. rewrite Hloop, H2, H1. done.
Qed.

(** C7. Growth does not succeed on every aggregate.  [NewMDP] appends the
    states it is given to the 128 nil slots it has made, so with 129 listed
    states the backing array has 257 slots while the capacity is still 128.
    [SetState] at index 128, which is at the capacity, allocates 256 slots
    and panics while copying the 257 old ones: nothing is registered. *)
Theorem SetState_capacity_growth_panics :
  ∃ m h,
    NewMDP "" names_129 [] [] ∅ ∅ f32_one 1 = Normal (Some m, None, h) ∧
    mdp_statesCapacity m = 128 ∧
    length (mdp_states m) = 257%nat ∧
    SetState m "new" 128 false f32_one ∅ h = Panics IndexOutOfRange.
Proof.
  destruct (NewMDP_outcome "" names_129 [] [] ∅ ∅ f32_one 1)
    as [[(state & _ & _ & _ & Hne) _]|(_ & m & h & Hnew)].
  - reflexivity.
  - intros state tm a Htm. by rewrite lookup_empty in Htm.
  - by rewrite lookup_empty in Hne.
  - pose proof (NewMDP_constructed _ _ _ _ _ _ _ _ _ _ Hnew) as (Hcap & _).
    pose proof (NewMDP_states_length _ _ _ _ _ _ _ _ _ _ Hnew) as Hlen.
    change (length (mdp_states m) = 257%nat) in Hlen.
    exists m, h. split; [done|]. split; [done|]. split; [done|].
    apply SetState_growth_out_of_range.
    + discriminate.
    + unfold sizeof_State, maxAlloc. lia.
    + lia.
    + lia.
Qed.

(** ** The shape of a reachable aggregate *)

(** The shape holds initially, after construction, and is kept by every
    operation that writes the backing array, the capacity or the index map. *)
Lemma default_mdp_well_formed : well_formed default_mdp.
Proof. repeat split; done. Qed.

(** [appendStateToList] never shrinks the capacity and leaves the backing
    array at least as long as the capacity. *)
Lemma appendStateToList_sizes (m m1 : mdp) (st : state) (err : error) :
  appendStateToList m (Some st) = Normal (err, m1) →
  mdp_statesCapacity m ≤ Z.of_nat (length (mdp_states m)) →
  mdp_statesCapacity m ≤ mdp_statesCapacity m1 ∧
  mdp_statesCapacity m1 ≤ Z.of_nat (length (mdp_states m1)).
Proof.
  unfold appendStateToList. cbn [state_Index mbind outcome_bind].
  destruct (state_index st <? 0); [by intros [= <- <-]; lia|].
  destruct (state_index st >=? mdp_statesCapacity m) eqn:Hge.
  - destruct (make_states _) as [l0|] eqn:Hmk; [|done].
    apply make_states_inv in Hmk as (-> & Hneg & _).
    cbn [mbind outcome_bind].
    destruct (copy_states _ _ _) as [l1|] eqn:Hc; [|done].
    cbn [mbind outcome_bind].
    destruct (slice_store _ _ _) as [l2|] eqn:Hl; [|done].
    cbn [mbind outcome_bind]. intros [= <- <-] Hlen. simpl in *.
    apply slice_store_inv in Hl as [Hi ->]. rewrite length_insert in *.
    pose proof (copy_states_inv _ _ _ 0 Hc ltac:(lia)) as Hlen'.
    rewrite (copy_states_Normal _ _ 0) in Hc by done. injection Hc as <-.
    rewrite length_replicate in Hlen'.
    rewrite !length_app, length_drop, length_replicate in *. simpl in *.
    apply Z.geb_le in Hge. lia.
  - cbn [mbind outcome_bind].
    destruct (slice_store _ _ _) as [l2|] eqn:Hl; [|done].
    cbn [mbind outcome_bind]. intros [= <- <-] Hlen. simpl.
    apply slice_store_inv in Hl as [_ ->]. rewrite length_insert. lia.
Qed.

(** It writes the backing array and the capacity, nothing else. *)
Lemma appendStateToList_frame (m m1 : mdp) (s : State) (err : error) :
  appendStateToList m s = Normal (err, m1) →
  m1 = set_states (mdp_states m1) (set_statesCapacity (mdp_statesCapacity m1) m).
Proof.
  unfold appendStateToList. destruct s as [st|]; [|done].
  cbn [state_Index mbind outcome_bind].
  destruct (state_index st <? 0); [intros [= <- <-]; by destruct m|].
  destruct (state_index st >=? mdp_statesCapacity m).
  - destruct (make_states _) as [l0|]; [|done]. cbn [mbind outcome_bind].
    destruct (copy_states _ _ _) as [l1|]; [|done]. cbn [mbind outcome_bind].
    destruct (slice_store _ _ _) as [l2|]; [|done]. cbn [mbind outcome_bind].
    by intros [= <- <-].
  - cbn [mbind outcome_bind].
    destruct (slice_store _ _ _) as [l2|]; [|done]. cbn [mbind outcome_bind].
    intros [= <- <-]. by destruct m.
Qed.

Lemma without_state_at_stateIndexMap (m : mdp) (index : Z) :
  mdp_stateIndexMap (without_state_at m index) = mdp_stateIndexMap m.
Proof. unfold without_state_at. by destruct (getStateByIndex m index). Qed.

(** Registering a state under the index it carries keeps the shape. *)
Lemma register_state_well_formed (m m1 : mdp) (st : state) (name : string)
    (reward : float32) (err : error) :
  register_state m (Some st) name (state_index st) reward = Normal (err, m1) →
  well_formed m → well_formed m1.
Proof.
  rewrite register_state_unfold. intros Hreg (Hcap & Hlen & Hkey).
  destruct (appendStateToList _ _) as [[e m0]|] eqn:Happ; [|done].
  pose proof (appendStateToList_sizes _ _ _ _ Happ) as Hsz.
  rewrite without_state_at_states, without_state_at_statesCapacity in Hsz.
  destruct (Hsz Hlen) as [Hc1 Hl1].
  assert (Hmap : mdp_stateIndexMap m0 = mdp_stateIndexMap m).
  { apply appendStateToList_frame in Happ. rewrite Happ. simpl.
    apply without_state_at_stateIndexMap. }
  cbn [mbind outcome_bind] in Hreg. destruct e as [e|].
  - injection Hreg as <- <-. repeat split; try lia. by rewrite Hmap.
  - injection Hreg as <- <-. repeat split; simpl; try lia.
    rewrite Hmap. intros i st'. destruct (decide (state_index st = i)) as [<-|Hne].
    + rewrite lookup_insert_eq. by intros [= <-].
    + rewrite lookup_insert_ne by done. apply Hkey.
Qed.

Lemma set_actions_well_formed (m : mdp) (acts : gmap string Action) :
  well_formed m → well_formed (set_actions acts m).
Proof. done. Qed.

Lemma install_entry_well_formed (m : mdp) (s : State) (index : Z)
    (e : TransitionTableEntry) :
  well_formed m → well_formed (install_entry m s index e).
Proof. unfold install_entry. by destruct (index =? 0). Qed.

(** [SetState] keeps the shape, whether it reports an error or not. *)
Lemma SetState_well_formed (m m' : mdp) (name : string) (index : Z)
    (terminal : bool) (reward : float32) (ts : gmap string Transition)
    (h h' : addr) (err : error) :
  SetState m name index terminal reward ts h = Normal (err, m', h') →
  well_formed m → well_formed m'.
Proof.
  unfold SetState. destruct (index <? 0); [by intros [= <- <- <-]|].
  destruct (String.eqb name ""); [by intros [= <- <- <-]|]. cbn [NewState].
  destruct (register_state _ _ _ _ _) as [[e m1]|] eqn:Hreg; [|done].
  cbn [mbind outcome_bind]. intros Hrun Hwf.
  apply (register_state_well_formed m m1 (mkState h name index terminal))
    in Hreg; [|done].
  destruct e as [e|]; [by injection Hrun as <- <- <-|].
  destruct (for_range _ _ _) as [c|] eqn:Hloop; [|done].
  apply SetState_loop_frame in Hloop as (acts & e' & h1 & ->).
  cbn [mbind outcome_bind] in Hrun. injection Hrun as <- <- <-.
  by apply install_entry_well_formed, set_actions_well_formed.
Qed.

(** So do [SetStateObject], the removals and [SetTransition]. *)
Lemma SetStateObject_well_formed (m m' : mdp) (s : State) (reward : float32)
    (ts : gmap Action Transition) (err : error) :
  SetStateObject m s reward ts = Normal (err, m') →
  well_formed m → well_formed m'.
Proof.
  unfold SetStateObject. destruct s as [st|]; [|done].
  cbn [state_Index state_Name mbind outcome_bind].
  destruct (state_index st <? 0); [by intros [= <- <-]|].
  destruct (String.eqb (state_name st) ""); [by intros [= <- <-]|].
  destruct (register_state _ _ _ _ _) as [[e m1]|] eqn:Hreg; [|done].
  cbn [mbind outcome_bind]. intros Hrun Hwf.
  apply register_state_well_formed in Hreg; [|done].
  destruct e as [e|]; [by injection Hrun as <- <-|].
  destruct (for_range _ _ _) as [c|] eqn:Hloop; [|done].
  apply SetStateObject_loop_frame in Hloop as (acts & e' & ->).
  cbn [mbind outcome_bind] in Hrun. injection Hrun as <- <-.
  by apply install_entry_well_formed, set_actions_well_formed.
Qed.

Lemma RemoveStateByIndex_well_formed (m m' : mdp) (index : Z) (err : error) :
  RemoveStateByIndex m index = Normal (err, m') →
  well_formed m → well_formed m'.
Proof.
  unfold RemoveStateByIndex.
  destruct (getStateByIndex m index) as [st|]; [|by intros [= <- <-]].
  destruct (slice_store _ _ _) as [l|] eqn:Hl; [|done].
  cbn. intros [= <- <-] (Hcap & Hlen & Hkey).
  apply slice_store_inv in Hl as [_ ->].
  repeat split; simpl; try done. by rewrite length_insert.
Qed.

Lemma RemoveAction_well_formed (m m' : mdp) (a : string) (err : error) :
  RemoveAction m a = Normal (err, m') → well_formed m → well_formed m'.
Proof.
  unfold RemoveAction. destruct (getAction m a); [|by intros [= <- <-]].
  destruct (for_range _ _ _) as [[t|[]]|]; cbn; [| |done];
    by intros [= <- <-].
Qed.

Lemma SetTransition_well_formed (m m' : mdp) (s1 s2 a : string)
    (p : float32) :
  SetTransition m s1 s2 a p = Normal m' → well_formed m → well_formed m'.
Proof.
  unfold SetTransition. destruct (transitionTable_Update _ _ _ _ _); [|done].
  cbn. by intros [= <-].
Qed.

(** Every aggregate [NewMDP] returns has the shape. *)
Lemma NewMDP_well_formed (initialState : string)
    (states terminals actions : list string) (rewards : gmap string float32)
    (transitions : gmap string (gmap string Transition))
    (discountRate : float32) (h h' : addr) (m : mdp) :
  NewMDP initialState states terminals actions rewards transitions
    discountRate h = Normal (Some m, None, h') →
  well_formed m.
Proof.
  intros Hnew. apply NewMDP_constructed in Hnew as (Hcap & Hnil & _ & _ & Hkey).
  repeat split; [by rewrite Hcap| |done].
  apply (f_equal length) in Hnil.
  rewrite length_take, length_replicate in Hnil. rewrite Hcap. lia.
Qed.

(** ** Index/name agreement *)

(** C1. Index/name agreement is broken by construction and by removal.
    [NewMDP] appends the initial state after the 128 nil slots, so slot 0
    is nil while both maps hold the state; and after [RemoveStateByIndex]
    the cleared slot is nil while both maps still hold the removed state. *)
Theorem index_name_agreement_broken :
  (∃ m h s,
     NewMDP "s0" [] [] [] ∅ ∅ f32_one 1 = Normal (Some m, None, h) ∧
     mdp_stateIndexMap m !! 0 = Some (Some s) ∧
     mdp_stateMap m !! "s0" = Some (Some s) ∧
     mdp_states m !! 0%nat = Some None ∧
     mdp_states m !! 128%nat = Some (Some s)) ∧
  (∃ m1 h1 m2 s,
     SetState default_mdp "A" 3 false f32_one ∅ 1 = Normal (None, m1, h1) ∧
     mdp_states m1 !! 3%nat = Some (Some s) ∧
     RemoveStateByIndex m1 3 = Normal (None, m2) ∧
     mdp_states m2 !! 3%nat = Some None ∧
     mdp_stateIndexMap m2 !! 3 = Some (Some s) ∧
     mdp_stateMap m2 !! "A" = Some (Some s)).
Proof.
  split.
  - do 3 eexists. split; [vm_compute; reflexivity|].
    repeat split; vm_compute; reflexivity.
  - do 4 eexists. split; [vm_compute; reflexivity|].
    split; [vm_compute; reflexivity|].
    split; [vm_compute; reflexivity|].
    repeat split; vm_compute; reflexivity.
Qed.

(** ** Removing actions *)

(** Removing an action that is not registered reports it and changes
    nothing. *)
Lemma RemoveAction_not_found (m : mdp) (name : string) :
  getAction m name = None →
  RemoveAction m name =
  Normal (errors_New ("action with name " +:+ name +:+ " doesn't exist"), m).
Proof. unfold RemoveAction. by intros ->. Qed.

(** The cascade visits every slot of the backing array.  A slot that holds
    nil, or a state without an entry in the transition table, makes the
    removal of a registered action panic. *)
Lemma RemoveAction_panics (m : mdp) (name : string) (s : State) :
  getAction m name ≠ None →
  s ∈ mdp_states m →
  transitionTable_Get (mdp_transitions m) s = None →
  RemoveAction m name = Panics NilDereference.
Proof.
  intros Ha Hin Hs. unfold RemoveAction.
  destruct (getAction m name) as [a|]; [|done]. simpl.
  rewrite (for_range_panics (λ t, transitionTable_Get t s = None)
             _ _ s NilDereference); try done.
  - intros t Ht. by rewrite Ht.
  - intros y t c Ht.
    destruct (transitionTable_Get t y) as [e|] eqn:Hy; simpl; [|done].
    intros [= <-]. eexists. split; [done|].
    rewrite transitionTable_Get_lookup in *. simpl.
    rewrite lookup_insert_ne; [done|]. intros ->. congruence.
  - intros y t q _.
    destruct (transitionTable_Get t y) as [e|]; simpl; [done|]. by intros [= <-].
Qed.

(** Whatever the arguments, no registered action can be removed from a
    freshly constructed aggregate: the cascade panics at slot 0. *)
Lemma RemoveAction_panics_after_NewMDP (initialState : string)
    (states terminals actions : list string) (rewards : gmap string float32)
    (transitions : gmap string (gmap string Transition))
    (discountRate : float32) (h h' : addr) (m : mdp) (a : string) :
  NewMDP initialState states terminals actions rewards transitions
    discountRate h = Normal (Some m, None, h') →
  getAction m a ≠ None →
  RemoveAction m a = Panics NilDereference.
Proof.
  intros Hnew Ha. apply NewMDP_constructed in Hnew as (_ & Hnil & Htt & _).
  apply (RemoveAction_panics m a None); [done| |done].
  apply list_elem_of_lookup. exists 0%nat.
  rewrite <- (lookup_take_lt _ 128) by lia. by rewrite Hnil.
Qed.

(** C3. One state with a transition for action "R" is registered in a
    default aggregate.  "R" is then a registered action, and removing it
    panics at the first nil slot of the backing array instead of succeeding;
    removing an unregistered action reports that it doesn't exist. *)
Theorem RemoveAction_panics_on_nil_slot :
  ∃ m h,
    SetState default_mdp "TL" 0 false f32_zero
      {["R" := NewTransition f32_one (Some (mkState 0 "TC" 1 false))]} 1
    = Normal (None, m, h) ∧
    getAction m "R" = Some (mkAction 2 "R") ∧
    mdp_states m !! 1%nat = Some None ∧
    RemoveAction m "R" = Panics NilDereference ∧
    RemoveAction m "L" =
      Normal (errors_New "action with name L doesn't exist", m).
Proof.
  do 2 eexists. split; [vm_compute; reflexivity|].
  repeat split; vm_compute; reflexivity.
Qed.

(** * Further properties *)

(** ** Rewards table: removal, overwriting, construction from a table *)

(** X1. [Remove] on a state object never fails and is idempotent: a second
    removal changes nothing more; afterwards the state reads as the zero
    reward, and the reward of every other index is what it was. *)
Theorem rewardsTable_Remove_idempotent (r : rewardsTable) (s : state) :
  ∃ r1,
    rewardsTable_Remove r (Some s) = Normal r1 ∧
    rewardsTable_Remove r1 (Some s) = Normal r1 ∧
    rewardsTable_Get r1 (Some s) = Normal f32_zero ∧
    (∀ s' : state, state_index s' ≠ state_index s →
       rewardsTable_Get r1 (Some s') = rewardsTable_Get r (Some s')).
Proof.
  eexists. split; [reflexivity|].
  unfold rewardsTable_Remove, rewardsTable_Get. simpl.
  rewrite !delete_delete_eq, lookup_delete_eq. repeat split.
  intros s' Hne. by rewrite lookup_delete_ne.
Qed.

(** X2. The last [Set] at an index wins, whichever state object carries the
    index: the reward and the state kept for rendering are those of the
    second call, as if the first had never happened; rewards at other
    indices are not touched. *)
Theorem rewardsTable_Set_last_write_wins (r : rewardsTable) (s1 s2 : state)
    (x y : float32) :
  state_index s1 = state_index s2 →
  ∃ r1 r2,
    rewardsTable_Set r (Some s1) x = Normal r1 ∧
    rewardsTable_Set r1 (Some s2) y = Normal r2 ∧
    rewardsTable_Set r (Some s2) y = Normal r2 ∧
    rewardsTable_Get r2 (Some s1) = Normal y ∧
    rewardsTable_stateMap r2 !! state_index s1 = Some (Some s2) ∧
    (∀ s' : state, state_index s' ≠ state_index s1 →
       rewardsTable_Get r2 (Some s') = rewardsTable_Get r (Some s')).
Proof.
  intros Hidx. do 2 eexists. split; [reflexivity|]. split; [reflexivity|].
  unfold rewardsTable_Set, rewardsTable_Get. simpl. rewrite <- Hidx.
  rewrite !insert_insert_eq, !lookup_insert_eq. repeat split.
  intros s' Hne. by rewrite lookup_insert_ne.
Qed.

Lemma rewardsTable_Set_last_write_wins_witness :
  ∃ r2,
    rewardsTable_Set (mkRewardsTable {[7 := f32_one]} {[7 := Some (mkState 1 "A" 7 false)]})
      (Some (mkState 2 "B" 7 true)) f32_zero = Normal r2 ∧
    rewardsTable_Get r2 (Some (mkState 1 "A" 7 false)) = Normal f32_zero ∧
    rewardsTable_stateMap r2 !! 7 = Some (Some (mkState 2 "B" 7 true)).
Proof.
  destruct (rewardsTable_Set_last_write_wins
              (mkRewardsTable {[7 := f32_one]} {[7 := Some (mkState 1 "A" 7 false)]})
              (mkState 1 "A" 7 false) (mkState 2 "B" 7 true) f32_one f32_zero
              eq_refl)
    as (r1 & r2 & _ & _ & H3 & H4 & H5 & _).
  exists r2. repeat split; assumption.
Defined.

(** The loop of [NewRewards] over a list of pairs with non-nil states of
    pairwise different indices stores every pair and nothing else. *)
Lemma NewRewards_loop (l : list (State * float32)) :
  Forall (λ p, p.1 ≠ None) l →
  NoDup ((λ p, default 0 (state_index <$> p.1)) <$> l) →
  ∀ r0, ∃ r',
    for_range (R := unit) l
      (λ '(s, reward) t, t' ← rewardsTable_Set t s reward; Normal (Continue t'))
      r0 = Normal (Continue r') ∧
    (∀ st x, (Some st, x) ∈ l →
       rewardsTable_table r' !! state_index st = Some x ∧
       rewardsTable_stateMap r' !! state_index st = Some (Some st)) ∧
    (∀ i, (∀ st x, (Some st, x) ∈ l → state_index st ≠ i) →
       rewardsTable_table r' !! i = rewardsTable_table r0 !! i ∧
       rewardsTable_stateMap r' !! i = rewardsTable_stateMap r0 !! i).
Proof.
  induction 1 as [|[s x] l Hs _ IH]; intros Hnd r0; cbn [for_range].
  - exists r0. split; [done|]. split; [|done].
    intros st x Hin. by apply elem_of_nil in Hin.
  - destruct s as [st|]; [|done]. simpl in Hnd.
    apply NoDup_cons in Hnd as [Hfresh Hnd].
    cbn [rewardsTable_Set state_Index mbind outcome_bind].
    destruct (IH Hnd (mkRewardsTable
                        (<[state_index st := x]> (rewardsTable_table r0))
                        (<[state_index st := Some st]> (rewardsTable_stateMap r0))))
      as (r' & -> & Hin & Hout).
    exists r'. split; [done|]. split.
    + intros st' x' Hel. apply elem_of_cons in Hel as [[= -> ->]|Hel].
      * destruct (Hout (state_index st)) as [-> ->]; simpl.
        -- intros st' x' Hel Heq. apply Hfresh.
           apply list_elem_of_fmap. exists (Some st', x'). by rewrite <- Heq.
        -- by rewrite !lookup_insert_eq.
      * by apply Hin.
    + intros i Hi. destruct (Hout i) as [-> ->]; simpl.
      * intros st' x' Hel. apply (Hi st' x'). by right.
      * rewrite !lookup_insert_ne; [done| |]; intros <-;
          by eapply (Hi st x); [left|].
Qed.

(** X3. [NewRewards] from a table whose keys are non-nil state objects of
    pairwise different indices returns a table that reads every state back
    with its reward, keeps each state for rendering, and reads as zero at
    every index not in the table.  A nil key makes the constructor panic. *)
Theorem NewRewards_from_table (tbl : gmap State float32) :
  (tbl !! None = None →
   (∀ s1 s2 : state, is_Some (tbl !! Some s1) → is_Some (tbl !! Some s2) →
      state_index s1 = state_index s2 → s1 = s2) →
   ∃ r,
     NewRewards (Some tbl) = Normal r ∧
     (∀ (s : state) x, tbl !! Some s = Some x →
        rewardsTable_Get r (Some s) = Normal x ∧
        rewardsTable_stateMap r !! state_index s = Some (Some s)) ∧
     (∀ s : state,
        (∀ s' : state, is_Some (tbl !! Some s') → state_index s' ≠ state_index s) →
        rewardsTable_Get r (Some s) = Normal f32_zero)) ∧
  (is_Some (tbl !! None) → NewRewards (Some tbl) = Panics NilDereference).
Proof.
  split.
  - intros Hnil Hinj. unfold NewRewards.
    assert (Hkeys : ∀ p, p ∈ map_to_list tbl → ∃ st, p.1 = Some st ∧ is_Some (tbl !! Some st)).
    { intros [[st|] x] Hel; apply elem_of_map_to_list in Hel; [|congruence].
      exists st. split; [done|]. by exists x. }
    destruct (NewRewards_loop (map_to_list tbl)) with (r0 := mkRewardsTable ∅ ∅)
      as (r' & -> & Hin & Hout).
    + apply Forall_forall. intros p Hel.
      destruct (Hkeys p Hel) as (st & -> & _). done.
    + apply NoDup_fmap_2_strong; [|apply NoDup_map_to_list].
      intros p q Hp Hq Heq.
      destruct (Hkeys p Hp) as (st & Hst & Hsome).
      destruct (Hkeys q Hq) as (st' & Hst' & Hsome').
      rewrite Hst, Hst' in Heq. simpl in Heq.
      assert (p.1 = q.1) as Hfst by (rewrite Hst, Hst'; f_equal; by apply Hinj).
      destruct p as [k x], q as [k' x']; simpl in *. subst k'.
      apply elem_of_map_to_list in Hp, Hq. congruence.
    + cbn [mbind outcome_bind]. exists r'. split; [done|]. split.
      * intros s x Hs. unfold rewardsTable_Get. simpl.
        destruct (Hin s x) as [-> ->]; [|done].
        by apply elem_of_map_to_list.
      * intros s Hs. unfold rewardsTable_Get. simpl.
        destruct (Hout (state_index s)) as [-> _];
          [|simpl; by rewrite lookup_empty].
        intros st x Hel. apply Hs. apply elem_of_map_to_list in Hel. by exists x.
  - intros [x Hx]. unfold NewRewards.
    rewrite (for_range_panics (λ _, True) _ _ (None, x) NilDereference); try done.
    + by apply elem_of_map_to_list.
    + intros [s y] t c _. destruct s as [st|]; [|done]. cbn.
      intros [= <-]. eauto.
    + intros [s y] t q _. destruct s as [st|]; [done|]. cbn. by intros [= <-].
Qed.

Lemma NewRewards_from_table_witness :
  ∃ r,
    NewRewards (Some {[Some (mkState 1 "A" 0 false) := f32_one;
                       Some (mkState 2 "B" 1 true) := f32_zero]}) = Normal r ∧
    rewardsTable_Get r (Some (mkState 1 "A" 0 false)) = Normal f32_one ∧
    rewardsTable_Get r (Some (mkState 9 "C" 5 false)) = Normal f32_zero.
Proof.
  destruct (NewRewards_from_table
              {[Some (mkState 1 "A" 0 false) := f32_one;
                Some (mkState 2 "B" 1 true) := f32_zero]}) as [Hok _].
  destruct Hok as (r & Hr & Hin & Hout).
  - vm_compute. reflexivity.
  - intros s1 s2 [x1 H1] [x2 H2] Hidx.
    apply lookup_insert_Some in H1 as [[[= <-] _]|[_ H1]];
      apply lookup_insert_Some in H2 as [[[= <-] _]|[_ H2]]; try done.
    + apply lookup_singleton_Some in H2 as [[= <-] _]. done.
    + apply lookup_singleton_Some in H1 as [[= <-] _]. done.
    + apply lookup_singleton_Some in H1 as [[= <-] _].
      apply lookup_singleton_Some in H2 as [[= <-] _]. done.
  - exists r. split; [exact Hr|]. split.
    + apply (Hin (mkState 1 "A" 0 false) f32_one). vm_compute. reflexivity.
    + apply Hout. intros s' [x Hs'] Hidx.
      apply lookup_insert_Some in Hs' as [[[= <-] _]|[_ Hs']]; [done|].
      apply lookup_singleton_Some in Hs' as [[= <-] _]. done.
Defined.

(** ** Transition table entries *)

(** X4. On an entry over a made map, [Set] followed by [Get] of the same
    action object returns the transition just stored, a second [Set]
    replaces the first, [Remove] makes [Get] return nil and is idempotent,
    and none of them touches what is stored under another action object.
    On an entry over a nil map [Get] returns nil for every action, [Remove]
    does nothing and [Set] panics on the assignment.  All three panic on a
    nil entry. *)
Theorem transitionTableEntry_Set_Get_Remove (σ : Ptr.store) (e : addr)
    (a : Action) (p q : float32) (s1 s2 : State) :
  (∀ r, Ptr.entry σ e = Some r →
     ∃ σ1 σ2 σ3,
       Ptr.transitionTableEntry_Set σ (Some e) a p s1 = Normal σ1 ∧
       Ptr.transitionTableEntry_Get σ1 (Some e) a = Normal (NewTransition p s1) ∧
       Ptr.transitionTableEntry_Set σ1 (Some e) a q s2 = Normal σ2 ∧
       Ptr.transitionTableEntry_Get σ2 (Some e) a = Normal (NewTransition q s2) ∧
       Ptr.transitionTableEntry_Remove σ2 (Some e) a = Normal σ3 ∧
       Ptr.transitionTableEntry_Get σ3 (Some e) a = Normal None ∧
       Ptr.transitionTableEntry_Remove σ3 (Some e) a = Normal σ3 ∧
       (∀ b, b ≠ a →
          Ptr.transitionTableEntry_Get σ1 (Some e) b
          = Ptr.transitionTableEntry_Get σ (Some e) b ∧
          Ptr.transitionTableEntry_Get σ3 (Some e) b
          = Ptr.transitionTableEntry_Get σ (Some e) b)) ∧
  (Ptr.entry σ e = None →
     Ptr.transitionTableEntry_Set σ (Some e) a p s1 = Panics AssignToNilMap ∧
     (∀ b, Ptr.transitionTableEntry_Get σ (Some e) b = Normal None) ∧
     Ptr.transitionTableEntry_Remove σ (Some e) a = Normal σ) ∧
  Ptr.transitionTableEntry_Set σ None a p s1 = Panics NilDereference ∧
  Ptr.transitionTableEntry_Get σ None a = Panics NilDereference ∧
  Ptr.transitionTableEntry_Remove σ None a = Panics NilDereference.
Proof.
  split; [|split; [|done]].
  - intros r Hr.
    set (c := Ptr.contents σ (Some r)).
    exists (Ptr.mkStore (<[r := <[a := NewTransition p s1]> c]> (Ptr.store_maps σ))
                        (Ptr.store_entries σ)).
    exists (Ptr.mkStore (<[r := <[a := NewTransition q s2]> c]> (Ptr.store_maps σ))
                        (Ptr.store_entries σ)).
    exists (Ptr.mkStore (<[r := delete a c]> (Ptr.store_maps σ))
                        (Ptr.store_entries σ)).
    unfold Ptr.transitionTableEntry_Set, Ptr.transitionTableEntry_Get,
      Ptr.transitionTableEntry_Remove, Ptr.map_assign, Ptr.map_delete.
    unfold Ptr.entry in *. simpl. rewrite Hr. simpl.
    rewrite !lookup_insert_eq. simpl.
    rewrite !insert_insert_eq, delete_insert_eq, delete_delete_eq.
    rewrite !lookup_insert_eq, lookup_delete_eq.
    do 7 (split; [done|]).
    intros b Hb. rewrite lookup_insert_ne, lookup_delete_ne by done. done.
  - intros Hnil.
    unfold Ptr.transitionTableEntry_Set, Ptr.transitionTableEntry_Get,
      Ptr.transitionTableEntry_Remove. rewrite Hnil. simpl.
    split; [done|]. split; [|done]. intros b. by rewrite lookup_empty.
Qed.

Lemma transitionTableEntry_Set_Get_Remove_witness :
  ∃ e σ h σ1,
    Ptr.NewTransitionTableEntry None (Ptr.mkStore ∅ ∅) 1 = (Some e, σ, h) ∧
    Ptr.transitionTableEntry_Set σ (Some e) None f32_one None = Normal σ1 ∧
    Ptr.transitionTableEntry_Get σ1 (Some e) None
    = Normal (NewTransition f32_one None).
Proof.
  do 3 eexists.
  destruct (transitionTableEntry_Set_Get_Remove
              (Ptr.mkStore {[2%nat := ∅]} {[1%nat := Some 2%nat]}) 1%nat None
              f32_one f32_one None None) as [H _].
  destruct (H 2%nat eq_refl) as (σ1 & _ & _ & H1 & H2 & _).
  exists σ1. split; [reflexivity|]. split; [exact H1|exact H2].
Defined.

Lemma RemoveTransition_body_eq (next : state) (a : Action) (x : float32)
    (d : state) (e : transitionTableEntry) :
  RemoveTransition_body (Some next) (a, Some (mkTransition x (Some d))) e =
  Normal (Continue (if state_index d =? state_index next
                    then mkEntry (delete a (transitionTableEntry_entry e))
                    else e)).
Proof.
  unfold RemoveTransition_body. simpl.
  by destruct (state_index d =? state_index next).
Qed.

(** The loop of [RemoveTransition] over pairs with distinct actions whose
    transitions and destinations are non-nil deletes the action of every
    pair that leads to the index and nothing else. *)
Lemma RemoveTransition_loop (next : state) (l : list (Action * Transition)) :
  Forall (λ p, ∃ x d, p.2 = Some (mkTransition x (Some d))) l →
  NoDup l.*1 →
  ∀ e0, ∃ e',
    for_range l (RemoveTransition_body (Some next)) e0 = Normal (Continue e') ∧
    (∀ a tr, (a, tr) ∈ l → leads_to (state_index next) tr = true →
       transitionTableEntry_entry e' !! a = None) ∧
    (∀ a, (∀ tr, (a, tr) ∈ l → leads_to (state_index next) tr = false) →
       transitionTableEntry_entry e' !! a = transitionTableEntry_entry e0 !! a).
Proof.
  induction 1 as [|[a tr] l (x & d & Htr) _ IH]; intros Hnd e0; cbn [for_range].
  - exists e0. split; [done|]. split; [|done].
    intros a tr Hin. by apply elem_of_nil in Hin.
  - simpl in Htr. subst tr. rewrite RemoveTransition_body_eq.
    cbn [mbind outcome_bind]. simpl in Hnd.
    apply NoDup_cons in Hnd as [Hfresh Hnd].
    assert (Hnot : ∀ tr, (a, tr) ∈ l → leads_to (state_index next) tr = false).
    { intros tr Hin. exfalso. apply Hfresh.
      apply list_elem_of_fmap. by exists (a, tr). }
    destruct (IH Hnd (if state_index d =? state_index next
                      then mkEntry (delete a (transitionTableEntry_entry e0))
                      else e0)) as (e' & -> & Hdel & Hkeep).
    exists e'. split; [done|]. split.
    + intros b tr Hin Hl. apply elem_of_cons in Hin as [[= -> ->]|Hin];
        [|by eapply Hdel].
      rewrite Hkeep by done. simpl in Hl. rewrite Hl. simpl.
      apply lookup_delete_eq.
    + intros b Hb. rewrite Hkeep by (intros tr Hin; apply Hb; by right).
      destruct (state_index d =? state_index next) eqn:Heq; [|done].
      simpl. apply lookup_delete_ne. intros ->.
      specialize (Hb _ (list_elem_of_here _ _)). simpl in Hb. congruence.
Qed.

(** What [RemoveTransition] leaves in an entry whose transitions and
    destinations are all non-nil. *)
Lemma transitionTableEntry_RemoveTransition_lookup
    (e : transitionTableEntry) (next : state) :
  map_Forall (λ _ tr, ∃ x d, tr = Some (mkTransition x (Some d)))
             (transitionTableEntry_entry e) →
  ∃ e',
    transitionTableEntry_RemoveTransition (Some e) (Some next) = Normal e' ∧
    ∀ a, transitionTableEntry_entry e' !! a =
         match transitionTableEntry_entry e !! a with
         | Some tr => if leads_to (state_index next) tr then None else Some tr
         | None => None
         end.
Proof.
  intros Hok. unfold transitionTableEntry_RemoveTransition.
  destruct (RemoveTransition_loop next (map_to_list (transitionTableEntry_entry e)))
    with (e0 := e) as (e' & Hloop & Hdel & Hkeep).
  - apply Forall_forall. intros [a tr] Hin.
    apply elem_of_map_to_list in Hin. by eapply Hok.
  - apply NoDup_fst_map_to_list.
  - unfold RemoveTransition_body in Hloop. rewrite Hloop.
    cbn [mbind outcome_bind]. exists e'. split; [done|]. intros a.
    destruct (transitionTableEntry_entry e !! a) as [tr|] eqn:Ha.
    + destruct (leads_to (state_index next) tr) eqn:Hl.
      * apply (Hdel a tr); [|done]. by apply elem_of_map_to_list.
      * rewrite Hkeep; [done|]. intros tr' Hin.
        apply elem_of_map_to_list in Hin. congruence.
    + rewrite Hkeep; [done|]. intros tr' Hin.
      apply elem_of_map_to_list in Hin. congruence.
Qed.

(** X5. [RemoveTransition] on an entry whose transitions and destinations
    are all non-nil removes exactly the transitions whose destination
    carries the index of the given state -- whichever state object that
    destination is -- and keeps all others.  With a nil state to compare
    with, it panics as soon as the entry holds a transition. *)
Theorem transitionTableEntry_RemoveTransition_by_index
    (e : transitionTableEntry) (next : state) :
  map_Forall (λ _ tr, ∃ x d, tr = Some (mkTransition x (Some d)))
             (transitionTableEntry_entry e) →
  (∃ e',
     transitionTableEntry_RemoveTransition (Some e) (Some next) = Normal e' ∧
     ∀ a, transitionTableEntry_entry e' !! a =
          match transitionTableEntry_entry e !! a with
          | Some tr => if leads_to (state_index next) tr then None else Some tr
          | None => None
          end) ∧
  (transitionTableEntry_entry e ≠ ∅ →
   transitionTableEntry_RemoveTransition (Some e) None = Panics NilDereference).
Proof.
  intros Hok. split; [by apply transitionTableEntry_RemoveTransition_lookup|].
  intros Hne. unfold transitionTableEntry_RemoveTransition.
  destruct (map_to_list (transitionTableEntry_entry e)) as [|[a tr] l] eqn:Hl.
  { by apply map_to_list_empty_iff in Hl. }
  assert (Hin : (a, tr) ∈ map_to_list (transitionTableEntry_entry e))
    by (rewrite Hl; by left).
  apply elem_of_map_to_list in Hin.
  destruct (Hok a tr Hin) as (x & d & ->). done.
Qed.

Lemma transitionTableEntry_RemoveTransition_by_index_witness :
  ∃ e',
    transitionTableEntry_RemoveTransition
      (Some (mkEntry
         {[Some (mkAction 1 "U") :=
             NewTransition f32_one (Some (mkState 5 "old goal" 8 false));
           Some (mkAction 2 "R") :=
             NewTransition f32_one (Some (mkState 6 "B" 3 false))]}))
      (Some (mkState 7 "goal" 8 true)) = Normal e' ∧
    transitionTableEntry_entry e' !! Some (mkAction 1 "U") = None ∧
    transitionTableEntry_entry e' !! Some (mkAction 2 "R")
    = Some (NewTransition f32_one (Some (mkState 6 "B" 3 false))).
Proof.
  destruct (transitionTableEntry_RemoveTransition_by_index
              (mkEntry
                 {[Some (mkAction 1 "U") :=
                     NewTransition f32_one (Some (mkState 5 "old goal" 8 false));
                   Some (mkAction 2 "R") :=
                     NewTransition f32_one (Some (mkState 6 "B" 3 false))]})
              (mkState 7 "goal" 8 true)) as [(e' & He' & Hlk) _].
  - intros a tr Ha. simpl in Ha.
    apply lookup_insert_Some in Ha as [[_ <-]|[_ Ha]]; [by eauto|].
    apply lookup_singleton_Some in Ha as [_ <-]. by eauto.
  - exists e'. split; [exact He'|]. split.
    + rewrite Hlk. vm_compute. reflexivity.
    + rewrite Hlk. vm_compute. reflexivity.
Defined.

(** ** Transition table: keyed by the state object *)

(** X6. The transition table is keyed by the state object, not by its
    index or name: an entry stored under one state object is found through
    that object and is neither found nor removed nor updated through another
    object, even one with the same name, index and terminal flag. *)
Theorem transitionTable_keyed_by_object (t : transitionTable) (s1 s2 : state)
    (e : transitionTableEntry) (a : Action) (p : float32) (d : State) :
  state_addr s1 ≠ state_addr s2 →
  let t1 := transitionTable_Set t (Some s1) (Some e) in
  transitionTable_Get t1 (Some s1) = Some e ∧
  transitionTable_Get t1 (Some s2) = transitionTable_Get t (Some s2) ∧
  transitionTable_Get (transitionTable_Remove t1 (Some s2)) (Some s1) = Some e ∧
  transitionTable_Get (transitionTable_Remove t1 (Some s1)) (Some s1) = None ∧
  (transitionTable_Get t (Some s2) = None →
   transitionTable_Update t1 (Some s2) a p d = Panics NilDereference).
Proof.
  intros Haddr t1. subst t1.
  assert (Some s1 ≠ Some s2) as Hne by (intros [= ->]; done).
  rewrite !transitionTable_Get_lookup. unfold transitionTable_Update. simpl.
  rewrite lookup_delete_eq, lookup_delete_ne, lookup_insert_eq,
    lookup_insert_ne by done.
  repeat split; try done. intros Hs2.
  destruct (transitionTable_table t !! Some s2) as [[e2|]|]; done.
Qed.

Lemma transitionTable_keyed_by_object_witness :
  transitionTable_Get
    (transitionTable_Set (NewTransitionTable None)
       (Some (mkState 1 "A" 0 false)) (NewTransitionTableEntry None))
    (Some (mkState 2 "A" 0 false)) = None ∧
  transitionTable_Get
    (transitionTable_Set (NewTransitionTable None)
       (Some (mkState 1 "A" 0 false)) (NewTransitionTableEntry None))
    (Some (mkState 1 "A" 0 false)) = Some (mkEntry ∅).
Proof.
  destruct (transitionTable_keyed_by_object (NewTransitionTable None)
              (mkState 1 "A" 0 false) (mkState 2 "A" 0 false) (mkEntry ∅)
              None f32_one None) as (H1 & H2 & _).
  - simpl. lia.
  - split; [exact H2|exact H1].
Defined.

(** ** Actions made in bulk *)

(** X7. [NewActions] returns one non-nil action object per name, in the
    order of the names and carrying them; the objects are pairwise distinct
    even when names repeat, and the allocator advances by the number of
    names. *)
Theorem NewActions_spec (names : list string) (h : addr) :
  ∃ actions,
    NewActions names h = (actions, (h + length names)%nat) ∧
    length actions = length names ∧
    (∀ i name, names !! i = Some name →
       actions !! i = Some (Some (mkAction (h + i) name))) ∧
    NoDup actions.
Proof.
  revert h. induction names as [|name names IH]; intros h; simpl.
  - exists []. rewrite Nat.add_0_r. split; [done|]. split; [done|].
    split; [|constructor]. intros i name Hi. by rewrite lookup_nil in Hi.
  - destruct (IH (S h)) as (actions & -> & Hlen & Hat & Hnd).
    eexists. split; [f_equal; lia|]. split; [simpl; by rewrite Hlen|]. split.
    + intros [|i] n Hi; simpl in *.
      * injection Hi as <-. by rewrite Nat.add_0_r.
      * replace (h + S i)%nat with (S h + i)%nat by lia. by apply Hat.
    + apply NoDup_cons. split; [|done].
      intros Hin. apply list_elem_of_lookup in Hin as [i Hi].
      destruct (names !! i) as [n|] eqn:Hn.
      * rewrite (Hat i n Hn) in Hi. injection Hi as Hi _. lia.
      * apply lookup_ge_None in Hn. rewrite <- Hlen in Hn.
        apply lookup_ge_None in Hn. congruence.
Qed.

(** ** Rendering a state *)

Lemma string_of_int_ascii (v : Z) :
  0 ≤ v ≤ 127 → string_of_int v = String (byte v) EmptyString.
Proof.
  intros [H0 H1]. unfold string_of_int.
  apply Z.leb_le in H0, H1. by rewrite H0, H1.
Qed.

(** X8. [String] renders the index of a state as the character with that
    code point, not as a number: an index from 0 to 127 becomes the single
    byte of that value, and every index that is no valid code point
    (negative, a surrogate, above U+10FFFF) becomes the same replacement
    character, so that two states with the same name and different such
    indices render identically. *)
Theorem state_String_index_as_rune (st1 st2 : state) :
  (0 ≤ state_index st1 ≤ 127 →
   state_String (Some st1) =
   Normal ("S_" +:+ String (byte (state_index st1)) EmptyString +:+ ": " +:+
           state_name st1)) ∧
  (state_index st1 < 0 ∨ 1114111 < state_index st1 ∨
     55296 ≤ state_index st1 ≤ 57343 →
   state_index st2 < 0 ∨ 1114111 < state_index st2 ∨
     55296 ≤ state_index st2 ≤ 57343 →
   state_name st1 = state_name st2 →
   state_String (Some st1) = state_String (Some st2) ∧
   state_String (Some st1) =
   Normal ("S_" +:+ RuneError +:+ ": " +:+ state_name st1)).
Proof.
  assert (Hbad : ∀ v, v < 0 ∨ 1114111 < v ∨ 55296 ≤ v ≤ 57343 →
                      string_of_int v = RuneError).
  { intros v Hv. unfold string_of_int.
    destruct ((0 <=? v) && (v <=? 127)) eqn:H1; [lia|].
    destruct ((0 <=? v) && (v <=? 2047)) eqn:H2; [lia|].
    destruct ((v <? 0) || (1114111 <? v) || ((55296 <=? v) && (v <=? 57343)))
      eqn:H3; [done|lia]. }
  split.
  - intros Hv. unfold state_String. by rewrite string_of_int_ascii.
  - intros H1 H2 Hname. unfold state_String.
    by rewrite (Hbad _ H1), (Hbad _ H2), Hname.
Qed.

Lemma state_String_index_as_rune_witness :
  state_String (Some (mkState 1 "TL" 65 false)) = Normal "S_A: TL" ∧
  state_String (Some (mkState 1 "TL" (-1) false))
  = state_String (Some (mkState 2 "TL" 2000000 false)).
Proof.
  destruct (state_String_index_as_rune (mkState 1 "TL" 65 false)
              (mkState 1 "TL" 65 false)) as [Hascii _].
  destruct (state_String_index_as_rune (mkState 1 "TL" (-1) false)
              (mkState 2 "TL" 2000000 false)) as [_ Hbad].
  split.
  - rewrite Hascii by (simpl; lia). reflexivity.
  - apply Hbad; simpl; [lia|lia|reflexivity].
Defined.

(** ** The action registry *)

(** X9. [AddAction] registers a name at most once.  For a free name it
    allocates one action object carrying the name, registers it, changes
    nothing else, and a second [AddAction] of the name then fails and
    changes nothing; for a taken name it fails at once. *)
Theorem AddAction_registers_once (m : mdp) (a : string) (h : addr) :
  (getAction m a = None →
   ∃ m',
     AddAction m a h = (None, m', S h) ∧
     getAction m' a = Some (mkAction h a) ∧
     (∀ b, b ≠ a → getAction m' b = getAction m b) ∧
     m' = set_actions (mdp_actions m') m ∧
     AddAction m' a (S h) =
       (errors_New ("action with name " +:+ a +:+ " already exists"), m', S h)) ∧
  (getAction m a ≠ None →
   AddAction m a h =
     (errors_New ("action with name " +:+ a +:+ " already exists"), m, h)).
Proof.
  unfold AddAction. split.
  - intros ->. cbn [NewAction]. eexists. split; [reflexivity|].
    unfold getAction. simpl. rewrite lookup_insert_eq. repeat split.
    intros b Hb. by rewrite lookup_insert_ne.
  - intros Ha. by destruct (getAction m a).
Qed.

(** X10. The object variants go by the name of the object.
    [AddActionObject] registers the object under its own name when the name
    is free and fails when any object, the same or another, holds the name;
    [RemoveActionObject] of an object whose name is not registered reports
    it; both panic on a nil action. *)
Theorem action_objects_go_by_name (m : mdp) (ac : action) :
  (getAction m (action_name ac) = None →
   ∃ m',
     AddActionObject m (Some ac) = Normal (None, m') ∧
     getAction m' (action_name ac) = Some ac ∧
     (∀ b, b ≠ action_name ac → getAction m' b = getAction m b) ∧
     m' = set_actions (mdp_actions m') m ∧
     RemoveActionObject m (Some ac) =
       Normal (errors_New ("action with name " +:+ action_name ac +:+
                           " doesn't exist"), m)) ∧
  (getAction m (action_name ac) ≠ None →
   AddActionObject m (Some ac) =
     Normal (errors_New ("action " +:+ action_name ac +:+ " already exists"), m)) ∧
  AddActionObject m None = Panics NilDereference ∧
  RemoveActionObject m None = Panics NilDereference.
Proof.
  unfold AddActionObject, RemoveActionObject, RemoveAction.
  cbn [action_Name mbind outcome_bind]. split; [|split; [|done]].
  - intros ->. eexists. split; [reflexivity|].
    unfold getAction. simpl. rewrite lookup_insert_eq. repeat split.
    intros b Hb. by rewrite lookup_insert_ne.
  - intros Ha. by destruct (getAction m (action_name ac)).
Qed.

(** ** The discount rate *)

(** X11. [SetDiscountRate] rejects every zero, every infinity and every
    negative number, leaving the aggregate as it was, and accepts 1.  A
    positive finite rate is accepted unless 1 compares less than it.  NaN
    passes both comparisons of the check and is stored.  An accepted rate is
    the only field written. *)
Theorem SetDiscountRate_validation (m : mdp) :
  let rejected d :=
    SetDiscountRate m d = (errors_New "discount rate must be in (0, 1.0]", m) in
  let accepted d := SetDiscountRate m d = (None, set_discountRate d m) in
  (∀ s, rejected (S754_zero s)) ∧
  (∀ s, rejected (S754_infinity s)) ∧
  (∀ mant e, rejected (S754_finite true mant e)) ∧
  (∀ mant e,
     if SFltb f32_one (S754_finite false mant e)
     then rejected (S754_finite false mant e)
     else accepted (S754_finite false mant e)) ∧
  accepted f32_one ∧
  accepted S754_nan.
Proof.
  intros rejected accepted. subst rejected accepted. cbn beta.
  unfold SetDiscountRate, discount_out_of_range, f32_le, f32_gt.
  split; [by intros []|]. split; [by intros []|]. split; [done|].
  split; [|done]. intros mant e.
  assert (SFleb (S754_finite false mant e) f32_zero = false) as -> by done.
  cbn [orb]. by destruct (SFltb f32_one (S754_finite false mant e)).
Qed.

(** ** What a registration writes *)

(** The fields after a successful [register_state]: the maps hold the new
    state, the rewards table holds its reward, the state found at the index
    before has lost its reward and transitions, and the registry, the
    initial state and the discount rate are untouched. *)
Lemma register_state_fields (m m1 : mdp) (st : state) (name : string)
    (reward : float32) :
  register_state m (Some st) name (state_index st) reward = Normal (None, m1) →
  mdp_stateMap m1 = <[name := Some st]> (mdp_stateMap m) ∧
  mdp_stateIndexMap m1 = <[state_index st := Some st]> (mdp_stateIndexMap m) ∧
  mdp_rewards m1 =
    mkRewardsTable
      (<[state_index st := reward]>
         (rewardsTable_table (mdp_rewards (without_state_at m (state_index st)))))
      (<[state_index st := Some st]>
         (rewardsTable_stateMap (mdp_rewards (without_state_at m (state_index st))))) ∧
  mdp_transitions m1 = mdp_transitions (without_state_at m (state_index st)) ∧
  mdp_actions m1 = mdp_actions m ∧
  mdp_initialState m1 = mdp_initialState m ∧
  mdp_discountRate m1 = mdp_discountRate m.
Proof.
  rewrite register_state_unfold.
  destruct (appendStateToList _ _) as [[[err|] m0]|] eqn:Happ;
    cbn [mbind outcome_bind]; try done.
  intros [= <-]. apply appendStateToList_frame in Happ. rewrite Happ. simpl.
  unfold without_state_at. by destruct (getStateByIndex m (state_index st)).
Qed.

(** [appendStateToList] reports an error only for a negative index. *)
Lemma appendStateToList_no_error (m m1 : mdp) (st : state) (err : error) :
  appendStateToList m (Some st) = Normal (err, m1) →
  0 ≤ state_index st → err = None.
Proof.
  unfold appendStateToList. cbn [state_Index mbind outcome_bind].
  destruct (state_index st <? 0) eqn:Hneg; [apply Z.ltb_lt in Hneg; lia|].
  destruct (state_index st >=? mdp_statesCapacity m).
  - destruct (make_states _) as [l0|]; [|done]. cbn [mbind outcome_bind].
    destruct (copy_states _ _ _) as [l1|]; [|done]. cbn [mbind outcome_bind].
    destruct (slice_store _ _ _) as [l2|]; [|done]. cbn [mbind outcome_bind].
    by intros [= <- <-].
  - cbn [mbind outcome_bind].
    destruct (slice_store _ _ _) as [l2|]; [|done]. cbn [mbind outcome_bind].
    by intros [= <- <-].
Qed.

(** X12. [SetState] reports an error exactly when the index is negative or
    the name is empty -- the index is looked at first -- and then leaves the
    aggregate and the allocator as they were; no other failure is reported
    as an error. *)
Theorem SetState_error_iff (m m' : mdp) (name : string) (index : Z)
    (terminal : bool) (reward : float32) (ts : gmap string Transition)
    (h h' : addr) (err : error) :
  SetState m name index terminal reward ts h = Normal (err, m', h') →
  (index < 0 → err = errors_New "index must be non-negative") ∧
  (0 ≤ index → name = "" → err = errors_New "name must be provided") ∧
  (0 ≤ index → name ≠ "" → err = None) ∧
  (err ≠ None → m' = m ∧ h' = h).
Proof.
  unfold SetState.
  destruct (index <? 0) eqn:Hneg.
  { apply Z.ltb_lt in Hneg. intros [= <- <- <-]. repeat split; try done; lia. }
  apply Z.ltb_ge in Hneg.
  destruct (String.eqb name "") eqn:Hname.
  { apply String.eqb_eq in Hname. intros [= <- <- <-].
    repeat split; try done; lia. }
  apply String.eqb_neq in Hname. cbn [NewState].
  rewrite (register_state_unfold m (mkState h name index terminal)).
  destruct (appendStateToList _ _) as [[e0 m0]|] eqn:Happ; [|done].
  apply appendStateToList_no_error in Happ as ->; [|done].
  cbn [mbind outcome_bind].
  destruct (for_range _ _ _) as [c|] eqn:Hloop; [|done].
  apply SetState_loop_frame in Hloop as (acts & e' & h1 & ->).
  cbn [mbind outcome_bind]. intros [= <- <- <-].
  repeat split; try done; lia.
Qed.

Lemma SetState_error_iff_witness :
  SetState default_mdp "" (-1) false f32_one ∅ 1
  = Normal (errors_New "index must be non-negative", default_mdp, 1%nat) ∧
  (errors_New "index must be non-negative" ≠ None → default_mdp = default_mdp).
Proof.
  split; [reflexivity|].
  destruct (SetState_error_iff default_mdp default_mdp "" (-1) false f32_one ∅
              1%nat 1%nat (errors_New "index must be non-negative") eq_refl)
    as (_ & _ & _ & H).
  intros Hne. by destruct (H Hne).
Defined.

(** One round of the loop of [SetState], spelled out. *)
Lemma SetState_body_eq (n : string) (t : transition) (m : mdp)
    (e : transitionTableEntry) (h : addr) :
  SetState_body (n, Some t) (m, e, h) =
  Normal (Continue
    match getAction m n with
    | Some a =>
        (m, mkEntry (<[Some a := Some t]> (transitionTableEntry_entry e)), h)
    | None =>
        (set_actions (<[n := Some (mkAction h n)]> (mdp_actions m)) m,
         mkEntry (<[Some (mkAction h n) := Some t]> (transitionTableEntry_entry e)),
         S h)
    end).
Proof.
  unfold SetState_body. destruct t as [p d].
  destruct (getAction m n) as [a|] eqn:Ha; [done|].
  unfold AddActionObject.
  cbn [NewAction action_Name action_name mbind outcome_bind].
  by rewrite Ha.
Qed.

Lemma SetState_body_nil (n : string) (m : mdp) (e : transitionTableEntry)
    (h : addr) :
  SetState_body (n, None) (m, e, h) = Panics NilDereference.
Proof.
  unfold SetState_body. destruct (getAction m n) as [a|] eqn:Ha; [done|].
  unfold AddActionObject.
  cbn [NewAction action_Name action_name mbind outcome_bind].
  by rewrite Ha.
Qed.

(** The loop of [SetState] over pairs with distinct names, started in an
    aggregate whose registry is named: every name of the list ends up
    registered, registered names keep their objects, other names are not
    touched, and the entry holds each transition under the object registered
    for its name and is unchanged at every other key. *)
Lemma SetState_loop_spec (l : list (string * Transition)) :
  NoDup l.*1 →
  ∀ m e h c,
    registry_named m →
    for_range l SetState_body (m, e, h) = Normal c →
    ∃ m' e' h',
      c = Continue (m', e', h') ∧
      m' = set_actions (mdp_actions m') m ∧
      registry_named m' ∧
      (∀ n a, getAction m n = Some a → getAction m' n = Some a) ∧
      (∀ n, n ∉ l.*1 → getAction m' n = getAction m n) ∧
      (∀ n tr, (n, tr) ∈ l →
         ∃ a, getAction m' n = Some a ∧
              transitionTableEntry_entry e' !! Some a = Some tr) ∧
      (∀ k, (∀ n, n ∈ l.*1 → getAction m' n ≠ k) →
         transitionTableEntry_entry e' !! k = transitionTableEntry_entry e !! k).
Proof.
  induction l as [|[n tr] l IH]; intros Hnd m e h c Hreg; cbn [for_range].
  - intros [= <-]. exists m, e, h. rewrite set_actions_id.
    repeat split; try done. intros n tr Hin. by apply elem_of_nil in Hin.
  - simpl in Hnd. apply NoDup_cons in Hnd as [Hfresh Hnd].
    destruct tr as [t|]; [|by rewrite SetState_body_nil].
    rewrite SetState_body_eq. cbn [mbind outcome_bind].
    set (a := match getAction m n with Some a => a | None => mkAction h n end).
    set (m1 := match getAction m n with
               | Some _ => m
               | None => set_actions (<[n := Some (mkAction h n)]> (mdp_actions m)) m
               end).
    set (h1 := match getAction m n with Some _ => h | None => S h end).
    assert (Hstep : match getAction m n with
                    | Some a0 =>
                        (m, mkEntry (<[Some a0 := Some t]> (transitionTableEntry_entry e)), h)
                    | None =>
                        (set_actions (<[n := Some (mkAction h n)]> (mdp_actions m)) m,
                         mkEntry (<[Some (mkAction h n) := Some t]>
                                    (transitionTableEntry_entry e)), S h)
                    end
                    = (m1, mkEntry (<[Some a := Some t]> (transitionTableEntry_entry e)), h1)).
    { subst a m1 h1. by destruct (getAction m n). }
    rewrite Hstep. clear Hstep.
    assert (Ha1 : getAction m1 n = Some a).
    { subst a m1. destruct (getAction m n) eqn:Ha; [done|].
      unfold getAction. simpl. by rewrite lookup_insert_eq. }
    assert (Hmono1 : ∀ x b, getAction m x = Some b → getAction m1 x = Some b).
    { subst m1. intros x b Hx. destruct (getAction m n) eqn:Ha; [done|].
      unfold getAction in *. simpl. rewrite lookup_insert_ne; [done|].
      intros <-. simpl in *. congruence. }
    assert (Hother1 : ∀ x, x ≠ n → getAction m1 x = getAction m x).
    { subst m1. intros x Hx. destruct (getAction m n); [done|].
      unfold getAction. simpl. by rewrite lookup_insert_ne. }
    assert (Hreg1 : registry_named m1).
    { intros x b Hx. destruct (decide (x = n)) as [->|Hne].
      - rewrite Ha1 in Hx. injection Hx as <-. subst a.
        destruct (getAction m n) eqn:Ha; [by apply Hreg|done].
      - rewrite Hother1 in Hx by done. by apply Hreg. }
    assert (Hm1 : m1 = set_actions (mdp_actions m1) m).
    { subst m1. destruct (getAction m n); [by rewrite set_actions_id|done]. }
    intros Hloop.
    apply (IH Hnd) in Hloop as (m' & e' & h' & -> & Hm' & Hreg' & Hmono & Hother
                                 & Hin & Hout); [|done].
    exists m', e', h'. split; [done|].
    assert (Han : getAction m' n = Some a) by by apply Hmono.
    assert (Hdiff : ∀ x, x ∈ l.*1 → getAction m' x ≠ Some a).
    { intros x Hx Heq. apply Hreg' in Heq. apply Hreg' in Han.
      apply Hfresh. by replace n with x by congruence. }
    repeat split.
    + rewrite Hm', Hm1. done.
    + done.
    + intros x b Hx. by apply Hmono, Hmono1.
    + intros x Hx. rewrite Hother by (intros ?; apply Hx; by right).
      apply Hother1. intros ->. apply Hx. by left.
    + intros x tr Hel. apply elem_of_cons in Hel as [[= -> ->]|Hel].
      * exists a. split; [done|]. rewrite Hout by done. simpl.
        by rewrite lookup_insert_eq.
      * by apply Hin.
    + intros k Hk. rewrite Hout by (intros x Hx; apply Hk; by right).
      simpl. apply lookup_insert_ne. intros <-. by apply (Hk n); [left|].
Qed.

(** X13. What [SetState] stores can be read back.  In an aggregate whose
    registry is named, after a successful [SetState] the new name and the
    index both read the reward given, and [T] and [TByIndex] of the new
    state return, for every action name, the transition the map given holds
    for that name and nil for a name it does not hold. *)
Theorem SetState_read_back (m m' : mdp) (name : string) (index : Z)
    (terminal : bool) (reward : float32) (ts : gmap string Transition)
    (h h' : addr) :
  registry_named m →
  SetState m name index terminal reward ts h = Normal (None, m', h') →
  R m' name = Normal reward ∧
  RByIndex m' index = Normal reward ∧
  (∀ a, T m' name a = Normal (default None (ts !! a))) ∧
  (∀ a, TByIndex m' index a = Normal (default None (ts !! a))) ∧
  registry_named m' ∧
  (∀ a, is_Some (ts !! a) → getAction m' a ≠ None).
Proof.
  intros Hreg Hset.
  pose proof (SetState_installs _ _ _ _ _ _ _ _ _ Hset) as (_ & Hi & Hn & _).
  revert Hset. unfold SetState.
  destruct (index <? 0); [done|]. destruct (String.eqb name ""); [done|].
  cbn [NewState].
  destruct (register_state _ _ _ _ _) as [[[err|] m1]|] eqn:Hregs;
    cbn [mbind outcome_bind]; try done.
  apply (register_state_fields m m1 (mkState h name index terminal)) in Hregs
    as (_ & _ & Hrew & _ & Hact & _).
  destruct (for_range _ _ _) as [c|] eqn:Hloop; [|done].
  apply (SetState_loop_spec _ (NoDup_fst_map_to_list ts)) in Hloop
    as (m2 & e' & h2 & -> & Hm2 & Hreg2 & _ & Hother & Hin & Hout).
  2:{ intros n a. unfold getAction. rewrite Hact. apply Hreg. }
  cbn [mbind outcome_bind]. intros [= <- <-].
  assert (Hacts : ∀ a, getAction (install_entry m2 (Some (mkState h name index terminal))
                                    index (Some e')) a = getAction m2 a).
  { intros a. unfold install_entry. by destruct (index =? 0). }
  assert (Hentry : ∀ a, transitionTableEntry_entry e' !! getAction m2 a
                        = Some (default None (ts !! a)) ∨
                        (transitionTableEntry_entry e' !! getAction m2 a = None
                         ∧ ts !! a = None)).
  { intros a. destruct (ts !! a) as [tr|] eqn:Hts.
    - left. destruct (Hin a tr) as (b & Hb & He); [by apply elem_of_map_to_list|].
      by rewrite Hb, He.
    - right. split; [|done]. rewrite Hout; [done|].
      intros n Hn' Heq. apply list_elem_of_fmap in Hn' as ([n' tr] & -> & Hel).
      destruct (Hin n' tr Hel) as (b & Hb & _). simpl in Heq.
      rewrite Hb in Heq. symmetry in Heq. apply Hreg2 in Heq. apply Hreg2 in Hb.
      apply elem_of_map_to_list in Hel. simpl in Hel. congruence. }
  assert (HT : ∀ a,
    transitionTableEntry_Get
      (transitionTable_Get
         (mdp_transitions (install_entry m2 (Some (mkState h name index terminal))
                             index (Some e')))
         (Some (mkState h name index terminal)))
      (getAction m2 a) = Normal (default None (ts !! a))).
  { intros a. rewrite transitionTable_Get_lookup.
    unfold install_entry. destruct (index =? 0); simpl;
      rewrite lookup_insert_eq; simpl;
      destruct (Hentry a) as [->|[-> ->]]; done. }
  assert (HR : rewardsTable_Get
                 (mdp_rewards (install_entry m2 (Some (mkState h name index terminal))
                                 index (Some e')))
                 (Some (mkState h name index terminal)) = Normal reward).
  { unfold install_entry, rewardsTable_Get.
    destruct (index =? 0); simpl; rewrite Hm2; simpl; rewrite Hrew; simpl;
      by rewrite lookup_insert_eq. }
  unfold R, RByIndex, T, TByIndex. rewrite Hi, Hn.
  repeat split; try done.
  - intros a. rewrite Hacts. apply HT.
  - intros a. rewrite Hacts. apply HT.
  - intros n a. rewrite Hacts. apply Hreg2.
  - intros a [tr Hts]. rewrite Hacts.
    destruct (Hin a tr) as (b & -> & _); [by apply elem_of_map_to_list|done].
Qed.

Lemma SetState_read_back_witness :
  ∃ m' h',
    SetState default_mdp "TL" 0 false f32_one
      {["R" := NewTransition f32_one (Some (mkState 0 "TC" 1 false))]} 1
    = Normal (None, m', h') ∧
    R m' "TL" = Normal f32_one ∧
    T m' "TL" "R" = Normal (NewTransition f32_one (Some (mkState 0 "TC" 1 false))) ∧
    T m' "TL" "L" = Normal None.
Proof.
  assert (∃ m' h',
    SetState default_mdp "TL" 0 false f32_one
      {["R" := NewTransition f32_one (Some (mkState 0 "TC" 1 false))]} 1
    = Normal (None, m', h')) as (m' & h' & Hrun).
  { do 2 eexists. vm_compute. reflexivity. }
  - destruct (SetState_read_back default_mdp m' "TL" 0 false f32_one
                {["R" := NewTransition f32_one (Some (mkState 0 "TC" 1 false))]}
                1%nat h') as (HR & _ & HT & _).
    + intros n a Ha. unfold getAction in Ha. simpl in Ha.
      by rewrite lookup_empty in Ha.
    + exact Hrun.
    + exists m', h'. split; [exact Hrun|]. split; [exact HR|]. split.
      * rewrite HT. reflexivity.
      * rewrite HT. reflexivity.
Defined.

(** The fields of the aggregate after a successful [SetState]: what
    [register_state] wrote, a registry extended by the loop, the new entry
    stored under the new state, and the initial state replaced when the
    index is 0. *)
Lemma SetState_fields (m m' : mdp) (name : string) (index : Z)
    (terminal : bool) (reward : float32) (ts : gmap string Transition)
    (h h' : addr) :
  SetState m name index terminal reward ts h = Normal (None, m', h') →
  let s := mkState h name index terminal in
  ∃ e',
    mdp_stateMap m' = <[name := Some s]> (mdp_stateMap m) ∧
    mdp_stateIndexMap m' = <[index := Some s]> (mdp_stateIndexMap m) ∧
    mdp_rewards m' =
      mkRewardsTable
        (<[index := reward]>
           (rewardsTable_table (mdp_rewards (without_state_at m index))))
        (<[index := Some s]>
           (rewardsTable_stateMap (mdp_rewards (without_state_at m index)))) ∧
    mdp_transitions m' =
      transitionTable_Set (mdp_transitions (without_state_at m index))
        (Some s) (Some e') ∧
    mdp_initialState m' = (if index =? 0 then Some s else mdp_initialState m) ∧
    mdp_discountRate m' = mdp_discountRate m.
Proof.
  unfold SetState.
  destruct (index <? 0); [done|]. destruct (String.eqb name ""); [done|].
  cbn [NewState].
  destruct (register_state _ _ _ _ _) as [[[err|] m1]|] eqn:Hregs;
    cbn [mbind outcome_bind]; try done.
  apply (register_state_fields m m1 (mkState h name index terminal)) in Hregs
    as (Hsm & Him & Hrew & Htt & Hact & Hinit & Hd).
  destruct (for_range _ _ _) as [c|] eqn:Hloop; [|done].
  apply SetState_loop_frame in Hloop as (acts & e' & h1 & ->).
  cbn [mbind outcome_bind]. intros [= <- <-]. cbv zeta. exists e'.
  unfold install_entry. cbn [state_index] in *.
  destruct (index =? 0); simpl; rewrite Hsm, Him, Hrew, Htt, ?Hinit, Hd; done.
Qed.

(** X14. [SetState] at an occupied index orphans the state found there.  If
    the old state has another name than the new one, its name still
    resolves to the old object, but the object has lost its transitions, so
    [T] of the old name panics, and [R] of the old name reads the reward of
    the new state, which now owns the index. *)
Theorem SetState_orphans_old_state (m m' : mdp) (name : string) (index : Z)
    (terminal : bool) (reward : float32) (ts : gmap string Transition)
    (h h' : addr) (sOld : state) :
  SetState m name index terminal reward ts h = Normal (None, m', h') →
  getStateByIndex m index = Some sOld →
  state_index sOld = index →
  state_name sOld ≠ name →
  getStateByName m (state_name sOld) = Some sOld →
  getStateByName m' (state_name sOld) = Some sOld ∧
  getStateByIndex m' index = Some (mkState h name index terminal) ∧
  transitionTable_Get (mdp_transitions m') (Some sOld) = None ∧
  (∀ a, T m' (state_name sOld) a = Panics NilDereference) ∧
  R m' (state_name sOld) = Normal reward.
Proof.
  intros Hset Hold Hidx Hname Hbyname.
  apply SetState_fields in Hset as (e' & Hsm & Him & Hrew & Htt & _).
  assert (Hn : getStateByName m' (state_name sOld) = Some sOld).
  { unfold getStateByName in *. rewrite Hsm. by rewrite lookup_insert_ne. }
  assert (Hg : transitionTable_Get (mdp_transitions m') (Some sOld) = None).
  { rewrite transitionTable_Get_lookup, Htt. unfold without_state_at.
    rewrite Hold. simpl. rewrite lookup_insert_ne by (intros [= <-]; done).
    by rewrite lookup_delete_eq. }
  split; [done|]. split.
  { unfold getStateByIndex. rewrite Him. by rewrite lookup_insert_eq. }
  split; [done|]. split.
  - intros a. unfold T. by rewrite Hn, Hg.
  - unfold R, rewardsTable_Get. rewrite Hn, Hrew. simpl. rewrite Hidx.
    by rewrite lookup_insert_eq.
Qed.

Lemma SetState_orphans_old_state_witness :
  ∃ m' h',
    SetState mdp_A "B" 1 false f32_zero ∅ 2 = Normal (None, m', h') ∧
    getStateByName m' "A" = Some (mkState 1 "A" 1 false) ∧
    T m' "A" "U" = Panics NilDereference ∧
    R m' "A" = Normal f32_zero.
Proof.
  assert (∃ m' h', SetState mdp_A "B" 1 false f32_zero ∅ 2 = Normal (None, m', h'))
    as (m' & h' & Hrun).
  { do 2 eexists. vm_compute. reflexivity. }
  destruct (SetState_orphans_old_state mdp_A m' "B" 1 false f32_zero ∅ 2%nat h'
              (mkState 1 "A" 1 false) Hrun) as (Hn & _ & _ & HT & HR).
  - vm_compute. reflexivity.
  - reflexivity.
  - discriminate.
  - vm_compute. reflexivity.
  - exists m', h'. split; [exact Hrun|]. split; [exact Hn|].
    split; [apply HT|exact HR].
Defined.

(** One round of the loop of [SetStateObject], spelled out. *)
Lemma SetStateObject_body_eq (ac : action) (t : transition) (m : mdp)
    (e : transitionTableEntry) :
  SetStateObject_body (Some ac, Some t) (m, e) =
  Normal (Continue
    (match getAction m (action_name ac) with
     | Some _ => m
     | None => set_actions (<[action_name ac := Some ac]> (mdp_actions m)) m
     end,
     mkEntry (<[Some ac := Some t]> (transitionTableEntry_entry e)))).
Proof.
  unfold SetStateObject_body. destruct t as [p d].
  cbn [action_Name mbind outcome_bind].
  destruct (getAction m (action_name ac)) as [a|] eqn:Ha; [done|].
  unfold AddActionObject. cbn [action_Name mbind outcome_bind].
  by rewrite Ha.
Qed.

(** The loop of [SetStateObject] over pairs with distinct action objects:
    the entry holds each transition under the object it came with, the
    registry keeps what it held and holds some object for the name of every
    action of the list. *)
Lemma SetStateObject_loop_spec (l : list (Action * Transition)) :
  NoDup l.*1 →
  ∀ m e c,
    for_range l SetStateObject_body (m, e) = Normal c →
    ∃ m' e',
      c = Continue (m', e') ∧
      m' = set_actions (mdp_actions m') m ∧
      (∀ n a, getAction m n = Some a → getAction m' n = Some a) ∧
      (∀ n, getAction m n = None →
         (∀ ac tr, (Some ac, tr) ∈ l → action_name ac ≠ n) →
         getAction m' n = None) ∧
      (∀ a tr, (a, tr) ∈ l →
         transitionTableEntry_entry e' !! a = Some tr ∧
         ∃ ac, a = Some ac ∧ getAction m' (action_name ac) ≠ None) ∧
      (∀ a, a ∉ l.*1 →
         transitionTableEntry_entry e' !! a = transitionTableEntry_entry e !! a).
Proof.
  induction l as [|[a tr] l IH]; intros Hnd m e c; cbn [for_range].
  - intros [= <-]. exists m, e. rewrite set_actions_id.
    split; [done|]. split; [done|]. split; [done|]. split; [done|].
    split; [|done]. intros a tr Hin. by apply elem_of_nil in Hin.
  - simpl in Hnd. apply NoDup_cons in Hnd as [Hfresh Hnd].
    destruct a as [ac|]; [|done].
    destruct tr as [t|].
    2:{ unfold SetStateObject_body. cbn [action_Name mbind outcome_bind].
        destruct (getAction m (action_name ac)) as [x|] eqn:Ha; [done|].
        unfold AddActionObject. cbn [action_Name mbind outcome_bind].
        by rewrite Ha. }
    rewrite SetStateObject_body_eq. cbn [mbind outcome_bind].
    set (m1 := match getAction m (action_name ac) with
               | Some _ => m
               | None => set_actions (<[action_name ac := Some ac]> (mdp_actions m)) m
               end).
    assert (Hmono1 : ∀ x b, getAction m x = Some b → getAction m1 x = Some b).
    { subst m1. intros x b Hx.
      destruct (getAction m (action_name ac)) eqn:Ha; [done|].
      unfold getAction in *. simpl. rewrite lookup_insert_ne; [done|].
      intros <-. congruence. }
    assert (Hreg1 : getAction m1 (action_name ac) ≠ None).
    { subst m1. destruct (getAction m (action_name ac)) eqn:Ha; [congruence|].
      unfold getAction. simpl. by rewrite lookup_insert_eq. }
    assert (Hnone1 : ∀ n, getAction m n = None → action_name ac ≠ n →
                          getAction m1 n = None).
    { subst m1. intros n Hn Hne.
      destruct (getAction m (action_name ac)); [done|].
      unfold getAction in *. simpl. by rewrite lookup_insert_ne. }
    assert (Hm1 : m1 = set_actions (mdp_actions m1) m).
    { subst m1. destruct (getAction m _); [by rewrite set_actions_id|done]. }
    intros Hloop.
    apply (IH Hnd) in Hloop as (m' & e' & -> & Hm' & Hmono & Hnone & Hin & Hout).
    exists m', e'. split; [done|]. split; [by rewrite Hm', Hm1|].
    split; [intros x b Hx; by apply Hmono, Hmono1|]. split; [|split].
    + intros n Hn Hall. apply Hnone.
      * apply Hnone1; [done|]. apply (Hall ac (Some t)). by left.
      * intros ac' tr' Hel. apply (Hall ac' tr'). by right.
    + intros a tr Hel. apply elem_of_cons in Hel as [[= -> ->]|Hel];
        [|by apply Hin].
      split.
      * rewrite Hout by done. simpl. by rewrite lookup_insert_eq.
      * exists ac. split; [done|].
        destruct (getAction m1 (action_name ac)) as [b|] eqn:Hb; [|done].
        by rewrite (Hmono _ _ Hb).
    + intros a Ha. rewrite Hout by (intros ?; apply Ha; by right).
      simpl. apply lookup_insert_ne. intros <-. apply Ha. by left.
Qed.

(** The aggregate after a successful [SetStateObject]. *)
Lemma SetStateObject_fields (m m' : mdp) (st : state) (reward : float32)
    (ts : gmap Action Transition) :
  SetStateObject m (Some st) reward ts = Normal (None, m') →
  mdp_stateMap m' = <[state_name st := Some st]> (mdp_stateMap m) ∧
  mdp_stateIndexMap m' = <[state_index st := Some st]> (mdp_stateIndexMap m) ∧
  mdp_rewards m' =
    mkRewardsTable
      (<[state_index st := reward]>
         (rewardsTable_table (mdp_rewards (without_state_at m (state_index st)))))
      (<[state_index st := Some st]>
         (rewardsTable_stateMap (mdp_rewards (without_state_at m (state_index st))))) ∧
  mdp_transitions m' =
    transitionTable_Set (mdp_transitions (without_state_at m (state_index st)))
      (Some st) (Some (mkEntry ts)) ∧
  mdp_initialState m' =
    (if state_index st =? 0 then Some st else mdp_initialState m) ∧
  mdp_discountRate m' = mdp_discountRate m ∧
  (∀ n a, getAction m n = Some a → getAction m' n = Some a) ∧
  (∀ n, getAction m n = None →
     (∀ ac, is_Some (ts !! Some ac) → action_name ac ≠ n) →
     getAction m' n = None) ∧
  (∀ ac, is_Some (ts !! Some ac) → getAction m' (action_name ac) ≠ None).
Proof.
  unfold SetStateObject. cbn [state_Index state_Name mbind outcome_bind].
  destruct (state_index st <? 0); [done|].
  destruct (String.eqb (state_name st) ""); [done|].
  destruct (register_state _ _ _ _ _) as [[[err|] m1]|] eqn:Hregs;
    cbn [mbind outcome_bind]; try done.
  apply register_state_fields in Hregs
    as (Hsm & Him & Hrew & Htt & Hact & Hinit & Hd).
  destruct (for_range _ _ _) as [c|] eqn:Hloop; [|done].
  apply (SetStateObject_loop_spec _ (NoDup_fst_map_to_list ts)) in Hloop
    as (m2 & e' & -> & Hm2 & Hmono & Hnone & Hin & Hout).
  cbn [mbind outcome_bind]. intros [= <-].
  assert (He' : e' = mkEntry ts).
  { destruct e' as [em]. f_equal. apply map_eq. intros k. simpl in *.
    destruct (ts !! k) as [tr|] eqn:Hk.
    - apply Hin. by apply elem_of_map_to_list.
    - rewrite Hout; [by rewrite lookup_empty|].
      intros Hel. apply list_elem_of_fmap in Hel as ([k' tr] & -> & Hel).
      apply elem_of_map_to_list in Hel. simpl in Hk. congruence. }
  subst e'.
  assert (Hacts : ∀ n, getAction (install_entry m2 (Some st) (state_index st)
                                    (Some (mkEntry ts))) n = getAction m2 n).
  { intros n. unfold install_entry. by destruct (state_index st =? 0). }
  assert (Hm1 : ∀ n, getAction m1 n = getAction m n).
  { intros n. unfold getAction. by rewrite Hact. }
  pose proof (f_equal mdp_stateMap Hm2) as F1.
  pose proof (f_equal mdp_stateIndexMap Hm2) as F2.
  pose proof (f_equal mdp_rewards Hm2) as F3.
  pose proof (f_equal mdp_transitions Hm2) as F4.
  pose proof (f_equal mdp_initialState Hm2) as F5.
  pose proof (f_equal mdp_discountRate Hm2) as F6.
  simpl in F1, F2, F3, F4, F5, F6.
  repeat split.
  1-6: unfold install_entry; destruct (state_index st =? 0); simpl;
       rewrite ?F1, ?F2, ?F3, ?F4, ?F5, ?F6, ?Hsm, ?Him, ?Hrew, ?Htt, ?Hinit, ?Hd;
       done.
  - intros n a Ha. rewrite Hacts. apply Hmono. by rewrite Hm1.
  - intros n Hn Hall. rewrite Hacts. apply Hnone; [by rewrite Hm1|].
    intros ac tr Hel. apply Hall. exists tr. by apply elem_of_map_to_list.
  - intros ac [tr Hts]. rewrite Hacts.
    destruct (Hin (Some ac) tr) as (_ & ac' & [= <-] & Hne); [|done].
    by apply elem_of_map_to_list.
Qed.

(** X15. [SetStateObject] stores the transition map it is given as the
    entry of the state, keyed by the action objects of the map; the name and
    the index read the reward back.  [T] looks a name up in the registry
    first: it returns what the map holds under the object registered for
    the name, so a transition given under another object of the same name
    is stored but not found by name.  Actions registered before keep their
    objects. *)
Theorem SetStateObject_read_back (m m' : mdp) (st : state) (reward : float32)
    (ts : gmap Action Transition) :
  SetStateObject m (Some st) reward ts = Normal (None, m') →
  transitionTable_Get (mdp_transitions m') (Some st) = Some (mkEntry ts) ∧
  R m' (state_name st) = Normal reward ∧
  RByIndex m' (state_index st) = Normal reward ∧
  (∀ a, T m' (state_name st) a = Normal (default None (ts !! getAction m' a))) ∧
  (∀ a, TByIndex m' (state_index st) a
        = Normal (default None (ts !! getAction m' a))) ∧
  (∀ n a, getAction m n = Some a → getAction m' n = Some a).
Proof.
  intros Hset.
  apply SetStateObject_fields in Hset
    as (Hsm & Him & Hrew & Htt & _ & _ & Hmono & _).
  assert (Hg : transitionTable_Get (mdp_transitions m') (Some st)
               = Some (mkEntry ts)).
  { rewrite transitionTable_Get_lookup, Htt. simpl. by rewrite lookup_insert_eq. }
  unfold R, RByIndex, T, TByIndex, getStateByName, getStateByIndex.
  rewrite Hsm, Him, !lookup_insert_eq, Hg.
  unfold rewardsTable_Get. rewrite Hrew. simpl. rewrite lookup_insert_eq.
  done.
Qed.

Lemma SetStateObject_read_back_witness :
  ∃ m',
    SetStateObject default_mdp (Some (mkState 1 "TL" 0 false)) f32_one
      {[Some (mkAction 2 "R") :=
          NewTransition f32_one (Some (mkState 3 "TC" 1 false))]}
    = Normal (None, m') ∧
    R m' "TL" = Normal f32_one ∧
    transitionTable_Get (mdp_transitions m') (Some (mkState 1 "TL" 0 false))
    = Some (mkEntry {[Some (mkAction 2 "R") :=
                        NewTransition f32_one (Some (mkState 3 "TC" 1 false))]}).
Proof.
  assert (∃ m',
    SetStateObject default_mdp (Some (mkState 1 "TL" 0 false)) f32_one
      {[Some (mkAction 2 "R") :=
          NewTransition f32_one (Some (mkState 3 "TC" 1 false))]}
    = Normal (None, m')) as (m' & Hrun).
  { eexists. vm_compute. reflexivity. }
  destruct (SetStateObject_read_back _ _ _ _ _ Hrun) as (Hg & HR & _).
  exists m'. split; [exact Hrun|]. split; [exact HR|exact Hg].
Defined.

(** X16. [SetInitialStateObject] does not pin the object to index 0: a
    state object carrying another index is registered at that index, and
    neither the initial state nor what index 0 resolves to changes. *)
Theorem SetInitialStateObject_not_pinned (m m' : mdp) (st : state)
    (reward : float32) (ts : gmap Action Transition) :
  SetInitialStateObject m (Some st) reward ts = Normal (None, m') →
  state_index st ≠ 0 →
  mdp_initialState m' = mdp_initialState m ∧
  getStateByIndex m' 0 = getStateByIndex m 0 ∧
  getStateByIndex m' (state_index st) = Some st.
Proof.
  unfold SetInitialStateObject. intros Hset Hidx.
  apply SetStateObject_fields in Hset as (_ & Him & _ & _ & Hinit & _).
  apply Z.eqb_neq in Hidx as Hz. rewrite Hz in Hinit.
  unfold getStateByIndex. rewrite Him.
  by rewrite lookup_insert_eq, lookup_insert_ne.
Qed.

Lemma SetInitialStateObject_not_pinned_witness :
  ∃ m',
    SetInitialStateObject default_mdp (Some (mkState 1 "start" 5 false))
      f32_zero ∅ = Normal (None, m') ∧
    mdp_initialState m' = None ∧
    getStateByIndex m' 0 = None ∧
    getStateByIndex m' 5 = Some (mkState 1 "start" 5 false).
Proof.
  assert (∃ m',
    SetInitialStateObject default_mdp (Some (mkState 1 "start" 5 false))
      f32_zero ∅ = Normal (None, m')) as (m' & Hrun).
  { eexists. vm_compute. reflexivity. }
  destruct (SetInitialStateObject_not_pinned _ _ _ _ _ Hrun) as (Hi & H0 & H5).
  - simpl. lia.
  - exists m'. split; [exact Hrun|]. split; [exact Hi|]. split; [exact H0|exact H5].
Defined.

(** ** Editing single transitions *)

(** X17. [SetTransition] validates nothing but the presence of the start
    state's entry.  With an entry it succeeds, writes only the transition
    table, and [T] of the start state then returns the new transition for
    the action -- and for every other name the registry resolves to the
    same object, so a transition set under an unregistered action is
    returned for every unregistered name.  The destination is whatever the
    end name resolves to, nil for an unknown name.  Other actions and other
    states read as before. *)
Theorem SetTransition_read_back (m : mdp) (startState endState a : string)
    (p : float32) (e : transitionTableEntry) :
  transitionTable_Get (mdp_transitions m) (getStateByName m startState) = Some e →
  ∃ m',
    SetTransition m startState endState a p = Normal m' ∧
    m' = set_transitions (mdp_transitions m') m ∧
    (∀ b, getAction m b = getAction m a →
       T m' startState b = Normal (NewTransition p (getStateByName m endState))) ∧
    (∀ b, getAction m b ≠ getAction m a →
       T m' startState b = T m startState b) ∧
    (∀ s b, getStateByName m s ≠ getStateByName m startState →
       T m' s b = T m s b).
Proof.
  intros He. rewrite transitionTable_Get_lookup in He.
  unfold SetTransition, transitionTable_Update. rewrite He.
  cbn [transitionTableEntry_Set mbind outcome_bind default].
  eexists. split; [reflexivity|]. split; [done|].
  assert (Hs : ∀ t s, getStateByName (set_transitions t m) s = getStateByName m s)
    by done.
  assert (Ha : ∀ t b, getAction (set_transitions t m) b = getAction m b) by done.
  unfold T. rewrite ?Hs, ?Ha.
  cbn [mdp_transitions set_transitions].
  split; [|split].
  - intros b Hb. rewrite ?Hs, ?Ha, transitionTable_Get_lookup.
    cbn [transitionTable_table]. rewrite lookup_insert_eq.
    cbn [default from_option id transitionTableEntry_Get transitionTableEntry_entry].
    rewrite Hb. by rewrite lookup_insert_eq.
  - intros b Hb. rewrite ?Hs, ?Ha, !transitionTable_Get_lookup.
    cbn [transitionTable_table]. rewrite lookup_insert_eq, He.
    cbn [default from_option id transitionTableEntry_Get transitionTableEntry_entry].
    by rewrite lookup_insert_ne.
  - intros s b Hne. rewrite ?Hs, ?Ha, !transitionTable_Get_lookup.
    cbn [transitionTable_table]. by rewrite lookup_insert_ne.
Qed.

Lemma SetTransition_read_back_witness :
  ∃ m',
    SetTransition mdp_A "A" "nowhere" "U" f32_one = Normal m' ∧
    T m' "A" "U" = Normal (NewTransition f32_one None) ∧
    T m' "A" "any other unregistered name" = Normal (NewTransition f32_one None).
Proof.
  destruct (SetTransition_read_back mdp_A "A" "nowhere" "U" f32_one (mkEntry ∅))
    as (m' & Hrun & _ & Hsame & _).
  - vm_compute. reflexivity.
  - exists m'. split; [exact Hrun|]. split.
    + rewrite Hsame by reflexivity. vm_compute. reflexivity.
    + rewrite Hsame by reflexivity. vm_compute. reflexivity.
Defined.

(** X18. [RemoveTransitionByAction] needs the entry of the start state and
    panics without it.  With it, [T] of the start state returns nil for the
    action afterwards, removing again changes nothing, and other actions
    and other states read as before. *)
Theorem RemoveTransitionByAction_spec (m : mdp) (startState a : string) :
  (transitionTable_Get (mdp_transitions m) (getStateByName m startState) = None →
   RemoveTransitionByAction m startState a = Panics NilDereference) ∧
  (∀ e,
     transitionTable_Get (mdp_transitions m) (getStateByName m startState) = Some e →
     ∃ m',
       RemoveTransitionByAction m startState a = Normal m' ∧
       T m' startState a = Normal None ∧
       RemoveTransitionByAction m' startState a = Normal m' ∧
       (∀ b, getAction m b ≠ getAction m a →
          T m' startState b = T m startState b) ∧
       (∀ s b, getStateByName m s ≠ getStateByName m startState →
          T m' s b = T m s b)).
Proof.
  unfold RemoveTransitionByAction. split.
  - by intros ->.
  - intros e He. rewrite He.
    cbn [transitionTableEntry_Remove mbind outcome_bind].
    eexists. split; [reflexivity|].
    assert (Hs : ∀ t s, getStateByName (set_transitions t m) s = getStateByName m s)
      by done.
    assert (Ha : ∀ t b, getAction (set_transitions t m) b = getAction m b) by done.
    unfold T. rewrite ?Hs, ?Ha.
    cbn [mdp_transitions set_transitions].
    rewrite transitionTable_Get_lookup in He.
    split; [|split; [|split]].
    + rewrite transitionTable_Get_lookup. unfold transitionTable_Set.
      cbn [transitionTable_table]. rewrite lookup_insert_eq.
      cbn [default from_option id transitionTableEntry_Get transitionTableEntry_entry].
      by rewrite lookup_delete_eq.
    + rewrite transitionTable_Get_lookup. unfold transitionTable_Set.
      cbn [transitionTable_table]. rewrite lookup_insert_eq.
      cbn [default from_option id transitionTableEntry_Remove transitionTableEntry_entry
           mbind outcome_bind].
      by rewrite delete_delete_eq, insert_insert_eq.
    + intros b Hb. rewrite ?Hs, ?Ha, !transitionTable_Get_lookup.
      unfold transitionTable_Set.
      cbn [transitionTable_table]. rewrite lookup_insert_eq, He.
      cbn [default from_option id transitionTableEntry_Get transitionTableEntry_entry].
      by rewrite lookup_delete_ne.
    + intros s b Hne. rewrite ?Hs, ?Ha, !transitionTable_Get_lookup.
      unfold transitionTable_Set.
      cbn [transitionTable_table]. by rewrite lookup_insert_ne.
Qed.

(** X19. [RemoveTransition] between two names removes, from the entry of
    the start state, every transition whose destination carries the index
    of the state the end name resolves to: afterwards [T] of the start
    state returns nil for those actions and what it returned before for the
    others.  It panics when the end name resolves to nothing and the entry
    is not empty. *)
Theorem RemoveTransition_by_destination_index (m : mdp)
    (startState endState : string) (e : transitionTableEntry) :
  transitionTable_Get (mdp_transitions m) (getStateByName m startState) = Some e →
  map_Forall (λ _ tr, ∃ x d, tr = Some (mkTransition x (Some d)))
             (transitionTableEntry_entry e) →
  (∀ d, getStateByName m endState = Some d →
     ∃ m',
       RemoveTransition m startState endState = Normal m' ∧
       ∀ b, T m' startState b =
            Normal match transitionTableEntry_entry e !! getAction m b with
                   | Some tr => if leads_to (state_index d) tr then None else tr
                   | None => None
                   end) ∧
  (getStateByName m endState = None → transitionTableEntry_entry e ≠ ∅ →
   RemoveTransition m startState endState = Panics NilDereference).
Proof.
  intros He Hok. unfold RemoveTransition. rewrite He. split.
  - intros d ->.
    destruct (transitionTableEntry_RemoveTransition_lookup e d Hok)
      as (e' & -> & Hlk).
    cbn [mbind outcome_bind]. eexists. split; [reflexivity|]. intros b.
    unfold T, getStateByName, getAction. simpl.
    rewrite transitionTable_Get_lookup. simpl. rewrite lookup_insert_eq. simpl.
    rewrite Hlk. by destruct (_ !! _) as [tr|]; [destruct (leads_to _ _)|].
  - intros -> Hne. unfold transitionTableEntry_RemoveTransition.
    destruct (map_to_list (transitionTableEntry_entry e)) as [|[a tr] l] eqn:Hl.
    { by apply map_to_list_empty_iff in Hl. }
    assert (Hin : (a, tr) ∈ map_to_list (transitionTableEntry_entry e))
      by (rewrite Hl; by left).
    apply elem_of_map_to_list in Hin.
    destruct (Hok a tr Hin) as (x & d & ->). done.
Qed.

Lemma RemoveTransition_by_destination_index_witness :
  let A := mkState 1 "A" 1 false in
  let e := mkEntry {[None := NewTransition f32_one (Some A)]} in
  let m := set_transitions (mkTable {[Some A := Some e]}) mdp_A in
  T m "A" "U" = Normal (NewTransition f32_one (Some A)) ∧
  ∃ m', RemoveTransition m "A" "A" = Normal m' ∧ T m' "A" "U" = Normal None.
Proof.
  intros A e m. split; [vm_compute; reflexivity|].
  destruct (RemoveTransition_by_destination_index m "A" "A" e) as [H _].
  - vm_compute. reflexivity.
  - apply map_Forall_singleton. by eexists _, _.
  - destruct (H A) as (m' & Hrun & HT); [vm_compute; reflexivity|].
    exists m'. split; [exact Hrun|]. rewrite HT. vm_compute. reflexivity.
Defined.

(** ** Removing states, continued *)

Lemma mdp_AB_reached :
  SetState mdp_A "B" 1 false f32_zero ∅ 2 = Normal (None, mdp_AB, 3%nat).
Proof. vm_compute. reflexivity. Qed.

(** What a successful [RemoveStateByIndex] writes: the slot, the reward
    under the index the state carries, and the entry of the state. *)
Lemma RemoveStateByIndex_fields (m : mdp) (i : Z) (st : state) :
  getStateByIndex m i = Some st →
  0 ≤ i < Z.of_nat (length (mdp_states m)) →
  ∃ m',
    RemoveStateByIndex m i = Normal (None, m') ∧
    mdp_states m' = <[Z.to_nat i := None]> (mdp_states m) ∧
    mdp_statesCapacity m' = mdp_statesCapacity m ∧
    mdp_stateMap m' = mdp_stateMap m ∧
    mdp_stateIndexMap m' = mdp_stateIndexMap m ∧
    mdp_actions m' = mdp_actions m ∧
    rewardsTable_table (mdp_rewards m') =
      delete (state_index st) (rewardsTable_table (mdp_rewards m)) ∧
    transitionTable_table (mdp_transitions m') =
      delete (Some st) (transitionTable_table (mdp_transitions m)).
Proof.
  intros Hst Hi. unfold RemoveStateByIndex. rewrite Hst.
  rewrite slice_store_Normal by done.
  cbn [mbind outcome_bind]. eexists. split; [reflexivity|]. done.
Qed.

(** What [RemoveStateByIndex] returns for an index that resolves inside
    the backing array. *)
Lemma RemoveStateByIndex_eq (m : mdp) (i : Z) (st : state) :
  getStateByIndex m i = Some st →
  0 ≤ i < Z.of_nat (length (mdp_states m)) →
  RemoveStateByIndex m i =
  Normal (None,
          set_transitions (transitionTable_Remove (mdp_transitions m) (Some st))
            (set_rewards
               (mkRewardsTable
                  (delete (state_index st) (rewardsTable_table (mdp_rewards m)))
                  (delete (state_index st) (rewardsTable_stateMap (mdp_rewards m))))
               (set_states (<[Z.to_nat i := None]> (mdp_states m)) m))).
Proof.
  intros Hst Hi. unfold RemoveStateByIndex. rewrite Hst.
  by rewrite slice_store_Normal by done.
Qed.

(** X20. [RemoveStateByIndex] of an index that resolves to a state clears
    the slot, the reward and the transitions of that state, and nothing
    else: the aggregate returned is the old one with these three writes.
    The name and the index still resolve to the removed object, so its
    reward reads 0 and [TByIndex] of the index panics; the entries of all
    other states, with whatever transitions they hold into the removed
    state, stay as they are.  An index the index map resolves but the
    backing array does not have panics. *)
Theorem RemoveStateByIndex_effects (m : mdp) (i : Z) (st : state) :
  getStateByIndex m i = Some st →
  (0 ≤ i < Z.of_nat (length (mdp_states m)) →
   ∃ m',
     RemoveStateByIndex m i = Normal (None, m') ∧
     m' = set_transitions
            (transitionTable_Remove (mdp_transitions m) (Some st))
            (set_rewards
               (mkRewardsTable
                  (delete (state_index st) (rewardsTable_table (mdp_rewards m)))
                  (delete (state_index st)
                     (rewardsTable_stateMap (mdp_rewards m))))
               (set_states (<[Z.to_nat i := None]> (mdp_states m)) m)) ∧
     mdp_states m' !! Z.to_nat i = Some None ∧
     getStateByIndex m' i = Some st ∧
     (∀ n, getStateByName m' n = getStateByName m n) ∧
     rewardsTable_Get (mdp_rewards m') (Some st) = Normal f32_zero ∧
     (state_index st = i → RByIndex m' i = Normal f32_zero) ∧
     (∀ a, TByIndex m' i a = Panics NilDereference) ∧
     (∀ s, s ≠ Some st →
        transitionTable_Get (mdp_transitions m') s =
        transitionTable_Get (mdp_transitions m) s) ∧
     (∀ s : state, state_index s ≠ state_index st →
        rewardsTable_Get (mdp_rewards m') (Some s) =
        rewardsTable_Get (mdp_rewards m) (Some s))) ∧
  (¬ 0 ≤ i < Z.of_nat (length (mdp_states m)) →
   RemoveStateByIndex m i = Panics IndexOutOfRange).
Proof.
  intros Hst. split.
  - intros Hi.
    destruct (RemoveStateByIndex_fields m i st Hst Hi)
      as (m' & Hrun & Hs & _ & Hsm & Him & _ & Hr & Ht).
    exists m'. split; [done|]. split.
    { pose proof (RemoveStateByIndex_eq m i st Hst Hi) as Heq. congruence. }
    assert (Hi' : getStateByIndex m' i = Some st).
    { unfold getStateByIndex in *. by rewrite Him. }
    assert (Hg : rewardsTable_Get (mdp_rewards m') (Some st) = Normal f32_zero).
    { unfold rewardsTable_Get. simpl. by rewrite Hr, lookup_delete_eq. }
    split. { rewrite Hs. apply list_lookup_insert_eq. lia. }
    split; [done|]. split.
    { intros n. unfold getStateByName. by rewrite Hsm. }
    split; [done|]. split.
    { intros _. unfold RByIndex. by rewrite Hi'. }
    split.
    { intros a. unfold TByIndex. rewrite Hi', transitionTable_Get_lookup, Ht.
      by rewrite lookup_delete_eq. }
    split.
    + intros s Hne. rewrite !transitionTable_Get_lookup, Ht.
      by rewrite lookup_delete_ne.
    + intros s Hne. unfold rewardsTable_Get. simpl. rewrite Hr.
      by rewrite lookup_delete_ne.
  - intros Hi. unfold RemoveStateByIndex, slice_store. rewrite Hst.
    destruct (0 <=? i) eqn:H0; destruct (i <? _) eqn:H1; simpl; try done.
    apply Z.leb_le in H0. apply Z.ltb_lt in H1. lia.
Qed.

Lemma RemoveStateByIndex_effects_witness :
  ∃ m',
    RemoveStateByIndex mdp_A 1 = Normal (None, m') ∧
    getStateByIndex m' 1 = Some (mkState 1 "A" 1 false) ∧
    TByIndex m' 1 "U" = Panics NilDereference.
Proof.
  destruct (RemoveStateByIndex_effects mdp_A 1 (mkState 1 "A" 1 false))
    as [Hin _].
  - vm_compute. reflexivity.
  - destruct Hin as (m' & Hrun & _ & _ & Hi & _ & _ & _ & HT & _).
    + vm_compute. split; [discriminate|reflexivity].
    + exists m'. split; [exact Hrun|]. split; [exact Hi|apply HT].
Defined.

(** X21. [RemoveStateByName] reports a name that resolves to nothing and
    changes nothing then.  Otherwise it removes by the index the resolved
    state carries: the state that loses its reward and its transitions is
    the one the index map holds for that index, which, after the index was
    reused, is another state than the one named.  The name stays
    registered, so the same call succeeds again. *)
Theorem RemoveStateByName_removes_index_holder (m : mdp) (name : string) :
  (getStateByName m name = None →
   RemoveStateByName m name =
   Normal (errors_New ("state with name " +:+ name +:+ " doesn't exist"), m)) ∧
  (∀ st st' : state,
     getStateByName m name = Some st →
     getStateByIndex m (state_index st) = Some st' →
     0 ≤ state_index st < Z.of_nat (length (mdp_states m)) →
     ∃ m',
       RemoveStateByName m name = Normal (None, m') ∧
       transitionTable_Get (mdp_transitions m') (Some st') = None ∧
       rewardsTable_Get (mdp_rewards m') (Some st') = Normal f32_zero ∧
       (st ≠ st' →
        transitionTable_Get (mdp_transitions m') (Some st) =
        transitionTable_Get (mdp_transitions m) (Some st)) ∧
       getStateByName m' name = Some st ∧
       ∃ m'', RemoveStateByName m' name = Normal (None, m'')).
Proof.
  split.
  - unfold RemoveStateByName. by intros ->.
  - intros st st' Hn Hi Hr.
    destruct (RemoveStateByIndex_fields m _ st' Hi Hr)
      as (m' & Hrun & Hs & _ & Hsm & Him & _ & Hrew & Ht).
    assert (Hn' : getStateByName m' name = Some st).
    { unfold getStateByName in *. by rewrite Hsm. }
    exists m'. split.
    { unfold RemoveStateByName. rewrite Hn. exact Hrun. }
    split. { by rewrite transitionTable_Get_lookup, Ht, lookup_delete_eq. }
    split. { unfold rewardsTable_Get. simpl. by rewrite Hrew, lookup_delete_eq. }
    split.
    { intros Hne. rewrite !transitionTable_Get_lookup, Ht.
      rewrite lookup_delete_ne; [done|]. intros [= ->]. done. }
    split; [done|].
    destruct (RemoveStateByIndex_fields m' (state_index st) st')
      as (m'' & Hrun' & _).
    { unfold getStateByIndex in *. by rewrite Him. }
    { rewrite Hs, length_insert. done. }
    exists m''. unfold RemoveStateByName. rewrite Hn'. exact Hrun'.
Qed.

(** The instance: in [mdp_AB], removing "A" by name takes the reward and
    the transitions of "B" away. *)
Lemma RemoveStateByName_removes_index_holder_witness :
  ∃ m',
    transitionTable_Get (mdp_transitions mdp_AB) (Some (mkState 2 "B" 1 false))
      = Some (mkEntry ∅) ∧
    RemoveStateByName mdp_AB "A" = Normal (None, m') ∧
    transitionTable_Get (mdp_transitions m') (Some (mkState 2 "B" 1 false))
      = None.
Proof.
  destruct (RemoveStateByName_removes_index_holder mdp_AB "A") as [_ H].
  destruct (H (mkState 1 "A" 1 false) (mkState 2 "B" 1 false))
    as (m' & Hrun & HT & _).
  - vm_compute. reflexivity.
  - vm_compute. reflexivity.
  - vm_compute. split; [discriminate|reflexivity].
  - exists m'. split; [vm_compute; reflexivity|]. split; [exact Hrun|exact HT].
Defined.

(** X22. [RemoveStateByObject] looks at nothing but the name of the object
    it is given: for an object whose name is registered it does what
    [RemoveStateByName] does with that name, whatever object, index and
    terminal flag it was given; for an object of an unregistered name it
    reports the object, rendered by [String], and changes nothing; a nil
    object panics. *)
Theorem RemoveStateByObject_goes_by_name (m : mdp) :
  RemoveStateByObject m None = Panics NilDereference ∧
  (∀ st : state, getStateByName m (state_name st) ≠ None →
     RemoveStateByObject m (Some st) = RemoveStateByName m (state_name st)) ∧
  (∀ st : state, getStateByName m (state_name st) = None →
     RemoveStateByObject m (Some st) =
     Normal (errors_New ("state " +:+
                         ("S_" +:+ string_of_int (state_index st) +:+
                          ": " +:+ state_name st) +:+ " doesn't exist"), m)).
Proof.
  split; [done|]. split.
  - intros st Hn. unfold RemoveStateByObject, RemoveStateByName.
    cbn [state_Name mbind outcome_bind].
    by destruct (getStateByName m (state_name st)).
  - intros st Hn. unfold RemoveStateByObject.
    cbn [state_Name mbind outcome_bind]. rewrite Hn. reflexivity.
Qed.

(** ** Names and the nil state *)

(** [SetState] either registers the state or leaves the aggregate as it
    was. *)
Lemma SetState_unchanged_or_ok (m m' : mdp) (name : string) (index : Z)
    (terminal : bool) (reward : float32) (ts : gmap string Transition)
    (h h' : addr) (err : error) :
  SetState m name index terminal reward ts h = Normal (err, m', h') →
  m' = m ∨ err = None.
Proof.
  unfold SetState.
  destruct (index <? 0) eqn:Hneg; [intros [= <- <- <-]; by left|].
  apply Z.ltb_ge in Hneg.
  destruct (String.eqb name ""); [intros [= <- <- <-]; by left|].
  cbn [NewState].
  rewrite (register_state_unfold m (mkState h name index terminal)).
  destruct (appendStateToList _ _) as [[e0 m0]|] eqn:Happ; [|done].
  apply appendStateToList_no_error in Happ as ->; [|done].
  cbn [mbind outcome_bind].
  destruct (for_range _ _ _) as [c|] eqn:Hloop; [|done].
  apply SetState_loop_frame in Hloop as (acts & e' & h1 & ->).
  cbn [mbind outcome_bind]. intros [= <- <- <-]. by right.
Qed.

Lemma SetStateObject_unchanged_or_ok (m m' : mdp) (st : state)
    (reward : float32) (ts : gmap Action Transition) (err : error) :
  SetStateObject m (Some st) reward ts = Normal (err, m') →
  m' = m ∨ err = None.
Proof.
  unfold SetStateObject. cbn [state_Index state_Name mbind outcome_bind].
  destruct (state_index st <? 0) eqn:Hneg; [intros [= <- <-]; by left|].
  apply Z.ltb_ge in Hneg.
  destruct (String.eqb (state_name st) ""); [intros [= <- <-]; by left|].
  rewrite register_state_unfold.
  destruct (appendStateToList _ _) as [[e0 m0]|] eqn:Happ; [|done].
  apply appendStateToList_no_error in Happ as ->; [|done].
  cbn [mbind outcome_bind].
  destruct (for_range _ _ _) as [c|] eqn:Hloop; [|done].
  apply SetStateObject_loop_frame in Hloop as (acts & e' & ->).
  cbn [mbind outcome_bind]. intros [= <- <-]. by right.
Qed.

(** Writing a named object under its name keeps the registry named. *)
Lemma registry_named_insert (m : mdp) (ac : action) :
  registry_named m →
  registry_named
    (set_actions (<[action_name ac := Some ac]> (mdp_actions m)) m).
Proof.
  intros Hreg n a. unfold getAction. simpl.
  destruct (decide (action_name ac = n)) as [<-|Hne].
  - rewrite lookup_insert_eq. by intros [= <-].
  - rewrite lookup_insert_ne by done. apply Hreg.
Qed.

Lemma registry_named_delete (m : mdp) (n : string) :
  registry_named m →
  registry_named (set_actions (delete n (mdp_actions m)) m).
Proof.
  intros Hreg x a. unfold getAction. simpl.
  destruct (decide (n = x)) as [<-|Hne].
  - by rewrite lookup_delete_eq.
  - rewrite lookup_delete_ne by done. apply Hreg.
Qed.

(** The loop of [SetStateObject] keeps the registry named. *)
Lemma SetStateObject_loop_named (l : list (Action * Transition)) (m : mdp)
    (e : transitionTableEntry) c :
  registry_named m →
  for_range l SetStateObject_body (m, e) = Normal c →
  match c with
  | Continue (m', _) => registry_named m'
  | Return _ => True
  end.
Proof.
  intros Hreg Hloop.
  apply (for_range_invariant (λ '(m, _), registry_named m) (λ _, True))
    in Hloop; [by destruct c as [[??]|]|clear Hloop|done].
  intros [a tr] [m1 e1] c1 _ Hreg1. destruct a as [ac|]; [|done].
  destruct tr as [t|].
  - rewrite SetStateObject_body_eq. intros [= <-].
    destruct (getAction m1 (action_name ac)); [done|].
    by apply registry_named_insert.
  - unfold SetStateObject_body. cbn [action_Name mbind outcome_bind].
    destruct (getAction m1 (action_name ac)) as [x|] eqn:Ha; [done|].
    unfold AddActionObject. cbn [action_Name mbind outcome_bind].
    by rewrite Ha.
Qed.

(** The registry after a successful [SetState] or [SetStateObject]. *)
Lemma SetState_registry_named (m m' : mdp) (name : string) (index : Z)
    (terminal : bool) (reward : float32) (ts : gmap string Transition)
    (h h' : addr) :
  registry_named m →
  SetState m name index terminal reward ts h = Normal (None, m', h') →
  registry_named m'.
Proof.
  intros Hreg. unfold SetState.
  destruct (index <? 0); [done|]. destruct (String.eqb name ""); [done|].
  cbn [NewState].
  destruct (register_state _ _ _ _ _) as [[[err|] m1]|] eqn:Hregs;
    cbn [mbind outcome_bind]; try done.
  apply (register_state_fields m m1 (mkState h name index terminal)) in Hregs
    as (_ & _ & _ & _ & Hact & _).
  destruct (for_range _ _ _) as [c|] eqn:Hloop; [|done].
  apply (SetState_loop_spec _ (NoDup_fst_map_to_list ts)) in Hloop
    as (m2 & e' & h2 & -> & _ & Hreg2 & _).
  2:{ intros n a. unfold getAction. rewrite Hact. apply Hreg. }
  cbn [mbind outcome_bind]. intros [= <- <-].
  intros n a. unfold install_entry. destruct (index =? 0); apply Hreg2.
Qed.

Lemma SetStateObject_registry_named (m m' : mdp) (st : state)
    (reward : float32) (ts : gmap Action Transition) :
  registry_named m →
  SetStateObject m (Some st) reward ts = Normal (None, m') →
  registry_named m'.
Proof.
  intros Hreg. unfold SetStateObject.
  cbn [state_Index state_Name mbind outcome_bind].
  destruct (state_index st <? 0); [done|].
  destruct (String.eqb (state_name st) ""); [done|].
  destruct (register_state _ _ _ _ _) as [[[err|] m1]|] eqn:Hregs;
    cbn [mbind outcome_bind]; try done.
  apply register_state_fields in Hregs as (_ & _ & _ & _ & Hact & _).
  destruct (for_range _ _ _) as [c|] eqn:Hloop; [|done].
  pose proof Hloop as Hframe.
  apply SetStateObject_loop_frame in Hframe as (acts & e' & ->).
  apply SetStateObject_loop_named in Hloop.
  2:{ intros n a. unfold getAction. rewrite Hact. apply Hreg. }
  cbn [mbind outcome_bind]. intros [= <-].
  intros n a. unfold install_entry.
  destruct (state_index st =? 0); apply Hloop.
Qed.

(** Registering a named state keeps [states_named] and the nil key free. *)
Lemma states_named_insert (m m' : mdp) (st : state) :
  states_named m →
  mdp_stateMap m' = <[state_name st := Some st]> (mdp_stateMap m) →
  states_named m'.
Proof.
  intros Hs Hsm n s. unfold getStateByName. rewrite Hsm.
  destruct (decide (state_name st = n)) as [<-|Hne].
  - rewrite lookup_insert_eq. by intros [= <-].
  - rewrite lookup_insert_ne by done. apply Hs.
Qed.

Lemma without_state_at_nil_key (m : mdp) (index : Z) :
  transitionTable_Get (mdp_transitions (without_state_at m index)) None =
  transitionTable_Get (mdp_transitions m) None.
Proof.
  unfold without_state_at. destruct (getStateByIndex m index) as [sOld|]; [|done].
  rewrite !transitionTable_Get_lookup. simpl. by rewrite lookup_delete_ne.
Qed.

Lemma SetState_consistent (m m' : mdp) (name : string) (index : Z)
    (terminal : bool) (reward : float32) (ts : gmap string Transition)
    (h h' : addr) (err : error) :
  consistent m →
  SetState m name index terminal reward ts h = Normal (err, m', h') →
  consistent m'.
Proof.
  intros (Hwf & Hs & Hr & Ht) Hset.
  split; [by eapply SetState_well_formed|].
  destruct (SetState_unchanged_or_ok _ _ _ _ _ _ _ _ _ _ Hset) as [->| ->];
    [done|].
  pose proof (SetState_fields _ _ _ _ _ _ _ _ _ Hset)
    as (e' & Hsm & _ & _ & Htt & _).
  split; [|split].
  - by apply (states_named_insert m m' (mkState h name index terminal)).
  - by eapply SetState_registry_named.
  - rewrite transitionTable_Get_lookup, Htt. simpl.
    rewrite lookup_insert_ne by done.
    rewrite <- transitionTable_Get_lookup. by rewrite without_state_at_nil_key.
Qed.

Lemma SetStateObject_consistent (m m' : mdp) (s : State) (reward : float32)
    (ts : gmap Action Transition) (err : error) :
  consistent m →
  SetStateObject m s reward ts = Normal (err, m') →
  consistent m'.
Proof.
  intros (Hwf & Hs & Hr & Ht) Hset.
  split; [by eapply SetStateObject_well_formed|].
  destruct s as [st|]; [|done].
  destruct (SetStateObject_unchanged_or_ok _ _ _ _ _ _ Hset) as [->| ->];
    [done|].
  pose proof (SetStateObject_fields _ _ _ _ _ Hset)
    as (Hsm & _ & _ & Htt & _).
  split; [|split].
  - by apply (states_named_insert m m' st).
  - by eapply SetStateObject_registry_named.
  - rewrite transitionTable_Get_lookup, Htt. simpl.
    rewrite lookup_insert_ne by done.
    rewrite <- transitionTable_Get_lookup. by rewrite without_state_at_nil_key.
Qed.

Lemma RemoveStateByIndex_consistent (m m' : mdp) (index : Z) (err : error) :
  consistent m →
  RemoveStateByIndex m index = Normal (err, m') →
  consistent m'.
Proof.
  intros (Hwf & Hs & Hr & Ht) Hrun.
  split; [by eapply RemoveStateByIndex_well_formed|].
  revert Hrun. unfold RemoveStateByIndex.
  destruct (getStateByIndex m index) as [st|]; [|by intros [= <- <-]].
  destruct (slice_store _ _ _) as [l|]; [|done].
  cbn [mbind outcome_bind rewardsTable_Remove state_Index].
  intros [= <- <-]. split; [done|]. split; [done|].
  rewrite transitionTable_Get_lookup in *. simpl.
  by rewrite lookup_delete_ne.
Qed.

Lemma RemoveStateByName_consistent (m m' : mdp) (name : string) (err : error) :
  consistent m →
  RemoveStateByName m name = Normal (err, m') →
  consistent m'.
Proof.
  intros Hc. unfold RemoveStateByName.
  destruct (getStateByName m name) as [st|]; [|by intros [= <- <-]].
  by apply RemoveStateByIndex_consistent.
Qed.

(** The loop of [RemoveAction] stops with a panic at a nil slot, so if it
    ends the nil key is as free as it was. *)
Lemma RemoveAction_consistent (m m' : mdp) (a : string) (err : error) :
  consistent m →
  RemoveAction m a = Normal (err, m') →
  consistent m'.
Proof.
  intros (Hwf & Hs & Hr & Ht) Hrun.
  split; [by eapply RemoveAction_well_formed|].
  revert Hrun. unfold RemoveAction.
  destruct (getAction m a) as [x|]; [|by intros [= <- <-]].
  destruct (for_range _ _ _) as [c|] eqn:Hloop; [|done].
  apply (for_range_invariant
           (λ t, transitionTable_Get t None = None) (λ _, True)) in Hloop.
  - cbn [mbind outcome_bind]. destruct c as [t|[]]; intros [= <- <-].
    + split; [done|]. split; [by apply registry_named_delete|done].
    + split; [done|]. split; [by apply registry_named_delete|done].
  - intros s t c1 _ Hnil. destruct s as [st|].
    + destruct (transitionTableEntry_Remove _ _) as [e|]; [|done].
      cbn [mbind outcome_bind]. intros [= <-].
      rewrite transitionTable_Get_lookup in *. simpl.
      by rewrite lookup_insert_ne.
    + by rewrite Hnil.
  - done.
Qed.

(** An operation on the entry of a start state panics unless the name
    resolves, so it never writes under the nil key. *)
Lemma set_entry_nil_key (t : transitionTable) (s : State)
    (e : TransitionTableEntry) :
  s ≠ None →
  transitionTable_Get t None = None →
  transitionTable_Get (transitionTable_Set t s e) None = None.
Proof.
  intros Hne. rewrite !transitionTable_Get_lookup. simpl.
  by rewrite lookup_insert_ne.
Qed.

Lemma SetTransition_consistent (m m' : mdp) (s1 s2 a : string) (p : float32) :
  consistent m → SetTransition m s1 s2 a p = Normal m' → consistent m'.
Proof.
  intros (Hwf & Hs & Hr & Ht) Hrun.
  split; [by eapply SetTransition_well_formed|].
  revert Hrun. unfold SetTransition, transitionTable_Update.
  rewrite <- transitionTable_Get_lookup.
  destruct (getStateByName m s1) as [st|] eqn:Hst; [|by rewrite Ht].
  destruct (transitionTable_Get (mdp_transitions m) (Some st)) as [e|];
    cbn [transitionTableEntry_Set mbind outcome_bind]; [|done].
  intros [= <-].
  split; [done|]. split; [done|].
  by apply (set_entry_nil_key _ (Some st)).
Qed.

Lemma RemoveTransition_consistent (m m' : mdp) (s1 s2 : string) :
  consistent m → RemoveTransition m s1 s2 = Normal m' → consistent m'.
Proof.
  intros (Hwf & Hs & Hr & Ht). unfold RemoveTransition.
  destruct (getStateByName m s1) as [st|] eqn:Hst; [|by rewrite Ht].
  destruct (transitionTableEntry_RemoveTransition _ _) as [e|]; [|done].
  cbn [mbind outcome_bind]. intros [= <-]. split; [done|].
  split; [done|]. split; [done|]. by apply set_entry_nil_key.
Qed.

Lemma RemoveTransitionByAction_consistent (m m' : mdp) (s a : string) :
  consistent m → RemoveTransitionByAction m s a = Normal m' → consistent m'.
Proof.
  intros (Hwf & Hs & Hr & Ht). unfold RemoveTransitionByAction.
  destruct (getStateByName m s) as [st|] eqn:Hst; [|by rewrite Ht].
  destruct (transitionTableEntry_Remove _ _) as [e|]; [|done].
  cbn [mbind outcome_bind]. intros [= <-]. split; [done|].
  split; [done|]. split; [done|]. by apply set_entry_nil_key.
Qed.

Lemma AddActionObject_consistent (m m' : mdp) (a : Action) (err : error) :
  consistent m → AddActionObject m a = Normal (err, m') → consistent m'.
Proof.
  intros (Hwf & Hs & Hr & Ht). unfold AddActionObject.
  destruct a as [ac|]; [|done]. cbn [action_Name mbind outcome_bind].
  destruct (getAction m (action_name ac)); intros [= <- <-]; [done|].
  split; [done|]. split; [done|]. split; [|done].
  by apply registry_named_insert.
Qed.

Lemma AddAction_consistent (m m' : mdp) (a : string) (h h' : addr)
    (err : error) :
  consistent m → AddAction m a h = (err, m', h') → consistent m'.
Proof.
  intros (Hwf & Hs & Hr & Ht). unfold AddAction.
  destruct (getAction m a); cbn [NewAction]; intros [= <- <- <-]; [done|].
  split; [done|]. split; [done|]. split; [|done].
  by apply (registry_named_insert m (mkAction h a)).
Qed.

(** The facts about names through the loops of [NewMDP]. *)
Lemma NewMDP_named (initialState : string)
    (states terminals actions : list string) (rewards : gmap string float32)
    (transitions : gmap string (gmap string Transition))
    (discountRate : float32) (h h' : addr) (m : mdp) :
  NewMDP initialState states terminals actions rewards transitions
    discountRate h = Normal (Some m, None, h') →
  states_named m ∧ registry_named m.
Proof.
  unfold NewMDP.
  destruct (discount_out_of_range discountRate); [done|].
  rewrite make_states_default. cbn [NewRewards mbind outcome_bind].
  set (m0 := mkMdp _ _ _ _ _ _ _ _ _ _).
  set (p1 := if negb (String.eqb initialState "") then _ else _).
  assert (H1 : states_named p1.1 ∧ registry_named p1.1).
  { subst p1. destruct (String.eqb initialState ""); cbn [negb NewState].
    - done.
    - split; [|done]. intros n st. unfold getStateByName. simpl.
      destruct (decide (initialState = n)) as [<-|Hne].
      + rewrite lookup_insert_eq. by intros [= <-].
      + by rewrite lookup_insert_ne. }
  destruct p1 as [m1 h1]. simpl in H1.
  set (p2 := foldl _ _ _).
  assert (H2 : states_named p2.1 ∧ registry_named p2.1).
  { subst p2. clear -H1. revert m1 h1 H1.
    induction actions as [|a actions IH]; intros m1 h1 H1; [done|].
    simpl. apply IH. destruct H1 as [Hs Hr]. split; [done|].
    apply (registry_named_insert m1 (mkAction h1 a) Hr). }
  destruct p2 as [m2 h2]. simpl in H2.
  destruct (for_range _ _ _) as [c|] eqn:Hloop; [|done].
  apply (for_range_invariant
           (λ '(m, _, _), states_named m ∧ registry_named m) (λ _, True))
    in Hloop.
  - cbn [mbind outcome_bind]. destruct c as [[[m3 i3] h3]|[err h3]]; [|done].
    by intros [= <- <-].
  - clear Hloop. intros x [[mx ix] hx] c' _ [Hs Hr]. unfold NewMDP_state_body.
    cbn [NewState].
    destruct (String.eqb initialState x); cbn [negb]; [by intros [= <-]|].
    cbn [rewardsTable_Set state_Index mbind outcome_bind mret outcome_ret].
    destruct (for_range _ _ _) as [[entry|err]|]; cbn [mbind outcome_bind];
      [|by intros [= <-]|done].
    intros [= <-]. split; [|done].
    intros n st. unfold getStateByName. simpl.
    destruct (decide (x = n)) as [<-|Hne].
    + rewrite lookup_insert_eq. by intros [= <-].
    + rewrite lookup_insert_ne by done. apply Hs.
  - done.
Qed.

(** The default aggregate and [mdp_A] are consistent. *)
Lemma default_mdp_consistent : consistent default_mdp.
Proof.
  split; [apply default_mdp_well_formed|]. split; [|split; [|done]].
  - intros n st. unfold getStateByName. simpl. by rewrite lookup_empty.
  - intros n a. unfold getAction. simpl. by rewrite lookup_empty.
Qed.

Lemma mdp_A_consistent : consistent mdp_A.
Proof.
  eapply SetState_consistent; [apply default_mdp_consistent|].
  apply mdp_A_reached.
Qed.

(** X23. Every aggregate [NewMDP] returns is consistent: the capacity is
    at least 128 and covered by the backing array, the index map is keyed
    by the indices the states carry, every name resolves to a state or an
    action carrying that name, and the transition table holds nothing under
    the nil state. *)
Theorem NewMDP_consistent (initialState : string)
    (states terminals actions : list string) (rewards : gmap string float32)
    (transitions : gmap string (gmap string Transition))
    (discountRate : float32) (h h' : addr) (m : mdp) :
  NewMDP initialState states terminals actions rewards transitions
    discountRate h = Normal (Some m, None, h') →
  consistent m.
Proof.
  intros Hnew. split; [by eapply NewMDP_well_formed|].
  pose proof (NewMDP_named _ _ _ _ _ _ _ _ _ _ Hnew) as [Hs Hr].
  apply NewMDP_constructed in Hnew as (_ & _ & Ht & _). done.
Qed.

Lemma NewMDP_consistent_witness : consistent default_mdp.
Proof.
  apply (NewMDP_consistent "" [] [] [] ∅ ∅ f32_one 1%nat 1%nat default_mdp).
  apply NewDefaultMDP_eq.
Defined.

(** X24. Consistency is an invariant of the aggregate: every operation
    that returns, with or without an error, returns a consistent
    aggregate. *)
Theorem operations_keep_consistent (m : mdp) :
  consistent m →
  (∀ name index terminal reward ts h err m' h',
     SetState m name index terminal reward ts h = Normal (err, m', h') →
     consistent m') ∧
  (∀ s reward ts err m',
     SetStateObject m s reward ts = Normal (err, m') → consistent m') ∧
  (∀ name reward ts h err m' h',
     SetInitialState m name reward ts h = Normal (err, m', h') →
     consistent m') ∧
  (∀ s reward ts err m',
     SetInitialStateObject m s reward ts = Normal (err, m') → consistent m') ∧
  (∀ name terminal reward ts h err m' h',
     AddState m name terminal reward ts h = Normal (err, m', h') →
     consistent m') ∧
  (∀ s reward ts err m',
     AddStateObject m s reward ts = Normal (err, m') → consistent m') ∧
  (∀ index err m',
     RemoveStateByIndex m index = Normal (err, m') → consistent m') ∧
  (∀ name err m',
     RemoveStateByName m name = Normal (err, m') → consistent m') ∧
  (∀ s err m',
     RemoveStateByObject m s = Normal (err, m') → consistent m') ∧
  (∀ a h err m' h', AddAction m a h = (err, m', h') → consistent m') ∧
  (∀ a err m', AddActionObject m a = Normal (err, m') → consistent m') ∧
  (∀ a err m', RemoveAction m a = Normal (err, m') → consistent m') ∧
  (∀ a err m', RemoveActionObject m a = Normal (err, m') → consistent m') ∧
  (∀ d err m', SetDiscountRate m d = (err, m') → consistent m') ∧
  (∀ s1 s2 a p m', SetTransition m s1 s2 a p = Normal m' → consistent m') ∧
  (∀ s1 s2 m', RemoveTransition m s1 s2 = Normal m' → consistent m') ∧
  (∀ s a m', RemoveTransitionByAction m s a = Normal m' → consistent m').
Proof.
  intros Hc.
  split. { intros *. by apply SetState_consistent. }
  split. { intros *. by apply SetStateObject_consistent. }
  split. { intros *. by apply SetState_consistent. }
  split. { intros *. by apply SetStateObject_consistent. }
  split. { intros *. by apply SetState_consistent. }
  split. { intros *. by apply SetStateObject_consistent. }
  split. { intros *. by apply RemoveStateByIndex_consistent. }
  split. { intros *. by apply RemoveStateByName_consistent. }
  split.
  { intros s err m'. unfold RemoveStateByObject.
    destruct s as [st|]; [|done]. cbn [state_Name mbind outcome_bind].
    destruct (getStateByName m (state_name st)) as [st'|].
    - by apply RemoveStateByIndex_consistent.
    - cbn [state_String mbind outcome_bind]. by intros [= <- <-]. }
  split. { intros *. by apply AddAction_consistent. }
  split. { intros *. by apply AddActionObject_consistent. }
  split. { intros *. by apply RemoveAction_consistent. }
  split.
  { intros a err m'. unfold RemoveActionObject. destruct a as [ac|]; [|done].
    by apply RemoveAction_consistent. }
  split.
  { intros d err m'. unfold SetDiscountRate.
    destruct (discount_out_of_range d); by intros [= <- <-]. }
  split. { intros *. by apply SetTransition_consistent. }
  split. { intros *. by apply RemoveTransition_consistent. }
  intros *. by apply RemoveTransitionByAction_consistent.
Qed.

Lemma operations_keep_consistent_witness :
  ∃ m' h', SetState default_mdp "A" 1 false f32_one ∅ 1 = Normal (None, m', h')
           ∧ consistent m'.
Proof.
  exists mdp_A, 2%nat. split; [apply mdp_A_reached|].
  destruct (operations_keep_consistent default_mdp) as [H _].
  - apply default_mdp_consistent.
  - eapply H. apply mdp_A_reached.
Defined.

(** X25. In a consistent aggregate nothing can be asked of, or changed in,
    the transitions of a name that resolves to no state: [T],
    [SetTransition], [RemoveTransition] and [RemoveTransitionByAction] all
    panic with a nil dereference, and so does [TByIndex] for an index that
    resolves to no state. *)
Theorem transitions_of_unknown_state_panic (m : mdp) (s : string) :
  consistent m →
  getStateByName m s = None →
  (∀ a, T m s a = Panics NilDereference) ∧
  (∀ s2 a p, SetTransition m s s2 a p = Panics NilDereference) ∧
  (∀ s2, RemoveTransition m s s2 = Panics NilDereference) ∧
  (∀ a, RemoveTransitionByAction m s a = Panics NilDereference) ∧
  (∀ i a, getStateByIndex m i = None → TByIndex m i a = Panics NilDereference).
Proof.
  intros (_ & _ & _ & Ht) Hs.
  split. { intros a. unfold T. by rewrite Hs, Ht. }
  split.
  { intros s2 a p. unfold SetTransition, transitionTable_Update.
    rewrite <- transitionTable_Get_lookup. by rewrite Hs, Ht. }
  split. { intros s2. unfold RemoveTransition. by rewrite Hs, Ht. }
  split. { intros a. unfold RemoveTransitionByAction. by rewrite Hs, Ht. }
  intros i a Hi. unfold TByIndex. by rewrite Hi, Ht.
Qed.

Lemma transitions_of_unknown_state_panic_witness :
  T mdp_A "ghost" "U" = Panics NilDereference ∧
  SetTransition mdp_A "ghost" "A" "U" f32_one = Panics NilDereference.
Proof.
  destruct (transitions_of_unknown_state_panic mdp_A "ghost") as (HT & HS & _).
  - apply mdp_A_consistent.
  - reflexivity.
  - split; [apply HT|apply HS].
Defined.

(** ** Removing actions, continued *)

(** The loop of [RemoveAction] over slots that all have an entry: every
    entry of a slot loses the action, every other entry is as before. *)
Lemma RemoveAction_loop (a : Action) (l : list State) :
  ∀ t,
    Forall (λ s, is_Some (transitionTable_Get t s)) l →
    ∃ t',
      for_range (R := unit) l
        (λ s t,
           e ← transitionTableEntry_Remove (transitionTable_Get t s) a;
           Normal (Continue (transitionTable_Set t s (Some e)))) t
      = Normal (Continue t') ∧
      (∀ s, s ∈ l →
         transitionTable_Get t' s =
         (λ e, mkEntry (delete a (transitionTableEntry_entry e)))
           <$> transitionTable_Get t s) ∧
      (∀ s, s ∉ l → transitionTable_Get t' s = transitionTable_Get t s).
Proof.
  induction l as [|s l IH]; intros t Hall; cbn [for_range].
  - exists t. split; [done|]. split; [|done].
    intros s Hin. by apply elem_of_nil in Hin.
  - apply Forall_cons in Hall as [[e He] Hall]. rewrite He.
    cbn [transitionTableEntry_Remove mbind outcome_bind].
    set (e1 := mkEntry (delete a (transitionTableEntry_entry e))).
    set (t1 := transitionTable_Set t s (Some e1)).
    assert (Hs1 : transitionTable_Get t1 s = Some e1).
    { unfold t1. rewrite transitionTable_Get_lookup. simpl.
      by rewrite lookup_insert_eq. }
    assert (Hx1 : ∀ x, x ≠ s → transitionTable_Get t1 x = transitionTable_Get t x).
    { intros x Hx. unfold t1. rewrite !transitionTable_Get_lookup. simpl.
      by rewrite lookup_insert_ne. }
    destruct (IH t1) as (t' & Hrun & Hin & Hout).
    { eapply Forall_impl; [exact Hall|]. intros x Hx. simpl in Hx.
      destruct (decide (x = s)) as [->|Hne]; [by rewrite Hs1|].
      by rewrite Hx1. }
    exists t'. split; [exact Hrun|]. split.
    + intros x Hx. destruct (decide (x = s)) as [->|Hne].
      * destruct (decide (s ∈ l)) as [Hl|Hl].
        -- rewrite Hin, Hs1, He by done. simpl. unfold e1. simpl.
           by rewrite delete_delete_eq.
        -- by rewrite Hout, Hs1, He.
      * apply elem_of_cons in Hx as [?|Hx]; [done|].
        rewrite Hin by done. by rewrite Hx1.
    + intros x Hx. apply not_elem_of_cons in Hx as [Hne Hx].
      rewrite Hout by done. by apply Hx1.
Qed.

(** X26. [RemoveAction] of a registered action returns when every slot of
    the backing array holds a state with an entry in the transition table.
    It then unregisters the name and deletes the transition stored under
    the action object from the entry of every slot; entries of states held
    by no slot keep theirs, and no other field changes. *)
Theorem RemoveAction_cascade (m : mdp) (name : string) (a : action) :
  getAction m name = Some a →
  Forall (λ s, is_Some (transitionTable_Get (mdp_transitions m) s))
         (mdp_states m) →
  ∃ m',
    RemoveAction m name = Normal (None, m') ∧
    m' = set_transitions (mdp_transitions m')
           (set_actions (delete name (mdp_actions m)) m) ∧
    getAction m' name = None ∧
    (∀ s, s ∈ mdp_states m →
       transitionTable_Get (mdp_transitions m') s =
       (λ e, mkEntry (delete (Some a) (transitionTableEntry_entry e)))
         <$> transitionTable_Get (mdp_transitions m) s) ∧
    (∀ s, s ∉ mdp_states m →
       transitionTable_Get (mdp_transitions m') s =
       transitionTable_Get (mdp_transitions m) s).
Proof.
  intros Ha Hall. unfold RemoveAction. rewrite Ha.
  destruct (RemoveAction_loop (Some a) (mdp_states m) (mdp_transitions m) Hall)
    as (t' & Hrun & Hin & Hout).
  cbn [mdp_states mdp_transitions set_actions]. rewrite Hrun.
  cbn [mbind outcome_bind]. eexists. split; [reflexivity|].
  split; [done|]. split; [|done].
  unfold getAction. simpl. by rewrite lookup_delete_eq.
Qed.

Lemma RemoveAction_cascade_witness :
  ∃ m',
    T full_mdp "A" "U" = Normal (NewTransition f32_one None) ∧
    RemoveAction full_mdp "U" = Normal (None, m') ∧
    getAction m' "U" = None.
Proof.
  destruct (RemoveAction_cascade full_mdp "U" (mkAction 2 "U"))
    as (m' & Hrun & _ & Hget & _).
  - vm_compute. reflexivity.
  - apply (bool_decide_unpack _). vm_compute. exact I.
  - exists m'. split; [vm_compute; reflexivity|]. by split.
Defined.

(** ** What construction builds *)

Lemma getAction_default (m : mdp) (a : string) :
  default None (mdp_actions m !! a) = getAction m a.
Proof. unfold getAction. by destruct (_ !! _). Qed.

(** The loop of [NewMDP] over the transitions of one state, when it runs to
    its end: under every registered action object the entry holds what the
    list holds for the name of the object. *)
Lemma NewMDP_entry_loop_spec (m : mdp) (terminalMap : gmap string bool)
    (state : string) (l : list (string * Transition)) :
  NoDup l.*1 → registry_named m →
  ∀ e e',
    for_range l (NewMDP_entry_body m terminalMap state) e
    = Normal (Continue e') →
    ∀ n obj, getAction m n = Some obj →
      transitionTableEntry_entry e' !! Some obj =
      match (list_to_map l : gmap string Transition) !! n with
      | Some tr => Some tr
      | None => transitionTableEntry_entry e !! Some obj
      end.
Proof.
  intros Hnd Hreg. induction l as [|[a tr] l IH]; intros e e'; cbn [for_range].
  - intros [= <-] n obj _. simpl. by rewrite lookup_empty.
  - simpl in Hnd. apply NoDup_cons in Hnd as [Hfresh Hnd].
    destruct (terminalMap !! state) as [b|] eqn:Ht.
    2:{ by rewrite NewMDP_entry_body_non_terminal. }
    destruct tr as [tr|].
    2:{ unfold NewMDP_entry_body. by rewrite Ht. }
    rewrite (NewMDP_entry_body_terminal _ _ _ _ _ _ b) by done.
    cbn [mbind outcome_bind]. intros Hloop n obj Hn.
    rewrite (IH Hnd _ _ Hloop n obj Hn). simpl. rewrite getAction_default.
    destruct (decide (a = n)) as [->|Hne].
    + rewrite (lookup_insert_eq (list_to_map l)).
      rewrite (not_elem_of_list_to_map_1 _ n) by done.
      rewrite Hn, lookup_insert_eq. by destruct tr.
    + rewrite (lookup_insert_ne (list_to_map l)) by done.
      destruct (list_to_map l !! n); [done|].
      rewrite lookup_insert_ne; [done|]. intros Heq. apply Hne.
      apply Hreg in Heq. apply Hreg in Hn. congruence.
Qed.

(** One round of the loop of [NewMDP] over the states that goes on to the
    next state, for a state other than the initial one. *)
Lemma NewMDP_state_body_spec (initialState : string)
    (terminalMap : gmap string bool) (rewards : gmap string float32)
    (transitions : gmap string (gmap string Transition)) (x : string)
    (m : mdp) (i : Z) (h : addr) (m1 : mdp) (i1 : Z) (h1 : addr) :
  registry_named m → initialState ≠ x →
  NewMDP_state_body initialState terminalMap rewards transitions x (m, i, h)
  = Normal (Continue (m1, i1, h1)) →
  let s := mkState h x i
             match terminalMap !! x with Some _ => true | None => false end in
  i1 = i + 1 ∧ mdp_actions m1 = mdp_actions m ∧
  mdp_initialState m1 = mdp_initialState m ∧
  mdp_stateMap m1 = <[x := Some s]> (mdp_stateMap m) ∧
  mdp_stateIndexMap m1 = <[i := Some s]> (mdp_stateIndexMap m) ∧
  rewardsTable_table (mdp_rewards m1) =
    <[i := default f32_zero (rewards !! x)]>
      (rewardsTable_table (mdp_rewards m)) ∧
  ∃ e,
    transitionTable_table (mdp_transitions m1) =
      <[Some s := Some e]> (transitionTable_table (mdp_transitions m)) ∧
    ∀ a obj, getAction m a = Some obj →
      transitionTableEntry_entry e !! Some obj =
      default ∅ (transitions !! x) !! a.
Proof.
  intros Hreg Hne. unfold NewMDP_state_body. cbn [NewState].
  apply String.eqb_neq in Hne. rewrite Hne. cbn [negb].
  cbn [rewardsTable_Set state_Index mbind outcome_bind mret outcome_ret].
  destruct (for_range _ _ _) as [[entry|err]|] eqn:Hent;
    cbn [mbind outcome_bind]; [|done|done].
  intros [= <- <- <-]. cbv zeta.
  do 6 (split; [reflexivity|]). exists entry. split; [reflexivity|].
  intros a obj Ha.
  eapply (NewMDP_entry_loop_spec _ _ _ _ (NoDup_fst_map_to_list _)) in Hent;
    [| |exact Ha].
  2:{ intros n b. apply Hreg. }
  rewrite Hent, list_to_map_to_list. cbn [transitionTableEntry_entry].
  destruct (default ∅ (transitions !! x) !! a); [done|].
  by rewrite lookup_empty.
Qed.

(** The loop of [NewMDP] over a list of distinct names, when it runs to its
    end: the registry and the initial state are untouched; names not
    listed, indices below the counter and entries of states below the
    counter are as before; and every listed name other than the initial
    one resolves to a state which carries the name, the counter value of
    its turn and the terminal flag, has the reward given and an entry that
    holds the transitions given under the registered actions. *)
Lemma NewMDP_state_loop_spec (initialState : string)
    (terminalMap : gmap string bool) (rewards : gmap string float32)
    (transitions : gmap string (gmap string Transition)) (l : list string) :
  NoDup l →
  ∀ m i h m' i' h',
    registry_named m →
    for_range l
      (NewMDP_state_body initialState terminalMap rewards transitions)
      (m, i, h) = Normal (Continue (m', i', h')) →
    mdp_actions m' = mdp_actions m ∧
    mdp_initialState m' = mdp_initialState m ∧
    (∀ n, n ∉ l ∨ n = initialState →
       mdp_stateMap m' !! n = mdp_stateMap m !! n) ∧
    (∀ j, j < i →
       mdp_stateIndexMap m' !! j = mdp_stateIndexMap m !! j ∧
       rewardsTable_table (mdp_rewards m') !! j =
       rewardsTable_table (mdp_rewards m) !! j) ∧
    (∀ s, match s with Some st => state_index st < i | None => True end →
       transitionTable_table (mdp_transitions m') !! s =
       transitionTable_table (mdp_transitions m) !! s) ∧
    (∀ k n, l !! k = Some n → n ≠ initialState →
       ∃ st e,
         mdp_stateMap m' !! n = Some (Some st) ∧
         state_name st = n ∧
         state_index st =
           i + Z.of_nat (length (filter (λ y, y ≠ initialState) (take k l))) ∧
         state_terminal st =
           match terminalMap !! n with Some _ => true | None => false end ∧
         mdp_stateIndexMap m' !! state_index st = Some (Some st) ∧
         rewardsTable_table (mdp_rewards m') !! state_index st =
           Some (default f32_zero (rewards !! n)) ∧
         transitionTable_table (mdp_transitions m') !! Some st = Some (Some e) ∧
         ∀ a obj, getAction m a = Some obj →
           transitionTableEntry_entry e !! Some obj =
           default ∅ (transitions !! n) !! a).
Proof.
  induction l as [|x l IH]; intros Hnd m i h m' i' h' Hreg; cbn [for_range].
  - intros [= <- <- <-]. do 5 (split; [done|]). intros k n Hk. done.
  - apply NoDup_cons in Hnd as [Hfresh Hnd].
    destruct (NewMDP_state_body _ _ _ _ x (m, i, h)) as [[[[m1 i1] h1]|r]|]
      eqn:Hb; cbn [mbind outcome_bind]; [|done|done].
    intros Hloop.
    destruct (decide (initialState = x)) as [Heq|Hne].
    + (* the initial state is skipped *)
      assert (Hskip : (m1, i1, h1) = (m, i, S h)).
      { revert Hb. unfold NewMDP_state_body. cbn [NewState].
        assert (He : String.eqb initialState x = true) by (by apply String.eqb_eq).
        rewrite He. cbn [negb]. by intros [= <- <- <-]. }
      injection Hskip as -> -> ->.
      destruct (IH Hnd _ _ _ _ _ _ Hreg Hloop)
        as (Ha & Hinit & Hsm & Hlow & Htt & Hlist).
      split; [done|]. split; [done|]. split.
      { intros n [Hn| ->].
        - apply Hsm. left. intros Hin. apply Hn. by right.
        - apply Hsm. by right. }
      split; [done|]. split; [done|].
      intros [|k] n Hk Hn; simpl in Hk.
      * injection Hk as <-. done.
      * destruct (Hlist k n Hk Hn) as (st & e & H1 & H2 & H3 & H4).
        exists st, e. split; [done|]. split; [done|]. split; [|done].
        rewrite H3. simpl. rewrite filter_cons_False; [done|].
        intros Hx. by apply Hx.
    + (* a state of its own *)
      pose proof (NewMDP_state_body_spec _ _ _ _ _ _ _ _ _ _ _ Hreg Hne Hb)
        as (-> & Ha1 & Hinit1 & Hsm1 & Him1 & Hrw1 & e1 & Htt1 & He1).
      assert (Hreg1 : registry_named m1).
      { intros n a. unfold getAction. rewrite Ha1. apply Hreg. }
      destruct (IH Hnd _ _ _ _ _ _ Hreg1 Hloop)
        as (Ha & Hinit & Hsm & Hlow & Htt & Hlist).
      split; [congruence|]. split; [congruence|]. split.
      { intros n Hn. rewrite Hsm, Hsm1.
        - apply lookup_insert_ne. intros <-. destruct Hn as [Hn|Hn]; [|done].
          apply Hn. by left.
        - destruct Hn as [Hn|Hn]; [left|by right].
          intros Hin. apply Hn. by right. }
      split.
      { intros j Hj. destruct (Hlow j) as [-> ->]; [lia|].
        rewrite Him1, Hrw1. rewrite !lookup_insert_ne by lia. done. }
      split.
      { intros s Hs. rewrite Htt, Htt1.
        - apply lookup_insert_ne. intros <-. simpl in Hs. lia.
        - destruct s as [st|]; [lia|done]. }
      intros [|k] n Hk Hn; simpl in Hk.
      * injection Hk as <-. eexists _, e1.
        split. { rewrite Hsm by (by left). rewrite Hsm1. apply lookup_insert_eq. }
        split; [done|]. split; [simpl; lia|]. split; [done|].
        cbn [state_index].
        destruct (Hlow i) as [-> ->]; [lia|].
        rewrite Him1, Hrw1, !lookup_insert_eq.
        split; [done|]. split; [done|]. split; [|done].
        rewrite Htt by (simpl; lia). rewrite Htt1. apply lookup_insert_eq.
      * destruct (Hlist k n Hk Hn) as (st & e & H1 & H2 & H3 & H4 & H5 & H6 & H7 & H8).
        exists st, e. split; [done|]. split; [done|]. split.
        { rewrite H3. simpl. rewrite filter_cons_True by done. simpl. lia. }
        split; [done|]. split; [done|]. split; [done|]. split; [done|].
        intros a obj Hobj. apply H8. unfold getAction in *. by rewrite Ha1.
Qed.

(** The registry after [NewMDP] has created the actions. *)
Lemma NewMDP_actions_fold (actions : list string) :
  ∀ m h m2 h2,
    foldl (λ '(m, h) a,
             let '(x, h) := NewAction a h in
             (set_actions (<[a := x]> (mdp_actions m)) m, h))
          (m, h) actions = (m2, h2) →
    registry_named m →
    m2 = set_actions (mdp_actions m2) m ∧
    registry_named m2 ∧
    ∀ a, getAction m2 a ≠ None ↔ getAction m a ≠ None ∨ a ∈ actions.
Proof.
  induction actions as [|x actions IH]; intros m h m2 h2; simpl.
  - intros [= <- <-] Hreg. rewrite set_actions_id. split; [done|].
    split; [done|]. intros a. rewrite elem_of_nil. tauto.
  - intros Hfold Hreg.
    apply IH in Hfold as (Hm2 & Hreg2 & Hiff).
    2:{ apply (registry_named_insert m (mkAction h x) Hreg). }
    split. { etrans; [exact Hm2|reflexivity]. }
    split; [done|]. intros a. rewrite Hiff, elem_of_cons.
    unfold getAction. simpl. destruct (decide (x = a)) as [->|Hne].
    + rewrite lookup_insert_eq. split; [intros _; right; by left|].
      intros _. by left.
    + rewrite lookup_insert_ne by done. split.
      * intros [?|?]; [by left|right; by right].
      * intros [?|[?|?]]; [by left|by subst|by right].
Qed.

(** X27. What [NewMDP] builds, for a list of distinct state names.  The
    discount rate is the one given and the registered actions are exactly
    those listed.  Every listed state other than the initial one resolves,
    by name and by index, to a state that carries its name, as index 1 plus
    the number of non-initial names listed before it, and a terminal flag
    set exactly when it is listed as terminal; [R] returns the reward given
    for it, 0 if none was given, and [T] returns, for every listed action,
    the transition given for it, nil if none was given.  The initial state
    gets index 0 and is not terminal; a reward and transitions given for it
    are dropped: [R] returns 0 and [T] panics. *)
Theorem NewMDP_read_back (initialState : string)
    (states terminals actions : list string) (rewards : gmap string float32)
    (transitions : gmap string (gmap string Transition))
    (discountRate : float32) (h h' : addr) (m : mdp) :
  NewMDP initialState states terminals actions rewards transitions
    discountRate h = Normal (Some m, None, h') →
  NoDup states →
  mdp_discountRate m = discountRate ∧
  (∀ a, getAction m a ≠ None ↔ a ∈ actions) ∧
  (∀ k name, states !! k = Some name → name ≠ initialState →
     ∃ st,
       getStateByName m name = Some st ∧
       state_name st = name ∧
       state_index st =
         1 + Z.of_nat (length (filter (λ y, y ≠ initialState) (take k states))) ∧
       state_terminal st = bool_decide (name ∈ terminals) ∧
       getStateByIndex m (state_index st) = Some st ∧
       R m name = Normal (default f32_zero (rewards !! name)) ∧
       (∀ a, a ∈ actions →
          T m name a =
          Normal (default None (default ∅ (transitions !! name) !! a)))) ∧
  (initialState ≠ "" →
     ∃ s0,
       mdp_initialState m = Some s0 ∧
       getStateByName m initialState = Some s0 ∧
       getStateByIndex m 0 = Some s0 ∧
       state_name s0 = initialState ∧ state_index s0 = 0 ∧
       state_terminal s0 = false ∧
       R m initialState = Normal f32_zero ∧
       ∀ a, T m initialState a = Panics NilDereference).
Proof.
  unfold NewMDP.
  destruct (discount_out_of_range discountRate); [done|].
  rewrite make_states_default. cbn [NewRewards mbind outcome_bind].
  set (m0 := mkMdp _ _ _ _ _ _ _ _ _ _).
  destruct (if negb (String.eqb initialState "") then _ else _)
    as [m1 h1] eqn:Hp1.
  assert (H1 : mdp_actions m1 = ∅ ∧
               rewardsTable_table (mdp_rewards m1) = ∅ ∧
               transitionTable_table (mdp_transitions m1) = ∅ ∧
               (initialState ≠ "" →
                ∃ s0, s0 = mkState h initialState 0 false ∧
                      mdp_initialState m1 = Some s0 ∧
                      mdp_stateMap m1 !! initialState = Some (Some s0) ∧
                      mdp_stateIndexMap m1 !! 0 = Some (Some s0))).
  { revert Hp1. destruct (String.eqb initialState "") eqn:He;
      cbn [negb NewState]; intros [= <- <-].
    - do 3 (split; [done|]). intros Hne. by apply String.eqb_eq in He.
    - do 3 (split; [done|]). intros _. eexists. split; [done|].
      simpl. by rewrite !lookup_insert_eq. }
  clear Hp1. destruct H1 as (Hact1 & Hrw1 & Htt1 & Hinit1).
  destruct (foldl _ (m1, h1) actions) as [m2 h2] eqn:Hfold.
  apply NewMDP_actions_fold in Hfold as (Hm2 & Hreg2 & Hacts).
  2:{ intros n a. unfold getAction. by rewrite Hact1, lookup_empty. }
  destruct (for_range _ _ _) as [[[[m3 i3] h3]|[err h3]]|] eqn:Hloop;
    cbn [mbind outcome_bind]; [|done|done].
  intros [= <- <-] Hnd.
  apply (NewMDP_state_loop_spec _ _ _ _ _ Hnd) in Hloop
    as (Ha3 & Hinit3 & Hsm3 & Hlow3 & Htt3 & Hlist); [|done].
  assert (Hget : ∀ a, getAction (set_discountRate discountRate m3) a
                      = getAction m2 a).
  { intros a. unfold getAction. simpl. by rewrite Ha3. }
  split; [done|]. split.
  { intros a. rewrite Hget, Hacts. unfold getAction.
    rewrite Hact1, lookup_empty. split; [by intros [?|?]|by right]. }
  split.
  - intros k name Hk Hname.
    destruct (Hlist k name Hk Hname)
      as (st & e & H1 & H2 & H3 & H4 & H5 & H6 & H7 & H8).
    exists st.
    assert (Hn : getStateByName (set_discountRate discountRate m3) name
                 = Some st).
    { unfold getStateByName. simpl. by rewrite H1. }
    split; [done|]. split; [done|]. split; [done|]. split.
    { rewrite H4.
      destruct (foldl _ ∅ terminals !! name) as [b|] eqn:Ht.
      - symmetry. apply bool_decide_eq_true. apply dec_stable. intros Hnot.
        assert (foldl (λ tm t, <[t := true]> tm) (∅ : gmap string bool)
                  terminals !! name = None) as Hnone.
        { apply terminalMap_lookup. by rewrite lookup_empty. }
        congruence.
      - symmetry. apply bool_decide_eq_false.
        by apply terminalMap_lookup in Ht as [_ ?]. }
    split. { unfold getStateByIndex. simpl. by rewrite H5. }
    split. { unfold R, rewardsTable_Get. rewrite Hn. simpl. by rewrite H6. }
    intros a Ha. unfold T. rewrite Hn, Hget.
    destruct (getAction m2 a) as [obj|] eqn:Hobj.
    + rewrite transitionTable_Get_lookup. simpl. rewrite H7. simpl.
      by rewrite (H8 a obj Hobj).
    + exfalso. revert Hobj. apply Hacts. by right.
  - intros Hne. destruct (Hinit1 Hne) as (s0 & -> & Hi0 & Hs0 & Hx0).
    assert (Hfield : mdp_initialState m2 = mdp_initialState m1 ∧
                     mdp_stateMap m2 = mdp_stateMap m1 ∧
                     mdp_stateIndexMap m2 = mdp_stateIndexMap m1 ∧
                     mdp_rewards m2 = mdp_rewards m1 ∧
                     mdp_transitions m2 = mdp_transitions m1).
    { rewrite Hm2. done. }
    destruct Hfield as (F1 & F2 & F3 & F4 & F5).
    eexists.
    assert (Hn : getStateByName (set_discountRate discountRate m3) initialState
                 = Some (mkState h initialState 0 false)).
    { unfold getStateByName. simpl. rewrite Hsm3 by (by right).
      by rewrite F2, Hs0. }
    split. { simpl. rewrite Hinit3, F1. exact Hi0. }
    split; [done|]. split.
    { unfold getStateByIndex. simpl. destruct (Hlow3 0) as [-> _]; [lia|].
      by rewrite F3, Hx0. }
    do 3 (split; [done|]). split.
    + unfold R, rewardsTable_Get. rewrite Hn. simpl.
      destruct (Hlow3 0) as [_ ->]; [lia|]. by rewrite F4, Hrw1, lookup_empty.
    + intros a. unfold T. rewrite Hn, transitionTable_Get_lookup. simpl.
      rewrite Htt3 by (simpl; lia). by rewrite F5, Htt1, lookup_empty.
Qed.

Lemma NewMDP_read_back_witness :
  ∃ m h',
    NewMDP "s" ["s"; "t"] ["t"] ["a"] {["s" := f32_one; "t" := f32_one]}
      {["s" := {["a" := NewTransition f32_one None]};
        "t" := {["a" := NewTransition f32_one None]}]}
      f32_one 1 = Normal (Some m, None, h') ∧
    R m "t" = Normal f32_one ∧
    T m "t" "a" = Normal (NewTransition f32_one None) ∧
    R m "s" = Normal f32_zero ∧
    T m "s" "a" = Panics NilDereference.
Proof.
  assert (∃ m h',
    NewMDP "s" ["s"; "t"] ["t"] ["a"] {["s" := f32_one; "t" := f32_one]}
      {["s" := {["a" := NewTransition f32_one None]};
        "t" := {["a" := NewTransition f32_one None]}]}
      f32_one 1 = Normal (Some m, None, h')) as (m & h' & Hrun).
  { do 2 eexists. vm_compute. reflexivity. }
  destruct (NewMDP_read_back _ _ _ _ _ _ _ _ _ _ Hrun) as (_ & _ & Hl & Hi).
  { apply (bool_decide_unpack _). vm_compute. exact I. }
  exists m, h'. split; [exact Hrun|].
  destruct (Hl 1%nat "t") as (st & _ & _ & _ & _ & _ & HR & HT);
    [done|done|].
  destruct Hi as (s0 & _ & _ & _ & _ & _ & _ & HR0 & HT0); [done|].
  split; [exact HR|]. split.
  { rewrite HT by (by left). reflexivity. }
  split; [exact HR0|apply HT0].
Defined.

(** ** Adding states, continued *)

(** The slot the scan of [AddState] stops at holds no state: it is nil, or
    it is the end of the array. *)
Lemma first_nil_index_not_occupied (l : list State) (s0 : state) :
  l !! Z.to_nat (first_nil_index l) ≠ Some (Some s0).
Proof.
  pose proof (first_nil_index_bounds l) as [H0 H1].
  destruct (decide (first_nil_index l < Z.of_nat (length l))) as [Hlt|Hge].
  - by rewrite first_nil_index_free.
  - rewrite lookup_ge_None_2; [done|]. lia.
Qed.

(** X28. A successful [AddState] stores the new state, with the index the
    scan found, in the first slot of the backing array that holds no state
    -- every slot before it holds one, and the slot itself was nil or is a
    new slot at the end of a full array -- and touches no other slot of
    the old array;
    the index and the name resolve to the new state.  When slot 0 was
    free the new state becomes the initial state, otherwise the initial
    state stays. *)
Theorem AddState_fills_first_free_slot (m m' : mdp) (name : string)
    (terminal : bool) (reward : float32) (ts : gmap string Transition)
    (h h' : addr) :
  AddState m name terminal reward ts h = Normal (None, m', h') →
  let i := first_nil_index (mdp_states m) in
  let s := mkState h name i terminal in
  (∀ j : nat, Z.of_nat j < i → ∃ s0, mdp_states m !! j = Some (Some s0)) ∧
  (∀ s0, mdp_states m !! Z.to_nat i ≠ Some (Some s0)) ∧
  mdp_states m' !! Z.to_nat i = Some (Some s) ∧
  (∀ j : nat, (j < length (mdp_states m))%nat → j ≠ Z.to_nat i →
     mdp_states m' !! j = mdp_states m !! j) ∧
  getStateByIndex m' i = Some s ∧
  getStateByName m' name = Some s ∧
  mdp_initialState m' = (if i =? 0 then Some s else mdp_initialState m).
Proof.
  intros Hset. cbv zeta. unfold AddState in Hset.
  pose proof (SetState_installs _ _ _ _ _ _ _ _ _ Hset)
    as (_ & Hi & Hn & Hslot & _ & Hother).
  pose proof (SetState_fields _ _ _ _ _ _ _ _ _ Hset)
    as (_ & _ & _ & _ & _ & Hinit & _).
  split; [apply first_nil_index_occupied|].
  split; [intros s0; apply first_nil_index_not_occupied|]. done.
Qed.

Lemma AddState_fills_first_free_slot_witness :
  ∃ m' h',
    AddState mdp_A "B" false f32_zero ∅ 2 = Normal (None, m', h') ∧
    mdp_states m' !! 1%nat = Some (Some (mkState 1 "A" 1 false)) ∧
    mdp_initialState m' = Some (mkState 2 "B" 0 false).
Proof.
  assert (∃ m' h', AddState mdp_A "B" false f32_zero ∅ 2 = Normal (None, m', h'))
    as (m' & h' & Hrun).
  { do 2 eexists. vm_compute. reflexivity. }
  pose proof (AddState_fills_first_free_slot _ _ _ _ _ _ _ _ Hrun)
    as (_ & _ & _ & Hother & _ & _ & Hinit).
  exists m', h'. split; [exact Hrun|]. split.
  - rewrite Hother; [reflexivity|vm_compute; lia|vm_compute; lia].
  - exact Hinit.
Defined.

(** X29. The first [AddState] on an aggregate built by [NewMDP] takes
    index 0, whatever states the aggregate holds, because construction
    leaves the first 128 slots nil.  The new state becomes the initial
    state; the initial state given at construction still resolves by name
    but has lost its index to the new state: [R] of its name returns the
    reward of the new state and [T] of its name panics. *)
Theorem AddState_after_NewMDP_takes_index_0 (initialState : string)
    (states terminals actions : list string) (rewards : gmap string float32)
    (transitions : gmap string (gmap string Transition))
    (discountRate : float32) (h h1 h2 : addr) (m m' : mdp) (name : string)
    (terminal : bool) (reward : float32) (ts : gmap string Transition) :
  NewMDP initialState states terminals actions rewards transitions
    discountRate h = Normal (Some m, None, h1) →
  AddState m name terminal reward ts h1 = Normal (None, m', h2) →
  let s := mkState h1 name 0 terminal in
  first_nil_index (mdp_states m) = 0 ∧
  mdp_initialState m' = Some s ∧
  getStateByIndex m' 0 = Some s ∧
  getStateByName m' name = Some s ∧
  (initialState ≠ "" → name ≠ initialState →
   ∃ s0,
     getStateByName m initialState = Some s0 ∧
     getStateByName m' initialState = Some s0 ∧
     R m' initialState = Normal reward ∧
     ∀ a, T m' initialState a = Panics NilDereference).
Proof.
  intros Hnew Hadd. cbv zeta.
  apply NewMDP_constructed in Hnew as (_ & Hnil & _ & Hinit & _).
  assert (H0 : first_nil_index (mdp_states m) = 0).
  { destruct (mdp_states m) as [|[x|] l]; [done| |done]. discriminate Hnil. }
  unfold AddState in Hadd. rewrite H0 in Hadd.
  pose proof (SetState_installs _ _ _ _ _ _ _ _ _ Hadd)
    as (_ & Hi & Hn & _ & Hini & _).
  pose proof (SetState_fields _ _ _ _ _ _ _ _ _ Hadd)
    as (e' & Hsm & Him & Hrew & Htt & _).
  split; [done|]. split; [by apply Hini|]. split; [done|]. split; [done|].
  intros Hne Hname. destruct (Hinit Hne) as (s0 & Hx0 & Hs0 & Hname0 & Hidx0).
  exists s0.
  assert (Hby : getStateByName m' initialState = Some s0).
  { unfold getStateByName. rewrite Hsm, lookup_insert_ne by done. by rewrite Hs0. }
  split. { unfold getStateByName. by rewrite Hs0. }
  split; [done|]. split.
  - unfold R, rewardsTable_Get. rewrite Hby, Hrew. simpl. rewrite Hidx0.
    by rewrite lookup_insert_eq.
  - intros a. unfold T. rewrite Hby, transitionTable_Get_lookup, Htt. simpl.
    rewrite lookup_insert_ne by (intros [= <-]; done).
    unfold without_state_at, getStateByIndex. rewrite Hx0. simpl.
    by rewrite lookup_delete_eq.
Qed.

Lemma AddState_after_NewMDP_takes_index_0_witness :
  ∃ m h1 m' h2,
    NewMDP "s" ["s"; "t"] ["t"] [] ∅ ∅ f32_one 1 = Normal (Some m, None, h1) ∧
    AddState m "u" false f32_one ∅ h1 = Normal (None, m', h2) ∧
    mdp_initialState m' = Some (mkState h1 "u" 0 false) ∧
    T m' "s" "a" = Panics NilDereference.
Proof.
  assert (∃ m h1 m' h2,
    NewMDP "s" ["s"; "t"] ["t"] [] ∅ ∅ f32_one 1 = Normal (Some m, None, h1) ∧
    AddState m "u" false f32_one ∅ h1 = Normal (None, m', h2))
    as (m & h1 & m' & h2 & Hnew & Hadd).
  { do 4 eexists. split; [vm_compute; reflexivity|]. vm_compute. reflexivity. }
  pose proof (AddState_after_NewMDP_takes_index_0 _ _ _ _ _ _ _ _ _ _ _ _ _ _ _ _
                Hnew Hadd) as (_ & Hinit & _ & _ & Hold).
  exists m, h1, m', h2. split; [exact Hnew|]. split; [exact Hadd|].
  split; [exact Hinit|].
  destruct Hold as (s0 & _ & _ & _ & HT); [done|done|]. apply HT.
Defined.

(** ** Uniform *)

(** X30. [Uniform] divides integers before converting: it returns 1 for a
    support of 1, -1 for a support of -1 and 0 for every other support
    size, and panics for a support of 0; it never returns a probability
    strictly between 0 and 1. *)
Theorem Uniform_truncates (support : Z) :
  (support = 0 → Uniform support = None) ∧
  (support = 1 → Uniform support = Some f32_one) ∧
  (support = -1 → Uniform support = Some (SFopp f32_one)) ∧
  (2 ≤ support ∨ support ≤ -2 → Uniform support = Some f32_zero).
Proof.
  split; [by intros ->|]. split; [by intros ->|]. split; [by intros ->|].
  intros Hs. unfold Uniform.
  destruct (support =? 0) eqn:H0; [apply Z.eqb_eq in H0; lia|].
  assert (Z.quot 1 support = 0) as ->; [|done].
  destruct Hs as [Hs|Hs].
  - apply Z.quot_small. lia.
  - replace support with (- - support) by lia.
    rewrite Z.quot_opp_r by lia. rewrite Z.quot_small by lia. done.
Qed.
